(** * dbbench: configuration decoding and the test runner

    A shallow embedding of [config.go] (the INI decoder, the JSON validator
    and the final start/stop checks) and of [runTest] and [main] in
    [dbbench.go], followed by the properties of the specification that
    concern them and by further properties of the same code.

    Go values are modelled as follows:
    - [string] is a byte string, so [String.length] is Go's [len];
    - [time.Duration] (int64 nanoseconds) is [Z];
    - [uint64] is [N] (the code only stores and compares these values);
    - a [rune] is [Z];
    - [float64] is [spec_float], the IEEE 754 datum with its NaN,
      infinities and signed zeros, compared with [SFltb] and [SFeqb];
    - a function returning [(T, error)] returns [result T];
    - [map[string]T] is [gmap string T]. *)

From Stdlib Require Import ZArith List Bool Ascii String Lia.
From Stdlib Require Import Floats.SpecFloat.
From stdpp Require Import base option list gmap strings fin_maps.

Import ListNotations.
Local Open Scope string_scope.
Local Open Scope Z_scope.
Local Open Scope list_scope.

(** ** Errors and results *)

(** Modelled from the spec: [EmptyQueryError] is declared in a file of the
    repository other than the two embedded here; it is what [CheckQuery]
    returns for a query made of white space and comments only, and
    [config.go] tells it from the other errors by identity.  Every other
    error is known by its message. *)
Inductive error : Type :=
| EmptyQueryError
| New (msg : string).

#[global] Instance error_eq_dec : EqDecision error.
Proof. solve_decision. Defined.

Inductive result (A : Type) : Type :=
| Ok (a : A)
| Fail (e : error).
Arguments Ok {A} a.
Arguments Fail {A} e.

Definition bind {A B : Type} (r : result A) (k : A -> result B) : result B :=
  match r with
  | Ok a => k a
  | Fail e => Fail e
  end.

Notation "'attempt' x ':=' r 'in' k" := (bind r (fun x => k))
  (at level 10, x name, r at level 100, k at level 200).

Definition isOk {A : Type} (r : result A) : bool :=
  match r with Ok _ => true | Fail _ => false end.

(** A left fold that stops at the first failure: the shape of every
    [for ... range] loop of the decoder whose body may [return err]. *)
Fixpoint foldM {A S : Type} (f : S -> A -> result S) (l : list A) (s : S)
  : result S :=
  match l with
  | [] => Ok s
  | a :: l' => attempt s' := f s a in foldM f l' s'
  end.

(** ** Strings: the parts of [unicode/utf8] and [strings] the code calls *)

Module utf8.

Definition RuneError : Z := 65533.

Definition byte (a : ascii) : Z := Z.of_N (N_of_ascii a).

Definition ascii_of (b : Z) : ascii := ascii_of_N (Z.to_N b).

(** Size of the sequence announced by a leading byte, with the range
    accepted for the second byte ([first] and [acceptRanges] in Go). *)
Definition first (s0 : Z) : option (nat * Z * Z) :=
  if s0 <? 194 then None
  else if s0 <? 224 then Some (2%nat, 128, 191)
  else if s0 =? 224 then Some (3%nat, 160, 191)
  else if s0 =? 237 then Some (3%nat, 128, 159)
  else if s0 <? 240 then Some (3%nat, 128, 191)
  else if s0 =? 240 then Some (4%nat, 144, 191)
  else if s0 <? 244 then Some (4%nat, 128, 191)
  else if s0 =? 244 then Some (4%nat, 128, 143)
  else None.

Definition inRange (lo hi b : Z) : bool := (lo <=? b) && (b <=? hi).

Definition low6 (b : Z) : Z := Z.land b 63.

Definition DecodeRuneInString (s : string) : Z * nat :=
  match s with
  | EmptyString => (RuneError, 0%nat)
  | String a rest =>
    let s0 := byte a in
    if s0 <? 128 then (s0, 1%nat)
    else match first s0 with
    | None => (RuneError, 1%nat)
    | Some (sz, lo, hi) =>
      if (String.length s <? sz)%nat then (RuneError, 1%nat)
      else match rest with
      | EmptyString => (RuneError, 1%nat)
      | String b1 rest1 =>
        let s1 := byte b1 in
        if negb (inRange lo hi s1) then (RuneError, 1%nat)
        else if (sz <=? 2)%nat
        then (Z.lor (Z.shiftl (Z.land s0 31) 6) (low6 s1), 2%nat)
        else match rest1 with
        | EmptyString => (RuneError, 1%nat)
        | String b2 rest2 =>
          let s2 := byte b2 in
          if negb (inRange 128 191 s2) then (RuneError, 1%nat)
          else if (sz <=? 3)%nat
          then (Z.lor (Z.shiftl (Z.land s0 15) 12)
                  (Z.lor (Z.shiftl (low6 s1) 6) (low6 s2)), 3%nat)
          else match rest2 with
          | EmptyString => (RuneError, 1%nat)
          | String b3 _ =>
            let s3 := byte b3 in
            if negb (inRange 128 191 s3) then (RuneError, 1%nat)
            else (Z.lor (Z.shiftl (Z.land s0 7) 18)
                    (Z.lor (Z.shiftl (low6 s1) 12)
                       (Z.lor (Z.shiftl (low6 s2) 6) (low6 s3))), 4%nat)
          end
        end
      end
    end
  end.

Definition cont (r : Z) (shift : Z) : ascii :=
  ascii_of (Z.lor 128 (low6 (Z.shiftr r shift))).

(** The UTF-8 encoding of a code point ([utf8.AppendRune]): what a
    character of the configuration file is, as bytes. *)
Definition EncodeRune (r : Z) : string :=
  if (0 <=? r) && (r <? 128) then String (ascii_of r) EmptyString
  else if (0 <=? r) && (r <? 2048) then
    String (ascii_of (Z.lor 192 (Z.shiftr r 6)))
      (String (cont r 0) EmptyString)
  else if (r <? 0) || (1114111 <? r) || ((55296 <=? r) && (r <=? 57343)) then
    String (ascii_of 239) (String (ascii_of 191) (String (ascii_of 189) EmptyString))
  else if r <? 65536 then
    String (ascii_of (Z.lor 224 (Z.shiftr r 12)))
      (String (cont r 6) (String (cont r 0) EmptyString))
  else
    String (ascii_of (Z.lor 240 (Z.shiftr r 18)))
      (String (cont r 12) (String (cont r 6) (String (cont r 0) EmptyString))).

End utf8.

Module strings.

Fixpoint drop (n : nat) (s : string) : string :=
  match n, s with
  | O, _ => s
  | S _, EmptyString => EmptyString
  | S k, String _ rest => drop k rest
  end.

Fixpoint take (n : nat) (s : string) : string :=
  match n, s with
  | O, _ => EmptyString
  | S _, EmptyString => EmptyString
  | S k, String a rest => String a (take k rest)
  end.

(** [explode]: one piece per UTF-8 sequence.  Every step consumes at
    least one byte, so [String.length s] steps are enough. *)
Fixpoint explode (fuel : nat) (s : string) : list string :=
  match fuel, s with
  | _, EmptyString => []
  | O, _ => [s]
  | S k, _ =>
    let size := snd (utf8.DecodeRuneInString s) in
    take size s :: explode k (drop size s)
  end.

(** Splitting on a non-empty separator, left to right and without
    overlap.  [skip] counts the bytes of a separator that was found and
    is still being walked over; [cur] is the piece read so far. *)
Fixpoint splitOn (sep : string) (skip : nat) (cur : string) (s : string)
  : list string :=
  match s with
  | EmptyString => [cur]
  | String a rest =>
    match skip with
    | S k => splitOn sep k cur rest
    | O =>
      if String.prefix sep s
      then cur :: splitOn sep (String.length sep - 1) EmptyString rest
      else splitOn sep 0 (cur +:+ String a EmptyString) rest
    end
  end.

Definition Split (s sep : string) : list string :=
  match sep with
  | EmptyString => explode (String.length s) s
  | _ => splitOn sep 0 EmptyString s
  end.

End strings.

(** ** Values the decoder builds *)

Definition float64 : Type := spec_float.

Definition zero64 : float64 := S754_zero false.

(** [*os.File]: known by the path it was opened at. *)
Inductive File : Type := FileAt (path : string).

(** Modelled from the spec: [SafeCSVWriter] is declared in a file of the
    repository other than the two embedded here; the specification
    describes it as an append-only CSV sink backed by a file truncated on
    open, so a writer is known by the path of its file. *)
Inductive SafeCSVWriter : Type := WriterAt (path : string).

(** [*csv.Reader]: the stream it reads and its field delimiter. *)
Record csvReader : Type := { csvSource : File; Comma : Z }.

(** [csv.NewReader] starts with a comma as delimiter. *)
Definition csv_NewReader (f : File) : csvReader :=
  {| csvSource := f; Comma := 44 |}.

Module Job.
(** Modelled from the spec: the [Job] structure is declared in a file of
    the repository other than the two embedded here.  Its fields are those
    of the Job of the data model ([name, start, stop, queries, queryLog,
    queryArgs, queryResults, rate, batchSize, queueDepth, count]), with
    the Go types that [config.go] assigns to them. *)
Record t : Type := {
  Name : string;
  Start : Z;
  Stop : Z;
  Queries : list string;
  QueryLog : option File;
  QueryArgs : option csvReader;
  QueryResults : option SafeCSVWriter;
  Rate : float64;
  BatchSize : N;
  QueueDepth : N;
  Count : N
}.

(** [new(Job)] with [job.Name = name]. *)
Definition new (name : string) : t :=
  {| Name := name; Start := 0; Stop := 0; Queries := []; QueryLog := None;
     QueryArgs := None; QueryResults := None; Rate := zero64;
     BatchSize := 0; QueueDepth := 0; Count := 0 |}.

Definition withStart (v : Z) (j : t) : t :=
  {| Name := Name j; Start := v; Stop := Stop j; Queries := Queries j;
     QueryLog := QueryLog j; QueryArgs := QueryArgs j;
     QueryResults := QueryResults j; Rate := Rate j;
     BatchSize := BatchSize j; QueueDepth := QueueDepth j; Count := Count j |}.
Definition withStop (v : Z) (j : t) : t :=
  {| Name := Name j; Start := Start j; Stop := v; Queries := Queries j;
     QueryLog := QueryLog j; QueryArgs := QueryArgs j;
     QueryResults := QueryResults j; Rate := Rate j;
     BatchSize := BatchSize j; QueueDepth := QueueDepth j; Count := Count j |}.
Definition withQueries (v : list string) (j : t) : t :=
  {| Name := Name j; Start := Start j; Stop := Stop j; Queries := v;
     QueryLog := QueryLog j; QueryArgs := QueryArgs j;
     QueryResults := QueryResults j; Rate := Rate j;
     BatchSize := BatchSize j; QueueDepth := QueueDepth j; Count := Count j |}.
Definition withQueryLog (v : option File) (j : t) : t :=
  {| Name := Name j; Start := Start j; Stop := Stop j; Queries := Queries j;
     QueryLog := v; QueryArgs := QueryArgs j;
     QueryResults := QueryResults j; Rate := Rate j;
     BatchSize := BatchSize j; QueueDepth := QueueDepth j; Count := Count j |}.
Definition withQueryArgs (v : option csvReader) (j : t) : t :=
  {| Name := Name j; Start := Start j; Stop := Stop j; Queries := Queries j;
     QueryLog := QueryLog j; QueryArgs := v;
     QueryResults := QueryResults j; Rate := Rate j;
     BatchSize := BatchSize j; QueueDepth := QueueDepth j; Count := Count j |}.
Definition withQueryResults (v : option SafeCSVWriter) (j : t) : t :=
  {| Name := Name j; Start := Start j; Stop := Stop j; Queries := Queries j;
     QueryLog := QueryLog j; QueryArgs := QueryArgs j;
     QueryResults := v; Rate := Rate j;
     BatchSize := BatchSize j; QueueDepth := QueueDepth j; Count := Count j |}.
Definition withRate (v : float64) (j : t) : t :=
  {| Name := Name j; Start := Start j; Stop := Stop j; Queries := Queries j;
     QueryLog := QueryLog j; QueryArgs := QueryArgs j;
     QueryResults := QueryResults j; Rate := v;
     BatchSize := BatchSize j; QueueDepth := QueueDepth j; Count := Count j |}.
Definition withBatchSize (v : N) (j : t) : t :=
  {| Name := Name j; Start := Start j; Stop := Stop j; Queries := Queries j;
     QueryLog := QueryLog j; QueryArgs := QueryArgs j;
     QueryResults := QueryResults j; Rate := Rate j;
     BatchSize := v; QueueDepth := QueueDepth j; Count := Count j |}.
Definition withQueueDepth (v : N) (j : t) : t :=
  {| Name := Name j; Start := Start j; Stop := Stop j; Queries := Queries j;
     QueryLog := QueryLog j; QueryArgs := QueryArgs j;
     QueryResults := QueryResults j; Rate := Rate j;
     BatchSize := BatchSize j; QueueDepth := v; Count := Count j |}.
Definition withCount (v : N) (j : t) : t :=
  {| Name := Name j; Start := Start j; Stop := Stop j; Queries := Queries j;
     QueryLog := QueryLog j; QueryArgs := QueryArgs j;
     QueryResults := QueryResults j; Rate := Rate j;
     BatchSize := BatchSize j; QueueDepth := QueueDepth j; Count := v |}.
End Job.

(** The three scheduling modes, as the drivers read them off a job. *)
Definition ratePaced (j : Job.t) : bool := SFltb zero64 (Job.Rate j).
Definition queueDepthMode (j : Job.t) : bool := (0 <? Job.QueueDepth j)%N.
Definition logReplay (j : Job.t) : bool :=
  match Job.QueryLog j with Some _ => true | None => false end.

(** How many of the three modes a job is in. *)
Definition jobTypes (j : Job.t) : Z :=
  Z.b2z (queueDepthMode j) + Z.b2z (logReplay j) + Z.b2z (ratePaced j).

(** ** The JSON document, as [encoding/json] fills it *)

Module JobOptions.
Record t : Type := {
  Start : string;
  Stop : string;
  Queries : list string;
  QueryFiles : list string;
  QueryArgsFile : string;
  QueryArgsDelim : string;
  QueryResultsFile : string;
  Rate : float64;
  BatchSize : N;
  QueueDepth : N;
  Concurrency : N;
  Count : N;
  MultiQueryMode : bool;
  QueryLogFile : string
}.
End JobOptions.

Module ReservedSectionOptions.
Record t : Type := {
  Queries : list string;
  QueryFiles : list string
}.
End ReservedSectionOptions.

Module JSONConfig.
Record t : Type := {
  Duration : string;
  Errors : list string;
  Setup : ReservedSectionOptions.t;
  Teardown : ReservedSectionOptions.t;
  Jobs : gmap string JobOptions.t
}.
End JSONConfig.

(** [reflect.ValueOf] applied to one of the three structures above. *)
Inductive Value : Type :=
| ValueOfJobOptions (o : JobOptions.t)
| ValueOfReserved (o : ReservedSectionOptions.t)
| ValueOfJSONConfig (c : JSONConfig.t).

(** ** goini: raw sections and option sets

    The library [github.com/awreece/goini], as [config.go] uses it.  A
    raw section is the list of its [key = value] properties in file order;
    a raw configuration gives the global section, the names of the other
    sections and each section by name.  [Decode] hands every property to
    the [Parse] function of its option, in order, and stops at the first
    error; a key that is not in the option set is an error, and so is a
    second occurrence of a [UniqueOption]. *)
Module goini.

Inductive DecodeOptionKind : Type := UniqueOption | MultiOption.

Record DecodeOption (S : Type) : Type := {
  Kind : DecodeOptionKind;
  Parse : string -> S -> result S
}.
Arguments Kind {S} _.
Arguments Parse {S} _ _ _.

Definition DecodeOptionSet (S : Type) : Type := list (string * DecodeOption S).

Definition RawSection : Type := list (string * string).

Record RawConfig : Type := {
  GlobalSection : RawSection;
  Sections : list string;
  Section : string -> RawSection
}.

(** The errors [Decode] raises by itself. *)
Record Errors : Type := {
  UnknownOption : string -> error;
  RepeatedOption : string -> error
}.

Fixpoint lookupOption {S : Type} (dos : DecodeOptionSet S) (key : string)
  : option (DecodeOption S) :=
  match dos with
  | [] => None
  | (k, o) :: dos' => if String.eqb k key then Some o else lookupOption dos' key
  end.

Definition isUnique (k : DecodeOptionKind) : bool :=
  match k with UniqueOption => true | MultiOption => false end.

Definition seenBefore (seen : list string) (key : string) : bool :=
  existsb (String.eqb key) seen.

(** [seen] holds the unique keys met so far. *)
Fixpoint decodeFrom {S : Type} (errs : Errors) (dos : DecodeOptionSet S)
    (seen : list string) (props : RawSection) (dst : S) : result S :=
  match props with
  | [] => Ok dst
  | (key, value) :: props' =>
    match lookupOption dos key with
    | None => Fail (UnknownOption errs key)
    | Some o =>
      if isUnique (Kind o) && seenBefore seen key
      then Fail (RepeatedOption errs key)
      else
        attempt dst' := Parse o value dst in
        decodeFrom errs dos (if isUnique (Kind o) then key :: seen else seen)
          props' dst'
    end
  end.

Definition Decode {S : Type} (errs : Errors) (dos : DecodeOptionSet S)
    (section : RawSection) (dst : S) : result S :=
  decodeFrom errs dos [] section dst.

End goini.

(** ** What the code takes from outside this file

    The Go standard library functions the decoder calls, and the two
    helpers of the repository that are declared in other files
    ([NewSafeCSVWriter] and [isFieldSet]).  [EmptyQueryText] is the message
    of [EmptyQueryError]; [goini_errors] are the errors goini itself
    raises, [goini_ParseFile] is its parser ([ParseFile] then [Finish]).
    Nothing is assumed about any of them: every theorem below holds for
    all of them, and the examples fix them to a small table. *)
Record Runtime : Type := {
  time_ParseDuration : string -> result Z;
  strconv_ParseFloat : string -> result float64;
  strconv_ParseUint : string -> result N;
  strconv_Unquote : string -> result string;
  strconv_Quote : string -> string;
  filepath_IsAbs : string -> bool;
  filepath_Join : string -> string -> string;
  os_Open : string -> result File;
  ioutil_ReadAll : File -> result string;
  NewSafeCSVWriter : string -> result SafeCSVWriter;
  isFieldSet : Value -> string -> bool;
  EmptyQueryText : string;
  goini_errors : goini.Errors;
  isJSONFile : string -> bool;
  ioutil_ReadFile : string -> result string;
  json_Unmarshal : string -> result JSONConfig.t;
  goini_ParseFile : string -> result goini.RawConfig
}.

(** Modelled from the spec: the [DatabaseFlavor] interface is declared in
    a file of the repository other than the two embedded here.  Of the
    methods the specification lists ([QuerySeparator], [CheckQuery],
    [Placeholder], [Connect]) these are the two [config.go] calls;
    [CheckQuery] answers nil ([None]), [EmptyQueryError] or another
    error. *)
Record DatabaseFlavor : Type := {
  QuerySeparator : string;
  CheckQuery : string -> option error
}.

Module Config.
Record t : Type := {
  Flavor : DatabaseFlavor;
  Duration : Z;
  Setup : list string;
  Teardown : list string;
  Jobs : gmap string Job.t;
  AcceptedErrors : option (gset string)
}.

(** [new(Config)] with [config.Flavor = df]. *)
Definition new (df : DatabaseFlavor) : t :=
  {| Flavor := df; Duration := 0; Setup := []; Teardown := [];
     Jobs := ∅; AcceptedErrors := None |}.

Definition withDuration (v : Z) (c : t) : t :=
  {| Flavor := Flavor c; Duration := v; Setup := Setup c;
     Teardown := Teardown c; Jobs := Jobs c;
     AcceptedErrors := AcceptedErrors c |}.
Definition withSetup (v : list string) (c : t) : t :=
  {| Flavor := Flavor c; Duration := Duration c; Setup := v;
     Teardown := Teardown c; Jobs := Jobs c;
     AcceptedErrors := AcceptedErrors c |}.
Definition withTeardown (v : list string) (c : t) : t :=
  {| Flavor := Flavor c; Duration := Duration c; Setup := Setup c;
     Teardown := v; Jobs := Jobs c;
     AcceptedErrors := AcceptedErrors c |}.
Definition withJobs (v : gmap string Job.t) (c : t) : t :=
  {| Flavor := Flavor c; Duration := Duration c; Setup := Setup c;
     Teardown := Teardown c; Jobs := v;
     AcceptedErrors := AcceptedErrors c |}.
Definition withAcceptedErrors (v : option (gset string)) (c : t) : t :=
  {| Flavor := Flavor c; Duration := Duration c; Setup := Setup c;
     Teardown := Teardown c; Jobs := Jobs c;
     AcceptedErrors := v |}.
End Config.

(** [jobParser]: the job being filled and what is kept beside it until the
    section has been read. *)
Module jobParser.
Record t : Type := {
  j : Job.t;
  df : DatabaseFlavor;
  basedir : string;
  queryArgsFile : option File;
  queryArgsDelim : Z;
  multiQueryAllowed : bool
}.

(** [jobParser{j: job, df: df, basedir: basedir}]. *)
Definition make (job : Job.t) (flavor : DatabaseFlavor) (dir : string) : t :=
  {| j := job; df := flavor; basedir := dir; queryArgsFile := None;
     queryArgsDelim := 0; multiQueryAllowed := false |}.

Definition onJob (f : Job.t -> Job.t) (jp : t) : t :=
  {| j := f (j jp); df := df jp; basedir := basedir jp;
     queryArgsFile := queryArgsFile jp; queryArgsDelim := queryArgsDelim jp;
     multiQueryAllowed := multiQueryAllowed jp |}.
Definition withQueryArgsFile (v : option File) (jp : t) : t :=
  {| j := j jp; df := df jp; basedir := basedir jp;
     queryArgsFile := v; queryArgsDelim := queryArgsDelim jp;
     multiQueryAllowed := multiQueryAllowed jp |}.
Definition withQueryArgsDelim (v : Z) (jp : t) : t :=
  {| j := j jp; df := df jp; basedir := basedir jp;
     queryArgsFile := queryArgsFile jp; queryArgsDelim := v;
     multiQueryAllowed := multiQueryAllowed jp |}.
Definition withMultiQueryAllowed (v : bool) (jp : t) : t :=
  {| j := j jp; df := df jp; basedir := basedir jp;
     queryArgsFile := queryArgsFile jp; queryArgsDelim := queryArgsDelim jp;
     multiQueryAllowed := v |}.
End jobParser.

Definition isNil {A : Type} (o : option A) : bool :=
  match o with None => true | Some _ => false end.

(** The reader handed to [csv.NewReader], with the delimiter replaced when
    one was given. *)
Definition withComma (delim : Z) (r : csvReader) : csvReader :=
  {| csvSource := csvSource r; Comma := delim |}.

(** ** [config.go] *)

Section Decoder.

Variable rt : Runtime.

(** [err.Error()]. *)
Definition Error (e : error) : string :=
  match e with
  | EmptyQueryError => EmptyQueryText rt
  | New msg => msg
  end.

(** [if !filepath.IsAbs(v) { v = filepath.Join(basedir, v) }]. *)
Definition inBasedir (dir v : string) : string :=
  if negb (filepath_IsAbs rt v) then filepath_Join rt dir v else v.

Definition readQueriesFromReader (df : DatabaseFlavor) (r : File)
  : result (list string) :=
  attempt contents := ioutil_ReadAll rt r in
  foldM (fun queries query =>
           match CheckQuery df query with
           | Some err =>
             if bool_decide (err <> EmptyQueryError)
             then Fail (New ("invalid query " +:+ Error err))
             else Ok queries
           | None => Ok (queries ++ [query])
           end)
        (strings.Split contents (QuerySeparator df)) [].

Definition readQueriesFromFile (df : DatabaseFlavor) (queryFile : string)
  : result (list string) :=
  attempt file := os_Open rt queryFile in
  readQueriesFromReader df file.

(** *** The global section *)

Definition globalOptions : goini.DecodeOptionSet Config.t := [
  ("duration",
   {| goini.Kind := goini.UniqueOption;
      goini.Parse := fun v config =>
        attempt d := time_ParseDuration rt v in
        Ok (Config.withDuration d config) |});
  ("error",
   {| goini.Kind := goini.MultiOption;
      goini.Parse := fun v config =>
        let accepted := default ∅ (Config.AcceptedErrors config) in
        Ok (Config.withAcceptedErrors (Some ({[ v ]} ∪ accepted)) config) |})
].

Definition decodeGlobalSection (df : DatabaseFlavor) (s : goini.RawSection)
    (c : Config.t) : result Config.t :=
  goini.Decode (goini_errors rt) globalOptions s c.

Definition validateGlobalSection (jsonConfig : JSONConfig.t) (c : Config.t)
  : result Config.t :=
  let v := ValueOfJSONConfig jsonConfig in
  attempt c :=
    (if isFieldSet rt v "Duration"
     then attempt d := time_ParseDuration rt (JSONConfig.Duration jsonConfig) in
          Ok (Config.withDuration d c)
     else Ok c) in
  Ok (if isFieldSet rt v "Errors"
      then Config.withAcceptedErrors
             (Some (list_to_set (JSONConfig.Errors jsonConfig))) c
      else c).

(** *** Setup and teardown *)

Record setupSectionParser : Type := {
  ssp_queries : list string;
  ssp_df : DatabaseFlavor;
  ssp_basedir : string
}.

Definition addQueries (qs : list string) (ssp : setupSectionParser)
  : setupSectionParser :=
  {| ssp_queries := ssp_queries ssp ++ qs; ssp_df := ssp_df ssp;
     ssp_basedir := ssp_basedir ssp |}.

Definition setupOptions : goini.DecodeOptionSet setupSectionParser := [
  ("query",
   {| goini.Kind := goini.MultiOption;
      goini.Parse := fun v ssp =>
        match CheckQuery (ssp_df ssp) v with
        | Some e => Fail e
        | None => Ok (addQueries [v] ssp)
        end |});
  ("query-file",
   {| goini.Kind := goini.MultiOption;
      goini.Parse := fun v ssp =>
        let v := inBasedir (ssp_basedir ssp) v in
        attempt qs := readQueriesFromFile (ssp_df ssp) v in
        Ok (addQueries qs ssp) |})
].

(** Returns the new value of [*ss]; it is written only when decoding
    succeeded. *)
Definition decodeSetupSection (df : DatabaseFlavor) (s : goini.RawSection)
    (basedir : string) : result (list string) :=
  let parser := {| ssp_queries := []; ssp_df := df; ssp_basedir := basedir |} in
  attempt parser := goini.Decode (goini_errors rt) setupOptions s parser in
  Ok (ssp_queries parser).

Definition validateReservedSection (df : DatabaseFlavor)
    (jsonConfig : JSONConfig.t) (basedir : string) (sectionName : string)
    (ss : list string) : result (list string) :=
  let v := ValueOfJSONConfig jsonConfig in
  if negb (isFieldSet rt v sectionName) then Ok ss
  else
    let section :=
      if String.eqb sectionName "Setup" then JSONConfig.Setup jsonConfig
      else if String.eqb sectionName "Teardown" then JSONConfig.Teardown jsonConfig
      else {| ReservedSectionOptions.Queries := [];
              ReservedSectionOptions.QueryFiles := [] |} in
    let v := ValueOfReserved section in
    attempt ss :=
      (if isFieldSet rt v "Queries"
       then foldM (fun ss query =>
                     match CheckQuery df query with
                     | Some err => Fail err
                     | None => Ok (ss ++ [query])
                     end)
                  (ReservedSectionOptions.Queries section) ss
       else Ok ss) in
    if isFieldSet rt v "QueryFiles"
    then foldM (fun ss queryFile =>
                  let queryFile := inBasedir basedir queryFile in
                  attempt queries := readQueriesFromFile df queryFile in
                  Ok (ss ++ queries))
               (ReservedSectionOptions.QueryFiles section) ss
    else Ok ss.

(** *** Job sections, INI form *)

Definition jobOptions : goini.DecodeOptionSet jobParser.t := [
  ("start",
   {| goini.Kind := goini.UniqueOption;
      goini.Parse := fun v jp =>
        attempt d := time_ParseDuration rt v in
        Ok (jobParser.onJob (Job.withStart d) jp) |});
  ("stop",
   {| goini.Kind := goini.UniqueOption;
      goini.Parse := fun v jp =>
        attempt d := time_ParseDuration rt v in
        Ok (jobParser.onJob (Job.withStop d) jp) |});
  ("query",
   {| goini.Kind := goini.MultiOption;
      goini.Parse := fun v jp =>
        match CheckQuery (jobParser.df jp) v with
        | Some e => Fail e
        | None =>
          Ok (jobParser.onJob
                (fun job => Job.withQueries (Job.Queries job ++ [v]) job) jp)
        end |});
  ("query-file",
   {| goini.Kind := goini.MultiOption;
      goini.Parse := fun v jp =>
        let v := inBasedir (jobParser.basedir jp) v in
        attempt qs := readQueriesFromFile (jobParser.df jp) v in
        Ok (jobParser.onJob
              (fun job => Job.withQueries (Job.Queries job ++ qs) job) jp) |});
  ("query-args-file",
   {| goini.Kind := goini.UniqueOption;
      goini.Parse := fun v jp =>
        let v := inBasedir (jobParser.basedir jp) v in
        attempt f := os_Open rt v in
        Ok (jobParser.withQueryArgsFile (Some f) jp) |});
  ("query-args-delim",
   {| goini.Kind := goini.UniqueOption;
      goini.Parse := fun v jp =>
        attempt s := strconv_Unquote rt v in
        if negb (String.length s =? 1)%nat
        then Fail (New "Must provide exactly one character for delimiter")
        else Ok (jobParser.withQueryArgsDelim
                   (fst (utf8.DecodeRuneInString s)) jp) |});
  ("query-results-file",
   {| goini.Kind := goini.UniqueOption;
      goini.Parse := fun v jp =>
        let v := inBasedir (jobParser.basedir jp) v in
        attempt w := NewSafeCSVWriter rt v in
        Ok (jobParser.onJob (Job.withQueryResults (Some w)) jp) |});
  ("rate",
   {| goini.Kind := goini.UniqueOption;
      goini.Parse := fun v jp =>
        attempt r := strconv_ParseFloat rt v in
        if SFltb r zero64
        then Fail (New "invalid negative value for rate")
        else Ok (jobParser.onJob (Job.withRate r) jp) |});
  ("batch-size",
   {| goini.Kind := goini.UniqueOption;
      goini.Parse := fun v jp =>
        attempt n := strconv_ParseUint rt v in
        Ok (jobParser.onJob (Job.withBatchSize n) jp) |});
  ("queue-depth",
   {| goini.Kind := goini.UniqueOption;
      goini.Parse := fun v jp =>
        attempt n := strconv_ParseUint rt v in
        Ok (jobParser.onJob (Job.withQueueDepth n) jp) |});
  ("concurrency",
   {| goini.Kind := goini.UniqueOption;
      goini.Parse := fun v jp =>
        attempt n := strconv_ParseUint rt v in
        Ok (jobParser.onJob (Job.withQueueDepth n) jp) |});
  ("count",
   {| goini.Kind := goini.UniqueOption;
      goini.Parse := fun v jp =>
        attempt n := strconv_ParseUint rt v in
        Ok (jobParser.onJob (Job.withCount n) jp) |});
  ("multi-query-mode",
   {| goini.Kind := goini.UniqueOption;
      goini.Parse := fun v jp =>
        if String.eqb v "multi-connection"
        then Ok (jobParser.withMultiQueryAllowed true jp)
        else Fail (New ("invalid value for multi-query-mode: "
                          +:+ strconv_Quote rt v)) |});
  ("query-log-file",
   {| goini.Kind := goini.UniqueOption;
      goini.Parse := fun v jp =>
        let v := inBasedir (jobParser.basedir jp) v in
        attempt f := os_Open rt v in
        Ok (jobParser.onJob (Job.withQueryLog (Some f)) jp) |})
].

Definition decodeJobSection (df : DatabaseFlavor) (section : goini.RawSection)
    (basedir : string) (job : Job.t) : result Job.t :=
  attempt jp := goini.Decode (goini_errors rt) jobOptions section (jobParser.make job df basedir) in
  let job := jobParser.j jp in
  if (length (Job.Queries job) =? 0)%nat && isNil (Job.QueryLog job)
  then Fail (New "no query provided")
  else if (0 <? length (Job.Queries job))%nat && negb (isNil (Job.QueryLog job))
  then Fail (New "cannot have both queries and a query log")
  else if (1 <? length (Job.Queries job))%nat && negb (jobParser.multiQueryAllowed jp)
  then Fail (New "must have only one query")
  else if SFeqb (Job.Rate job) zero64 && (0 <? Job.BatchSize job)%N
  then Fail (New "can only specify batch-size with rate")
  else if negb (jobParser.queryArgsDelim jp =? 0) && isNil (jobParser.queryArgsFile jp)
  then Fail (New "Cannot set query-args-delim with no query-args-file")
  else if negb (isNil (jobParser.queryArgsFile jp)) && negb (isNil (Job.QueryLog job))
  then Fail (New "Cannot use query-args-file with query-log-file")
  else
    let differentJobTypes := 0 in
    let differentJobTypes :=
      if (0 <? Job.QueueDepth job)%N then differentJobTypes + 1
      else differentJobTypes in
    let differentJobTypes :=
      if negb (isNil (Job.QueryLog job)) then differentJobTypes + 1
      else differentJobTypes in
    let differentJobTypes :=
      if SFltb zero64 (Job.Rate job) then differentJobTypes + 1
      else differentJobTypes in
    (* The default job type is 1 thread. *)
    let job :=
      if differentJobTypes =? 0 then Job.withQueueDepth 1 job else job in
    if 1 <? differentJobTypes
    then Fail (New "Can only specify one of rate, queue-depth, or query-log-file")
    else
      let job :=
        if SFltb zero64 (Job.Rate job) && (Job.BatchSize job =? 0)%N
        then Job.withBatchSize 1 job else job in
      let job :=
        match jobParser.queryArgsFile jp with
        | Some f =>
          let reader := csv_NewReader f in
          Job.withQueryArgs
            (Some (if negb (jobParser.queryArgsDelim jp =? 0)
                   then withComma (jobParser.queryArgsDelim jp) reader
                   else reader)) job
        | None => job
        end in
      Ok job.

Definition reservedName (name : string) : bool :=
  String.eqb name "setup" || String.eqb name "teardown"
  || String.eqb name "global".

Definition decodeConfigJobs (df : DatabaseFlavor) (iniConfig : goini.RawConfig)
    (basedir : string) (config : Config.t) : result Config.t :=
  attempt jobs :=
    foldM (fun (jobs : gmap string Job.t) name =>
             (* Do not try to parse a reserved section as a job. *)
             if reservedName name then Ok jobs
             else
               let section := goini.Section iniConfig name in
               match decodeJobSection df section basedir (Job.new name) with
               | Fail err =>
                 Fail (New ("Error parsing job " +:+ strconv_Quote rt name
                              +:+ ": " +:+ Error err))
               | Ok job => Ok (<[name := job]> jobs)
               end)
          (goini.Sections iniConfig) ∅ in
  Ok (Config.withJobs jobs config).

(** *** Job sections, JSON form *)

(** The first half of [validateJobSection]: one block per field of the
    JSON job, each guarded by [isFieldSet]. *)
Definition applyJobOptions (df : DatabaseFlavor) (jobSpec : JobOptions.t)
    (basedir : string) (job : Job.t) : result jobParser.t :=
  let jp := jobParser.make job df basedir in
  let v := ValueOfJobOptions jobSpec in
  attempt jp :=
    (if isFieldSet rt v "Start"
     then attempt d := time_ParseDuration rt (JobOptions.Start jobSpec) in
          Ok (jobParser.onJob (Job.withStart d) jp)
     else Ok jp) in
  attempt jp :=
    (if isFieldSet rt v "Stop"
     then attempt d := time_ParseDuration rt (JobOptions.Stop jobSpec) in
          Ok (jobParser.onJob (Job.withStop d) jp)
     else Ok jp) in
  attempt jp :=
    (if isFieldSet rt v "Queries"
     then foldM (fun jp query =>
                   match CheckQuery df query with
                   | Some err => Fail err
                   | None =>
                     Ok (jobParser.onJob
                           (fun job => Job.withQueries (Job.Queries job ++ [query]) job)
                           jp)
                   end)
                (JobOptions.Queries jobSpec) jp
     else Ok jp) in
  attempt jp :=
    (if isFieldSet rt v "QueryFiles"
     then foldM (fun jp queryFile =>
                   let queryFile := inBasedir basedir queryFile in
                   attempt queries := readQueriesFromFile df queryFile in
                   Ok (jobParser.onJob
                         (fun job => Job.withQueries (Job.Queries job ++ queries) job)
                         jp))
                (JobOptions.QueryFiles jobSpec) jp
     else Ok jp) in
  attempt jp :=
    (if isFieldSet rt v "QueryArgsFile"
     then let queryArgsFile := inBasedir basedir (JobOptions.QueryArgsFile jobSpec) in
          attempt f := os_Open rt queryArgsFile in
          Ok (jobParser.withQueryArgsFile (Some f) jp)
     else Ok jp) in
  attempt jp :=
    (if isFieldSet rt v "QueryArgsDelim"
     then let queryArgsDelim := JobOptions.QueryArgsDelim jobSpec in
          if negb (String.length queryArgsDelim =? 1)%nat
          then Fail (New "Must provide exactly one character for delimiter")
          else Ok (jobParser.withQueryArgsDelim
                     (fst (utf8.DecodeRuneInString queryArgsDelim)) jp)
     else Ok jp) in
  attempt jp :=
    (if isFieldSet rt v "QueryResultsFile"
     then let queryResultsFile :=
            inBasedir basedir (JobOptions.QueryResultsFile jobSpec) in
          attempt w := NewSafeCSVWriter rt queryResultsFile in
          Ok (jobParser.onJob (Job.withQueryResults (Some w)) jp)
     else Ok jp) in
  attempt jp :=
    (if isFieldSet rt v "Rate"
     then if SFltb (JobOptions.Rate jobSpec) zero64
          then Fail (New "invalid negative value for rate")
          else Ok (jobParser.onJob (Job.withRate (JobOptions.Rate jobSpec)) jp)
     else Ok jp) in
  let jp :=
    if isFieldSet rt v "BatchSize"
    then jobParser.onJob (Job.withBatchSize (JobOptions.BatchSize jobSpec)) jp
    else jp in
  let jp :=
    if isFieldSet rt v "QueueDepth"
    then jobParser.onJob (Job.withQueueDepth (JobOptions.QueueDepth jobSpec)) jp
    else jp in
  let jp :=
    if isFieldSet rt v "Concurrency"
    then jobParser.onJob (Job.withQueueDepth (JobOptions.Concurrency jobSpec)) jp
    else jp in
  let jp :=
    if isFieldSet rt v "Count"
    then jobParser.onJob (Job.withCount (JobOptions.Count jobSpec)) jp
    else jp in
  let jp :=
    if isFieldSet rt v "MultiQueryMode"
    then jobParser.withMultiQueryAllowed (JobOptions.MultiQueryMode jobSpec) jp
    else jp in
  if isFieldSet rt v "QueryLogFile"
  then let queryLogFile := inBasedir basedir (JobOptions.QueryLogFile jobSpec) in
       attempt f := os_Open rt queryLogFile in
       Ok (jobParser.onJob (Job.withQueryLog (Some f)) jp)
  else Ok jp.

Definition validateJobSection (df : DatabaseFlavor) (jobSpec : JobOptions.t)
    (basedir : string) (job : Job.t) : result Job.t :=
  attempt jp := applyJobOptions df jobSpec basedir job in
  let job := jobParser.j jp in
  if (length (Job.Queries job) =? 0)%nat && isNil (Job.QueryLog job)
  then Fail (New "no query provided")
  else if (0 <? length (Job.Queries job))%nat && negb (isNil (Job.QueryLog job))
  then Fail (New "cannot have both queries and a queryLog")
  else if (1 <? length (Job.Queries job))%nat && negb (jobParser.multiQueryAllowed jp)
  then Fail (New "must have only one query")
  else if SFeqb (Job.Rate job) zero64 && (0 <? Job.BatchSize job)%N
  then Fail (New "can only specify batchSize with rate")
  else if negb (jobParser.queryArgsDelim jp =? 0) && isNil (jobParser.queryArgsFile jp)
  then Fail (New "Cannot set queryArgsDelim with no queryArgsFile")
  else if negb (isNil (jobParser.queryArgsFile jp)) && negb (isNil (Job.QueryLog job))
  then Fail (New "Cannot use queryArgsFile with queryLogFile")
  else
    let differentJobTypes := 0 in
    let differentJobTypes :=
      if (0 <? Job.QueueDepth job)%N then differentJobTypes + 1
      else differentJobTypes in
    let differentJobTypes :=
      if negb (isNil (Job.QueryLog job)) then differentJobTypes + 1
      else differentJobTypes in
    let differentJobTypes :=
      if SFltb zero64 (Job.Rate job) then differentJobTypes + 1
      else differentJobTypes in
    (* The default job type is 1 thread. *)
    attempt job :=
      (if differentJobTypes =? 0 then Ok (Job.withQueueDepth 1 job)
       else if 1 <? differentJobTypes
       then Fail (New "Can only specify one of rate, queue-depth, or query-log-file")
       else Ok job) in
    let job :=
      if SFltb zero64 (Job.Rate job) && (Job.BatchSize job =? 0)%N
      then Job.withBatchSize 1 job else job in
    let job :=
      match jobParser.queryArgsFile jp with
      | Some f =>
        let reader := csv_NewReader f in
        Job.withQueryArgs
          (Some (if negb (jobParser.queryArgsDelim jp =? 0)
                 then withComma (jobParser.queryArgsDelim jp) reader
                 else reader)) job
      | None => job
      end in
    Ok job.

(** The jobs of a JSON document are visited in the order of the map's
    listing; Go leaves that order open, and with it which of several
    failing jobs is the one reported. *)
Definition validateConfigJobs (df : DatabaseFlavor) (jsonConfig : JSONConfig.t)
    (basedir : string) (c : Config.t) : result Config.t :=
  let c := Config.withJobs ∅ c in
  let v := ValueOfJSONConfig jsonConfig in
  if negb (isFieldSet rt v "Jobs") then Ok c
  else
    attempt jobs :=
      foldM (fun (jobs : gmap string Job.t) '(name, jobSpec) =>
               (* Do not try to parse a reserved section as a job. *)
               if reservedName name then Ok jobs
               else
                 match validateJobSection df jobSpec basedir (Job.new name) with
                 | Fail err =>
                   Fail (New ("Error parsing job " +:+ strconv_Quote rt name
                                +:+ ": " +:+ Error err))
                 | Ok job => Ok (<[name := job]> jobs)
                 end)
            (map_to_list (JSONConfig.Jobs jsonConfig)) ∅ in
    Ok (Config.withJobs jobs c).

(** [fmt.Errorf(prefix + "%v", err)] on the failure of a stage. *)
Definition orErrorf {A : Type} (prefix : string) (r : result A) : result A :=
  match r with
  | Ok a => Ok a
  | Fail err => Fail (New (prefix +:+ Error err))
  end.

(** The four stages of [parseIniConfig] that fill the configuration.  The
    loop that follows them, in [parseIniConfig], visits the jobs in the
    order of the map's listing; Go leaves that order open, and with it
    which of several late jobs is the one reported. *)
Definition parseIniSections (df : DatabaseFlavor) (iniConfig : goini.RawConfig)
    (basedir : string) : result Config.t :=
  let config := Config.new df in
  attempt config :=
    orErrorf "Error parsing global section: "
      (decodeGlobalSection df (goini.GlobalSection iniConfig) config) in
  attempt setup :=
    orErrorf "Error parsing setup section: "
      (decodeSetupSection df (goini.Section iniConfig "setup") basedir) in
  let config := Config.withSetup setup config in
  attempt teardown :=
    orErrorf "Error parsing teardown section: "
      (decodeSetupSection df (goini.Section iniConfig "teardown") basedir) in
  let config := Config.withTeardown teardown config in
  decodeConfigJobs df iniConfig basedir config.

Definition parseIniConfig (df : DatabaseFlavor) (iniConfig : goini.RawConfig)
    (basedir : string) : result Config.t :=
  attempt config := parseIniSections df iniConfig basedir in
  attempt _ :=
    foldM (fun (_ : unit) '(name, job) =>
             if (0 <? Config.Duration config)
                && (Config.Duration config <? Job.Start job)
             then Fail (New ("job " +:+ strconv_Quote rt name
                               +:+ " starts after test finishes."))
             else if (0 <? Job.Stop job) && (0 <? Config.Duration config)
                     && (Config.Duration config <? Job.Stop job)
             then Fail (New ("job " +:+ strconv_Quote rt name
                               +:+ " stops after test finishes."))
             else Ok tt)
          (map_to_list (Config.Jobs config)) tt in
  Ok config.

(** The four stages of [parseJSONConfig] that fill the configuration. *)
Definition parseJSONSections (df : DatabaseFlavor) (jsonConfig : JSONConfig.t)
    (basedir : string) : result Config.t :=
  let config := Config.new df in
  attempt config :=
    orErrorf "Error parsing global section: "
      (validateGlobalSection jsonConfig config) in
  attempt setup :=
    orErrorf "Error parsing setup section: "
      (validateReservedSection df jsonConfig basedir "Setup"
         (Config.Setup config)) in
  let config := Config.withSetup setup config in
  attempt teardown :=
    orErrorf "Error parsing teardown section: "
      (validateReservedSection df jsonConfig basedir "Teardown"
         (Config.Teardown config)) in
  let config := Config.withTeardown teardown config in
  validateConfigJobs df jsonConfig basedir config.

Definition parseJSONConfig (df : DatabaseFlavor) (jsonConfig : JSONConfig.t)
    (basedir : string) : result Config.t :=
  attempt config := parseJSONSections df jsonConfig basedir in
  attempt _ :=
    foldM (fun (_ : unit) '(name, job) =>
             if (0 <? Config.Duration config)
                && (Config.Duration config <? Job.Start job)
             then Fail (New ("job " +:+ strconv_Quote rt name
                               +:+ " starts after test finishes."))
             else if (0 <? Job.Stop job) && (0 <? Config.Duration config)
                     && (Config.Duration config <? Job.Stop job)
             then Fail (New ("job " +:+ strconv_Quote rt name
                               +:+ " stops after test finishes."))
             else Ok tt)
          (map_to_list (Config.Jobs config)) tt in
  Ok config.

Definition parseConfig (df : DatabaseFlavor) (configFile : string)
    (baseDir : string) : result Config.t :=
  if isJSONFile rt configFile
  then
    attempt fileContent := ioutil_ReadFile rt configFile in
    attempt jsonConfig := json_Unmarshal rt fileContent in
    parseJSONConfig df jsonConfig baseDir
  else
    attempt iniConfig := goini_ParseFile rt configFile in
    parseIniConfig df iniConfig baseDir.

End Decoder.

(** ** [dbbench.go]: the test runner

    [runTest] is followed through the calls it makes on the outside world:
    queries sent to the database, lines logged, the drivers run, the
    statistics file written.  A run yields the list of these events, in
    order, and how it ended: [log.Fatalf] logs and then exits the process
    with status 1, so nothing follows a [LogFatalf] event. *)
Module Runner.

Inductive phase : Type := SetupPhase | TeardownPhase.

Inductive event (JobStats : Type) : Type :=
| LogPrintf (msg : string)
| RunQuery (ph : phase) (query : string)
| RunJobs
| LogStats (name : string) (stats : JobStats)
| Chdir (dir : string)
| CreateFile (name : string)
| EncodeStats (testStats : gmap string JobStats)
| LogFatalf (msg : string).
Arguments LogPrintf {JobStats} msg.
Arguments RunQuery {JobStats} ph query.
Arguments RunJobs {JobStats}.
Arguments LogStats {JobStats} name stats.
Arguments Chdir {JobStats} dir.
Arguments CreateFile {JobStats} name.
Arguments EncodeStats {JobStats} testStats.
Arguments LogFatalf {JobStats} msg.

Inductive outcome : Type :=
| Returned
| Exited (status : Z).

(** Modelled from the spec: the [Database] interface, [JobStats],
    [processResults], [makeJobResultChan] and [getJobsSummary] are
    declared in files of the repository other than the two embedded here.
    The database exposes [RunQuery(ctx, text, args)], which returns a row
    count and an error: [db_RunQuery] gives the error and the state of the
    database after the query, [DB] being that state.  [drivers] stands for
    [processResults(config, makeJobResultChan(ctx, db, df, config.Jobs))],
    which returns the statistics of each job once every driver has
    returned.  The last three fields are the name given with [-json] and
    the answers of the file system and of the JSON encoder. *)
Record World (DB JobStats : Type) : Type := {
  db_RunQuery : DB -> string -> option error * DB;
  drivers : DB -> Config.t -> gmap string JobStats * DB;
  JsonOutputFile : string;
  os_Create : string -> option error;
  encoder_Encode : gmap string JobStats -> option error
}.
Arguments db_RunQuery {DB JobStats} _ _ _.
Arguments drivers {DB JobStats} _ _ _.
Arguments JsonOutputFile {DB JobStats} _.
Arguments os_Create {DB JobStats} _ _.
Arguments encoder_Encode {DB JobStats} _ _.

Section Run.

Context {DB JobStats : Type}.
Variable rt : Runtime.
Variable w : World DB JobStats.

Local Abbreviation trace := (list (event JobStats)).

(** The loop over [config.Setup]; [None] when the process has exited. *)
Fixpoint setupLoop (db : DB) (queries : list string) : trace * option DB :=
  match queries with
  | [] => ([], Some db)
  | query :: rest =>
    match db_RunQuery w db query with
    | (Some err, _) =>
      ([RunQuery SetupPhase query;
        LogFatalf ("error in setup query " +:+ strconv_Quote rt query
                     +:+ ": " +:+ Error rt err)], None)
    | (None, db') =>
      let '(tr, r) := setupLoop db' rest in
      (RunQuery SetupPhase query :: tr, r)
    end
  end.

(** The loop over [config.Teardown]. *)
Fixpoint teardownLoop (db : DB) (queries : list string) : trace * option DB :=
  match queries with
  | [] => ([], Some db)
  | query :: rest =>
    match db_RunQuery w db query with
    | (Some err, _) =>
      ([RunQuery TeardownPhase query;
        LogFatalf ("error in teardown query " +:+ strconv_Quote rt query
                     +:+ ": " +:+ Error rt err)], None)
    | (None, db') =>
      let '(tr, r) := teardownLoop db' rest in
      (RunQuery TeardownPhase query :: tr, r)
    end
  end.

(** [true] when the function returned, [false] when it exited. *)
Definition writeStatsToFile (testStats : gmap string JobStats) : trace * bool :=
  let name := JsonOutputFile w +:+ ".json" in
  match os_Create w name with
  | Some err =>
    ([Chdir ".."; CreateFile name;
      LogFatalf ("creating output file " +:+ Error rt err)], false)
  | None =>
    match encoder_Encode w testStats with
    | Some err =>
      ([Chdir ".."; CreateFile name; EncodeStats testStats;
        LogFatalf ("writting output to file " +:+ Error rt err)], false)
    | None => ([Chdir ".."; CreateFile name; EncodeStats testStats], true)
    end
  end.

Definition runTest (db : DB) (df : DatabaseFlavor) (config : Config.t)
  : trace * outcome :=
  let '(tr1, r1) :=
    if (0 <? length (Config.Setup config))%nat
    then let '(tr, r) := setupLoop db (Config.Setup config) in
         (LogPrintf "Performing setup" :: tr, r)
    else ([], Some db) in
  match r1 with
  | None => (tr1, Exited 1)
  | Some db =>
    let '(testStats, db) := drivers w db config in
    let tr2 :=
      RunJobs :: map (fun '(name, stats) => LogStats name stats)
                     (map_to_list testStats) in
    let '(tr3, r3) :=
      if (0 <? String.length (JsonOutputFile w))%nat
      then writeStatsToFile testStats
      else ([], true) in
    if negb r3 then (tr1 ++ tr2 ++ tr3, Exited 1)
    else
      let '(tr4, r4) :=
        if (0 <? length (Config.Teardown config))%nat
        then let '(tr, r) := teardownLoop db (Config.Teardown config) in
             (LogPrintf "Performing teardown" :: tr, r)
        else ([], Some db) in
      match r4 with
      | None => (tr1 ++ tr2 ++ tr3 ++ tr4, Exited 1)
      | Some _ => (tr1 ++ tr2 ++ tr3 ++ tr4, Returned)
      end
  end.

End Run.

End Runner.

(** ** [dbbench.go]: [main]

    [main] is followed from the point where [flag.Parse] has returned,
    through the calls it makes on the outside world; the events of
    [runTest] are those of the run it starts.  A [log.Fatal] logs and then
    exits the process with status 1, so the call of [db.Close] that [main]
    defers is made only when [runTest] returns. *)
Module Main.

(** The values of the flags [-driver], [-base-dir] and [-version], the
    connection settings filled by the other flags, and the arguments that
    follow the flags. *)
Record Flags (ConnectionConfig : Type) : Type := {
  driverName : string;
  baseDir : string;
  printVersion : bool;
  GlobalConfig : ConnectionConfig;
  Args : list string
}.
Arguments driverName {ConnectionConfig} _.
Arguments baseDir {ConnectionConfig} _.
Arguments printVersion {ConnectionConfig} _.
Arguments GlobalConfig {ConnectionConfig} _.
Arguments Args {ConnectionConfig} _.

Inductive event (JobStats : Type) : Type :=
| Println (line : string)
| Usage
| LogFatal (msg : string)
| Connect
| Chdir (dir : string)
| Test (e : Runner.event JobStats)
| Close.
Arguments Println {JobStats} line.
Arguments Usage {JobStats}.
Arguments LogFatal {JobStats} msg.
Arguments Connect {JobStats}.
Arguments Chdir {JobStats} dir.
Arguments Test {JobStats} e.
Arguments Close {JobStats}.

(** Modelled from the spec: [supportedDatabaseFlavors], the [Connect]
    method of a flavor and [ConnectionConfig] are declared in files of the
    repository other than the two embedded here.  The specification lists
    [Connect(conn)], which gives a Database, among the methods of a
    flavor, and [Close()] among those of a Database; the flavors are
    found by the name of their driver.  [filepath_Dir] is
    [filepath.Dir]. *)
Record World (DB JobStats ConnectionConfig : Type) : Type := {
  supportedDatabaseFlavors : gmap string DatabaseFlavor;
  flavor_Connect : DatabaseFlavor -> ConnectionConfig -> result DB;
  filepath_Dir : string -> string;
  runner : Runner.World DB JobStats
}.
Arguments supportedDatabaseFlavors {DB JobStats ConnectionConfig} _.
Arguments flavor_Connect {DB JobStats ConnectionConfig} _ _ _.
Arguments filepath_Dir {DB JobStats ConnectionConfig} _ _.
Arguments runner {DB JobStats ConnectionConfig} _.

Section Program.

Context {DB JobStats ConnectionConfig : Type}.
Variable rt : Runtime.
Variable w : World DB JobStats ConnectionConfig.

(** [*baseDir] once [main] has given it its default. *)
Definition baseDirOf (flags : Flags ConnectionConfig) : string :=
  if String.eqb (baseDir flags) EmptyString
  then filepath_Dir w (nth 0 (Args flags) EmptyString)
  else baseDir flags.

Definition main (flags : Flags ConnectionConfig)
  : list (event JobStats) * Runner.outcome :=
  if printVersion flags then ([Println "0.4"], Runner.Returned)
  else if (length (Args flags) =? 0)%nat
  then ([Usage; LogFatal "No config file to parse"], Runner.Exited 1)
  else if (1 <? length (Args flags))%nat
  then ([Usage;
         LogFatal "Cannot have more than one config file (do you have flags after the config file??)"],
        Runner.Exited 1)
  else
    let configFile := nth 0 (Args flags) EmptyString in
    let baseDir := baseDirOf flags in
    match supportedDatabaseFlavors w !! driverName flags with
    | None =>
      ([LogFatal ("Database flavor " +:+ driverName flags
                    +:+ " not supported")], Runner.Exited 1)
    | Some flavor =>
      match parseConfig rt flavor configFile baseDir with
      | Fail err =>
        ([LogFatal ("parsing config file " +:+ Error rt err)],
         Runner.Exited 1)
      | Ok config =>
        match flavor_Connect w flavor (GlobalConfig flags) with
        | Fail err =>
          ([Connect;
            LogFatal ("Error connecting to the database: " +:+ Error rt err)],
           Runner.Exited 1)
        | Ok db =>
          let '(tr, outcome) := Runner.runTest rt (runner w) db flavor config in
          (Connect :: Chdir baseDir :: map Test tr
             ++ match outcome with
                | Runner.Returned => [Close]
                | Runner.Exited _ => []
                end,
           outcome)
        end
      end
    end.

End Program.

End Main.

(** ** A small world for the examples

    One runtime and one flavor on which the decoder can be run.  Each
    function below answers as Go does on the inputs the examples use (the
    durations, numbers and files listed here); on any other input it
    reports an error, where Go may accept more. *)
Module Sample.

Definition dq : string := String (ascii_of_nat 34) EmptyString.

Definition second : Z := 1000000000.

Definition lookup {A : Type} (table : list (string * A)) (key : string)
  : option A :=
  snd <$> List.find (fun kv => String.eqb (fst kv) key) table.

Definition quote (v : string) : string := dq +:+ v +:+ dq.

Definition orFail {A : Type} (msg : string) (o : option A) : result A :=
  match o with Some a => Ok a | None => Fail (New msg) end.

Definition ParseDuration (v : string) : result Z :=
  orFail ("time: invalid duration " +:+ quote v)
    (lookup [("0s", 0); ("1s", second); ("2s", 2 * second);
             ("4s", 4 * second); ("5s", 5 * second); ("10s", 10 * second);
             ("-1s", - second)] v).

(** [10], [1], [-1] and [NaN] as binary64 data. *)
Definition ten : float64 := S754_finite false 5629499534213120 (-49).
Definition one : float64 := S754_finite false 4503599627370496 (-52).
Definition minusOne : float64 := S754_finite true 4503599627370496 (-52).

Definition ParseFloat (v : string) : result float64 :=
  orFail ("strconv.ParseFloat: parsing " +:+ quote v +:+ ": invalid syntax")
    (lookup [("0", zero64); ("1", one); ("10", ten); ("-1", minusOne);
             ("NaN", S754_nan)] v).

Definition digit (a : ascii) : option N :=
  let n := N_of_ascii a in
  if ((48 <=? n) && (n <=? 57))%N then Some (n - 48)%N else None.

Fixpoint digits (s : string) (acc : N) : option N :=
  match s with
  | EmptyString => Some acc
  | String a rest =>
    match digit a with
    | Some d => digits rest (10 * acc + d)%N
    | None => None
    end
  end.

(** [strconv.ParseUint(v, 10, 0)] on a 64-bit platform. *)
Definition ParseUint (v : string) : result N :=
  match v with
  | EmptyString =>
    Fail (New ("strconv.ParseUint: parsing " +:+ quote v +:+ ": invalid syntax"))
  | _ =>
    match digits v 0%N with
    | None =>
      Fail (New ("strconv.ParseUint: parsing " +:+ quote v +:+ ": invalid syntax"))
    | Some n =>
      if (n <? 2 ^ 64)%N then Ok n
      else Fail (New ("strconv.ParseUint: parsing " +:+ quote v
                        +:+ ": value out of range"))
    end
  end.

Definition plain (a : ascii) : bool :=
  let n := N_of_ascii a in
  negb ((n =? 34) || (n =? 92) || (n =? 10))%N.

Fixpoint allPlain (s : string) : bool :=
  match s with
  | EmptyString => true
  | String a rest => plain a && allPlain rest
  end.

(** Double-quoted literals without escapes. *)
Definition Unquote (v : string) : result string :=
  let n := String.length v in
  let inner := strings.take (n - 2) (strings.drop 1 v) in
  if (2 <=? n)%nat && String.prefix dq v
     && String.eqb (strings.drop (n - 1) v) dq && allPlain inner
  then Ok inner
  else Fail (New "invalid syntax").

Definition files : list (string * string) :=
  [("/bench/queries.sql", "select 1; ;select 2");
   ("/bench/broken.sql", "select 1;use db;select 2");
   ("/bench/args.csv", "1,2");
   ("/bench/replay.log", "0,select 1")].

Definition Open (path : string) : result File :=
  match lookup files path with
  | Some _ => Ok (FileAt path)
  | None => Fail (New ("open " +:+ path +:+ ": no such file or directory"))
  end.

Definition ReadAll (f : File) : result string :=
  match f with
  | FileAt path => orFail ("read " +:+ path +:+ ": file already closed")
                     (lookup files path)
  end.

Definition positiveZero (r : float64) : bool :=
  match r with S754_zero false => true | _ => false end.

(** A field counts as set when it does not hold the zero value of its
    type. *)
Definition fieldSet (v : Value) (name : string) : bool :=
  match v with
  | ValueOfJobOptions o =>
    if String.eqb name "Start" then negb (String.eqb (JobOptions.Start o) EmptyString)
    else if String.eqb name "Stop" then negb (String.eqb (JobOptions.Stop o) EmptyString)
    else if String.eqb name "Queries" then negb (isNil (head (JobOptions.Queries o)))
    else if String.eqb name "QueryFiles" then negb (isNil (head (JobOptions.QueryFiles o)))
    else if String.eqb name "QueryArgsFile"
    then negb (String.eqb (JobOptions.QueryArgsFile o) EmptyString)
    else if String.eqb name "QueryArgsDelim"
    then negb (String.eqb (JobOptions.QueryArgsDelim o) EmptyString)
    else if String.eqb name "QueryResultsFile"
    then negb (String.eqb (JobOptions.QueryResultsFile o) EmptyString)
    else if String.eqb name "Rate" then negb (positiveZero (JobOptions.Rate o))
    else if String.eqb name "BatchSize" then negb (JobOptions.BatchSize o =? 0)%N
    else if String.eqb name "QueueDepth" then negb (JobOptions.QueueDepth o =? 0)%N
    else if String.eqb name "Concurrency" then negb (JobOptions.Concurrency o =? 0)%N
    else if String.eqb name "Count" then negb (JobOptions.Count o =? 0)%N
    else if String.eqb name "MultiQueryMode" then JobOptions.MultiQueryMode o
    else if String.eqb name "QueryLogFile"
    then negb (String.eqb (JobOptions.QueryLogFile o) EmptyString)
    else false
  | ValueOfReserved o =>
    if String.eqb name "Queries"
    then negb (isNil (head (ReservedSectionOptions.Queries o)))
    else if String.eqb name "QueryFiles"
    then negb (isNil (head (ReservedSectionOptions.QueryFiles o)))
    else false
  | ValueOfJSONConfig c =>
    if String.eqb name "Duration"
    then negb (String.eqb (JSONConfig.Duration c) EmptyString)
    else if String.eqb name "Errors" then negb (isNil (head (JSONConfig.Errors c)))
    else if String.eqb name "Setup"
    then negb (isNil (head (ReservedSectionOptions.Queries (JSONConfig.Setup c)))
               && isNil (head (ReservedSectionOptions.QueryFiles (JSONConfig.Setup c))))
    else if String.eqb name "Teardown"
    then negb (isNil (head (ReservedSectionOptions.Queries (JSONConfig.Teardown c)))
               && isNil (head (ReservedSectionOptions.QueryFiles (JSONConfig.Teardown c))))
    else if String.eqb name "Jobs"
    then negb (bool_decide (JSONConfig.Jobs c = ∅))
    else false
  end.

(** A raw configuration from its global section and its job sections. *)
Definition iniConfig (global : goini.RawSection)
    (sections : list (string * goini.RawSection)) : goini.RawConfig :=
  {| goini.GlobalSection := global;
     goini.Sections := map fst sections;
     goini.Section := fun name => default [] (lookup sections name) |}.

(** Five seconds of test; one job starts a second before the test, the
    other stops a second before it starts. *)
Definition oddOffsets : goini.RawConfig :=
  iniConfig [("duration", "5s")]
    [("early", [("query", "select 1"); ("start", "-1s")]);
     ("backwards", [("query", "select 1"); ("start", "2s"); ("stop", "1s")])].

(** Five seconds of test, and a job that starts after ten. *)
Definition lateStart : goini.RawConfig :=
  iniConfig [("duration", "5s")]
    [("late", [("query", "select 1"); ("start", "10s")])].

Definition jsonJob (start stop : string) : JobOptions.t :=
  {| JobOptions.Start := start; JobOptions.Stop := stop;
     JobOptions.Queries := ["select 1"]; JobOptions.QueryFiles := [];
     JobOptions.QueryArgsFile := EmptyString;
     JobOptions.QueryArgsDelim := EmptyString;
     JobOptions.QueryResultsFile := EmptyString;
     JobOptions.Rate := zero64; JobOptions.BatchSize := 0;
     JobOptions.QueueDepth := 0; JobOptions.Concurrency := 0;
     JobOptions.Count := 0; JobOptions.MultiQueryMode := false;
     JobOptions.QueryLogFile := EmptyString |}.

Definition noQueries : ReservedSectionOptions.t :=
  {| ReservedSectionOptions.Queries := [];
     ReservedSectionOptions.QueryFiles := [] |}.

(** [oddOffsets] as a JSON document. *)
Definition oddOffsetsJSON : JSONConfig.t :=
  {| JSONConfig.Duration := "5s"; JSONConfig.Errors := [];
     JSONConfig.Setup := noQueries; JSONConfig.Teardown := noQueries;
     JSONConfig.Jobs :=
       {[ "early" := jsonJob "-1s" EmptyString;
          "backwards" := jsonJob "2s" "1s" ]} |}.

Definition iniFiles : list (string * goini.RawConfig) :=
  [("/bench/odd.ini", oddOffsets); ("/bench/late.ini", lateStart)].

(** The text of a JSON file stands for the document it holds. *)
Definition jsonFiles : list (string * string) :=
  [("/bench/odd.json", "oddOffsets")].

Definition jsonDocuments : list (string * JSONConfig.t) :=
  [("oddOffsets", oddOffsetsJSON)].

Definition noConfig (path : string) : string :=
  "open " +:+ path +:+ ": no such file or directory".

Definition hasSuffix (suffix s : string) : bool :=
  String.eqb (strings.drop (String.length s - String.length suffix) s) suffix.

Definition runtime : Runtime := {|
  time_ParseDuration := ParseDuration;
  strconv_ParseFloat := ParseFloat;
  strconv_ParseUint := ParseUint;
  strconv_Unquote := Unquote;
  strconv_Quote := quote;
  filepath_IsAbs := String.prefix "/";
  filepath_Join := fun dir v => dir +:+ "/" +:+ v;
  os_Open := Open;
  ioutil_ReadAll := ReadAll;
  NewSafeCSVWriter := fun path => Ok (WriterAt path);
  isFieldSet := fieldSet;
  EmptyQueryText := "cannot use empty query";
  goini_errors :=
    {| goini.UnknownOption := fun key => New ("unknown option " +:+ quote key);
       goini.RepeatedOption := fun key => New ("repeated option " +:+ quote key) |};
  isJSONFile := hasSuffix ".json";
  ioutil_ReadFile := fun path => orFail (noConfig path) (lookup jsonFiles path);
  json_Unmarshal := fun text =>
    orFail "unexpected end of JSON input" (lookup jsonDocuments text);
  goini_ParseFile := fun path => orFail (noConfig path) (lookup iniFiles path)
|}.

Definition blank (a : ascii) : bool :=
  let n := N_of_ascii a in ((n =? 32) || (n =? 9) || (n =? 10) || (n =? 13))%N.

Fixpoint allBlank (s : string) : bool :=
  match s with
  | EmptyString => true
  | String a rest => blank a && allBlank rest
  end.

(** A flavor that separates queries with a semicolon, calls a blank query
    empty and refuses [use]. *)
Definition flavor : DatabaseFlavor := {|
  QuerySeparator := ";";
  CheckQuery := fun q =>
    if allBlank q then Some EmptyQueryError
    else if String.prefix "use " q
    then Some (New "cannot use queries that alter the connection")
    else None
|}.

End Sample.

(** A database that knows no table called [missing], drivers that report
    three queries for the job [smoke], and no statistics file. *)
Module SampleRun.

Definition RunQuery (db : list string) (query : string)
  : option error * list string :=
  if String.eqb query "drop table missing"
  then (Some (New "table does not exist"), db)
  else (None, db ++ [query]).

Definition world : Runner.World (list string) N := {|
  Runner.db_RunQuery := RunQuery;
  Runner.drivers := fun db _ => ({[ "smoke" := 3%N ]}, db);
  Runner.JsonOutputFile := EmptyString;
  Runner.os_Create := fun _ => None;
  Runner.encoder_Encode := fun _ => None
|}.

Definition config (setup teardown : list string) : Config.t :=
  Config.withTeardown teardown
    (Config.withSetup setup (Config.new Sample.flavor)).

End SampleRun.

(** A run whose statistics go to [out.json], in a directory where no
    file can be created. *)
Definition readOnlyWorld : Runner.World (list string) N := {|
  Runner.db_RunQuery := SampleRun.RunQuery;
  Runner.drivers := fun db _ => ({[ "smoke" := 3%N ]}, db);
  Runner.JsonOutputFile := "out";
  Runner.os_Create := fun name =>
    Some (New ("open " +:+ name +:+ ": permission denied"));
  Runner.encoder_Encode := fun _ => None
|}.

(** The flags of [dbbench -driver mysql run.ini] and a world in which
    [mysql] is the sample flavor and every connection succeeds. *)
Definition sampleFlags (args : list string) : Main.Flags unit :=
  {| Main.driverName := "mysql"; Main.baseDir := EmptyString;
     Main.printVersion := false; Main.GlobalConfig := tt;
     Main.Args := args |}.

Definition sampleMainWorld : Main.World (list string) N unit := {|
  Main.supportedDatabaseFlavors := {[ "mysql" := Sample.flavor ]};
  Main.flavor_Connect := fun _ _ => Ok [];
  Main.filepath_Dir := fun _ => "/bench";
  Main.runner := SampleRun.world
|}.

(** Two run files: one that creates a table, runs a job and drops the
    table, and one whose setup drops a table that does not exist. *)
Definition runIni : goini.RawConfig :=
  Sample.iniConfig [("duration", "5s")]
    [("setup", [("query", "create table t")]);
     ("teardown", [("query", "drop table t")]);
     ("smoke", [("query", "select 1")])].

Definition brokenIni : goini.RawConfig :=
  Sample.iniConfig []
    [("setup", [("query", "drop table missing")]);
     ("teardown", [("query", "drop table t")]);
     ("smoke", [("query", "select 1")])].

(** The sample runtime, with these two files beside the others. *)
Definition benchRuntime : Runtime := {|
  time_ParseDuration := time_ParseDuration Sample.runtime;
  strconv_ParseFloat := strconv_ParseFloat Sample.runtime;
  strconv_ParseUint := strconv_ParseUint Sample.runtime;
  strconv_Unquote := strconv_Unquote Sample.runtime;
  strconv_Quote := strconv_Quote Sample.runtime;
  filepath_IsAbs := filepath_IsAbs Sample.runtime;
  filepath_Join := filepath_Join Sample.runtime;
  os_Open := os_Open Sample.runtime;
  ioutil_ReadAll := ioutil_ReadAll Sample.runtime;
  NewSafeCSVWriter := NewSafeCSVWriter Sample.runtime;
  isFieldSet := isFieldSet Sample.runtime;
  EmptyQueryText := EmptyQueryText Sample.runtime;
  goini_errors := goini_errors Sample.runtime;
  isJSONFile := isJSONFile Sample.runtime;
  ioutil_ReadFile := ioutil_ReadFile Sample.runtime;
  json_Unmarshal := json_Unmarshal Sample.runtime;
  goini_ParseFile := fun path =>
    if String.eqb path "/bench/run.ini" then Ok runIni
    else if String.eqb path "/bench/broken.ini" then Ok brokenIni
    else goini_ParseFile Sample.runtime path
|}.

(** * The vocabulary of the properties

    The definitions the statements below are written with: predicates
    on the values of the program, the runs and sections the examples are
    about, and [checkJob], the checks of a job section read once for both
    syntaxes. *)

(** ** Segments of a query file *)

Section Segments.

Variable df : DatabaseFlavor.

(** What [CheckQuery] can say of a segment: nil, [EmptyQueryError], or
    another error. *)
Definition kept (q : string) : bool := isNil (CheckQuery df q).

Definition benign (q : string) : Prop :=
  CheckQuery df q = None \/ CheckQuery df q = Some EmptyQueryError.

Definition offending (q : string) (err : error) : Prop :=
  CheckQuery df q = Some err /\ err <> EmptyQueryError.

End Segments.

(** ** The checks that follow the reading of a job

    Both [decodeJobSection] and [validateJobSection] read the fields of a
    job into a [jobParser] and then run the same sequence of checks, each
    written out in its own function and with its own wording.  [checkJob]
    is that sequence once, with the wording as a parameter. *)

Record wording : Type := {
  queriesAndLog : string;
  batchWithoutRate : string;
  delimWithoutArgs : string;
  argsWithLog : string
}.

Definition iniWording : wording := {|
  queriesAndLog := "cannot have both queries and a query log";
  batchWithoutRate := "can only specify batch-size with rate";
  delimWithoutArgs := "Cannot set query-args-delim with no query-args-file";
  argsWithLog := "Cannot use query-args-file with query-log-file"
|}.

Definition jsonWording : wording := {|
  queriesAndLog := "cannot have both queries and a queryLog";
  batchWithoutRate := "can only specify batchSize with rate";
  delimWithoutArgs := "Cannot set queryArgsDelim with no queryArgsFile";
  argsWithLog := "Cannot use queryArgsFile with queryLogFile"
|}.

Definition oneJobType : string :=
  "Can only specify one of rate, queue-depth, or query-log-file".

(** The first of the six checks before the count of job types that the
    job fails, if any. *)
Definition violation (w : wording) (jp : jobParser.t) : option error :=
  let job := jobParser.j jp in
  if (length (Job.Queries job) =? 0)%nat && isNil (Job.QueryLog job)
  then Some (New "no query provided")
  else if (0 <? length (Job.Queries job))%nat && negb (isNil (Job.QueryLog job))
  then Some (New (queriesAndLog w))
  else if (1 <? length (Job.Queries job))%nat && negb (jobParser.multiQueryAllowed jp)
  then Some (New "must have only one query")
  else if SFeqb (Job.Rate job) zero64 && (0 <? Job.BatchSize job)%N
  then Some (New (batchWithoutRate w))
  else if negb (jobParser.queryArgsDelim jp =? 0) && isNil (jobParser.queryArgsFile jp)
  then Some (New (delimWithoutArgs w))
  else if negb (isNil (jobParser.queryArgsFile jp)) && negb (isNil (Job.QueryLog job))
  then Some (New (argsWithLog w))
  else None.

(** The job handed back when every check has passed: one thread when no
    mode was chosen, a batch of one for a rate without batch size, and the
    reader of the arguments file. *)
Definition finishJob (jp : jobParser.t) : Job.t :=
  let job := jobParser.j jp in
  let job := if jobTypes job =? 0 then Job.withQueueDepth 1 job else job in
  let job :=
    if SFltb zero64 (Job.Rate job) && (Job.BatchSize job =? 0)%N
    then Job.withBatchSize 1 job else job in
  match jobParser.queryArgsFile jp with
  | Some f =>
    Job.withQueryArgs
      (Some (if negb (jobParser.queryArgsDelim jp =? 0)
             then withComma (jobParser.queryArgsDelim jp) (csv_NewReader f)
             else csv_NewReader f)) job
  | None => job
  end.

Definition checkJob (w : wording) (jp : jobParser.t) : result Job.t :=
  match violation w jp with
  | Some err => Fail err
  | None =>
    if 1 <? jobTypes (jobParser.j jp) then Fail (New oneJobType)
    else Ok (finishJob jp)
  end.

(** ** Jobs and sections of the examples *)

(** [o] with another value for [queueDepth]. *)
Definition withQueueDepthField (q : N) (o : JobOptions.t) : JobOptions.t :=
  {| JobOptions.Start := JobOptions.Start o;
     JobOptions.Stop := JobOptions.Stop o;
     JobOptions.Queries := JobOptions.Queries o;
     JobOptions.QueryFiles := JobOptions.QueryFiles o;
     JobOptions.QueryArgsFile := JobOptions.QueryArgsFile o;
     JobOptions.QueryArgsDelim := JobOptions.QueryArgsDelim o;
     JobOptions.QueryResultsFile := JobOptions.QueryResultsFile o;
     JobOptions.Rate := JobOptions.Rate o;
     JobOptions.BatchSize := JobOptions.BatchSize o;
     JobOptions.QueueDepth := q;
     JobOptions.Concurrency := JobOptions.Concurrency o;
     JobOptions.Count := JobOptions.Count o;
     JobOptions.MultiQueryMode := JobOptions.MultiQueryMode o;
     JobOptions.QueryLogFile := JobOptions.QueryLogFile o |}.

(** One query, [queueDepth] 3 and [concurrency] 2. *)
Definition bothDepths : JobOptions.t :=
  {| JobOptions.Start := EmptyString; JobOptions.Stop := EmptyString;
     JobOptions.Queries := ["select 1"]; JobOptions.QueryFiles := [];
     JobOptions.QueryArgsFile := EmptyString;
     JobOptions.QueryArgsDelim := EmptyString;
     JobOptions.QueryResultsFile := EmptyString;
     JobOptions.Rate := zero64; JobOptions.BatchSize := 0;
     JobOptions.QueueDepth := 3; JobOptions.Concurrency := 2;
     JobOptions.Count := 0; JobOptions.MultiQueryMode := false;
     JobOptions.QueryLogFile := EmptyString |}.

Definition oneCharacter : string :=
  "Must provide exactly one character for delimiter".

(** The euro sign, U+20AC: three bytes in UTF-8. *)
Definition euro : string := utf8.EncodeRune 8364.

(** Every block of the JSON validator that comes before the delimiter
    goes through. *)
Definition readsBeforeDelim (rt : Runtime) (df : DatabaseFlavor)
    (jobSpec : JobOptions.t) (basedir : string) : Prop :=
  let set := isFieldSet rt (ValueOfJobOptions jobSpec) in
  (set "Start" = true ->
   isOk (time_ParseDuration rt (JobOptions.Start jobSpec)) = true)
  /\ (set "Stop" = true ->
      isOk (time_ParseDuration rt (JobOptions.Stop jobSpec)) = true)
  /\ (set "Queries" = true ->
      Forall (fun q => CheckQuery df q = None) (JobOptions.Queries jobSpec))
  /\ (set "QueryFiles" = true ->
      Forall (fun f => isOk (readQueriesFromFile rt df (inBasedir rt basedir f))
                       = true)
             (JobOptions.QueryFiles jobSpec))
  /\ (set "QueryArgsFile" = true ->
      isOk (os_Open rt (inBasedir rt basedir (JobOptions.QueryArgsFile jobSpec)))
      = true).

(** One query with its arguments file, delimited by the euro sign. *)
Definition euroDelimited : JobOptions.t :=
  {| JobOptions.Start := EmptyString; JobOptions.Stop := EmptyString;
     JobOptions.Queries := ["select 1"]; JobOptions.QueryFiles := [];
     JobOptions.QueryArgsFile := "args.csv";
     JobOptions.QueryArgsDelim := euro;
     JobOptions.QueryResultsFile := EmptyString;
     JobOptions.Rate := zero64; JobOptions.BatchSize := 0;
     JobOptions.QueueDepth := 0; JobOptions.Concurrency := 0;
     JobOptions.Count := 0; JobOptions.MultiQueryMode := false;
     JobOptions.QueryLogFile := EmptyString |}.

(** ** Runs *)

Section Runs.

Context {DB JobStats : Type}.
Variable rt : Runtime.
Variable w : Runner.World DB JobStats.

(** The database after the queries [qs], when none of them fails. *)
Fixpoint runAll (db : DB) (qs : list string) : option DB :=
  match qs with
  | [] => Some db
  | q :: rest =>
    match Runner.db_RunQuery w db q with
    | (None, db') => runAll db' rest
    | (Some _, _) => None
    end
  end.

Definition setupTrace (queries : list string) : list (Runner.event JobStats) :=
  if (0 <? length queries)%nat
  then Runner.LogPrintf "Performing setup"
       :: map (Runner.RunQuery Runner.SetupPhase) queries
  else [].

Definition teardownTrace (queries : list string) : list (Runner.event JobStats) :=
  if (0 <? length queries)%nat
  then Runner.LogPrintf "Performing teardown"
       :: map (Runner.RunQuery Runner.TeardownPhase) queries
  else [].

(** What a run emits about its statistics once the drivers are back: one
    log line per job, and the file when one was asked for. *)
Definition statsTrace (testStats : gmap string JobStats) : list (Runner.event JobStats) :=
  Runner.RunJobs
  :: map (fun '(name, stats) => Runner.LogStats name stats)
         (map_to_list testStats)
  ++ (if (0 <? String.length (Runner.JsonOutputFile w))%nat
      then [Runner.Chdir "..";
            Runner.CreateFile (Runner.JsonOutputFile w +:+ ".json");
            Runner.EncodeStats testStats]
      else []).

Definition statsWritten (testStats : gmap string JobStats) : Prop :=
  (0 <? String.length (Runner.JsonOutputFile w))%nat = true ->
  Runner.os_Create w (Runner.JsonOutputFile w +:+ ".json") = None
  /\ Runner.encoder_Encode w testStats = None.

Definition setupFatal (query : string) (err : error) : string :=
  "error in setup query " +:+ strconv_Quote rt query +:+ ": " +:+ Error rt err.

Definition teardownFatal (query : string) (err : error) : string :=
  "error in teardown query " +:+ strconv_Quote rt query
    +:+ ": " +:+ Error rt err.

(** An event a run can show before its drivers start. *)
Definition beforeDrivers (e : Runner.event JobStats) : Prop :=
  match e with
  | Runner.LogPrintf _ | Runner.RunQuery Runner.SetupPhase _
  | Runner.LogFatalf _ => True
  | _ => False
  end.

End Runs.

(** ** Offsets *)

Section OffsetChecks.

Variable rt : Runtime.

Definition startsLate (name : string) : error :=
  New ("job " +:+ strconv_Quote rt name +:+ " starts after test finishes.").

Definition stopsLate (name : string) : error :=
  New ("job " +:+ strconv_Quote rt name +:+ " stops after test finishes.").

(** The body of the loop that ends [parseIniConfig] and
    [parseJSONConfig], and the loop itself. *)
Definition checkOffset (duration : Z) (_ : unit) (entry : string * Job.t)
  : result unit :=
  let '(name, job) := entry in
  if (0 <? duration) && (duration <? Job.Start job)
  then Fail (startsLate name)
  else if (0 <? Job.Stop job) && (0 <? duration) && (duration <? Job.Stop job)
  then Fail (stopsLate name)
  else Ok tt.

Definition checkOffsets (config : Config.t) : result Config.t :=
  attempt _ :=
    foldM (checkOffset (Config.Duration config))
          (map_to_list (Config.Jobs config)) tt in
  Ok config.

(** A job that starts or stops after the end of the test. *)
Definition late (duration : Z) (job : Job.t) : Prop :=
  duration < Job.Start job \/ duration < Job.Stop job.

End OffsetChecks.

(** ** A JSON job written as an INI section *)

(** The properties a field gives to the section: none when the field is
    not set. *)
Definition property (present : bool) (key value : string) : goini.RawSection :=
  if present then [(key, value)] else [].

Definition properties (present : bool) (key : string) (values : list string)
  : goini.RawSection :=
  if present then map (pair key) values else [].

(** The unique keys met once a block has been read. *)
Definition markSeen (present : bool) (key : string) (seen : list string)
  : list string :=
  if present then key :: seen else seen.

(** How the INI section writes the values that the JSON document holds as
    numbers or as a bare character. *)
Record spelling : Type := {
  rateText : string;
  batchSizeText : string;
  queueDepthText : string;
  concurrencyText : string;
  countText : string;
  delimText : string
}.

(** The INI parsers read each text back as the value of the JSON job. *)
Definition spells (rt : Runtime) (jobSpec : JobOptions.t) (sp : spelling)
  : Prop :=
  let set := isFieldSet rt (ValueOfJobOptions jobSpec) in
  (set "QueryArgsDelim" = true ->
   strconv_Unquote rt (delimText sp) = Ok (JobOptions.QueryArgsDelim jobSpec))
  /\ (set "Rate" = true ->
      strconv_ParseFloat rt (rateText sp) = Ok (JobOptions.Rate jobSpec))
  /\ (set "BatchSize" = true ->
      strconv_ParseUint rt (batchSizeText sp)
      = Ok (JobOptions.BatchSize jobSpec))
  /\ (set "QueueDepth" = true ->
      strconv_ParseUint rt (queueDepthText sp)
      = Ok (JobOptions.QueueDepth jobSpec))
  /\ (set "Concurrency" = true ->
      strconv_ParseUint rt (concurrencyText sp)
      = Ok (JobOptions.Concurrency jobSpec))
  /\ (set "Count" = true ->
      strconv_ParseUint rt (countText sp) = Ok (JobOptions.Count jobSpec)).

(** The section that lists the fields set in the JSON job, in the order
    in which [validateJobSection] reads them. *)
Definition iniOf (rt : Runtime) (jobSpec : JobOptions.t) (sp : spelling)
  : goini.RawSection :=
  let set := isFieldSet rt (ValueOfJobOptions jobSpec) in
  property (set "Start") "start" (JobOptions.Start jobSpec)
  ++ property (set "Stop") "stop" (JobOptions.Stop jobSpec)
  ++ properties (set "Queries") "query" (JobOptions.Queries jobSpec)
  ++ properties (set "QueryFiles") "query-file" (JobOptions.QueryFiles jobSpec)
  ++ property (set "QueryArgsFile") "query-args-file"
       (JobOptions.QueryArgsFile jobSpec)
  ++ property (set "QueryArgsDelim") "query-args-delim" (delimText sp)
  ++ property (set "QueryResultsFile") "query-results-file"
       (JobOptions.QueryResultsFile jobSpec)
  ++ property (set "Rate") "rate" (rateText sp)
  ++ property (set "BatchSize") "batch-size" (batchSizeText sp)
  ++ property (set "QueueDepth") "queue-depth" (queueDepthText sp)
  ++ property (set "Concurrency") "concurrency" (concurrencyText sp)
  ++ property (set "Count") "count" (countText sp)
  ++ property (set "MultiQueryMode" && JobOptions.MultiQueryMode jobSpec)
       "multi-query-mode" "multi-connection"
  ++ property (set "QueryLogFile") "query-log-file"
       (JobOptions.QueryLogFile jobSpec).

(** A parser state that still works for the flavor and the directory it
    was made for, and in which several queries are not yet allowed. *)
Definition anchored (df : DatabaseFlavor) (basedir : string)
    (jp : jobParser.t) : Prop :=
  jobParser.df jp = df /\ jobParser.basedir jp = basedir
  /\ jobParser.multiQueryAllowed jp = false.

(** The same error, or the same check in the wording of each syntax. *)
Definition sameViolation (ini json : error) : Prop :=
  ini = json
  \/ exists pick : wording -> string,
       In pick [queriesAndLog; batchWithoutRate; delimWithoutArgs; argsWithLog]
       /\ ini = New (pick iniWording) /\ json = New (pick jsonWording).

Definition sameOutcome (ini json : result Job.t) : Prop :=
  match ini, json with
  | Ok job, Ok job' => job = job'
  | Fail err, Fail err' => sameViolation err err'
  | _, _ => False
  end.

(** The fields of [bothDepths], concurrency first. *)
Definition concurrencyFirst : goini.RawSection :=
  [("query", "select 1"); ("concurrency", "2"); ("queue-depth", "3")].

(** One query and one query file, several queries allowed. *)
Definition queriesThenFile : JobOptions.t :=
  {| JobOptions.Start := EmptyString; JobOptions.Stop := EmptyString;
     JobOptions.Queries := ["select 3"];
     JobOptions.QueryFiles := ["queries.sql"];
     JobOptions.QueryArgsFile := EmptyString;
     JobOptions.QueryArgsDelim := EmptyString;
     JobOptions.QueryResultsFile := EmptyString;
     JobOptions.Rate := zero64; JobOptions.BatchSize := 0;
     JobOptions.QueueDepth := 0; JobOptions.Concurrency := 0;
     JobOptions.Count := 0; JobOptions.MultiQueryMode := true;
     JobOptions.QueryLogFile := EmptyString |}.

(** Ten batches a second from the first to the fourth second, five
    times, arguments delimited by semicolons. *)
Definition ratePacedJob : JobOptions.t :=
  {| JobOptions.Start := "1s"; JobOptions.Stop := "4s";
     JobOptions.Queries := ["select 1"]; JobOptions.QueryFiles := [];
     JobOptions.QueryArgsFile := "args.csv";
     JobOptions.QueryArgsDelim := ";";
     JobOptions.QueryResultsFile := EmptyString;
     JobOptions.Rate := Sample.ten; JobOptions.BatchSize := 0;
     JobOptions.QueueDepth := 0; JobOptions.Concurrency := 0;
     JobOptions.Count := 5; JobOptions.MultiQueryMode := false;
     JobOptions.QueryLogFile := EmptyString |}.

Definition ratePacedTexts : spelling :=
  {| rateText := "10"; batchSizeText := "0"; queueDepthText := "0";
     concurrencyText := "0"; countText := "5";
     delimText := Sample.quote ";" |}.

(** ** Rate and batch size *)

(** The rate of the job being read is not below zero. *)
Definition rateChecked (jp : jobParser.t) : Prop :=
  SFltb (Job.Rate (jobParser.j jp)) zero64 = false.

(** What an accepted job has for rate and batch size: the rate is not
    below zero and, with a batch size above zero, not equal to zero
    either.  For a rate that is a number this is [rate >= 0] and
    [batchSize > 0 -> rate > 0]; for NaN, which is neither below, equal to
    nor above zero, it is nothing. *)
Definition rateAndBatch (job : Job.t) : Prop :=
  SFltb (Job.Rate job) zero64 = false
  /\ ((0 < Job.BatchSize job)%N -> SFeqb (Job.Rate job) zero64 = false)
  /\ (Job.Rate job <> S754_nan ->
      SFleb zero64 (Job.Rate job) = true
      /\ ((0 < Job.BatchSize job)%N -> SFltb zero64 (Job.Rate job) = true)).

(** ** Query files, joined back *)


(** ** The global, setup and teardown sections of a JSON document, written
    as INI sections *)

(** The global section that lists the fields set in the JSON document, in
    the order in which [validateGlobalSection] reads them. *)
Definition globalOf (rt : Runtime) (jsonConfig : JSONConfig.t)
  : goini.RawSection :=
  let set := isFieldSet rt (ValueOfJSONConfig jsonConfig) in
  property (set "Duration") "duration" (JSONConfig.Duration jsonConfig)
  ++ properties (set "Errors") "error" (JSONConfig.Errors jsonConfig).

(** The setup or teardown section that lists the queries and then the
    query files of the JSON section. *)
Definition reservedOf (rt : Runtime) (section : ReservedSectionOptions.t)
  : goini.RawSection :=
  let set := isFieldSet rt (ValueOfReserved section) in
  properties (set "Queries") "query" (ReservedSectionOptions.Queries section)
  ++ properties (set "QueryFiles") "query-file"
       (ReservedSectionOptions.QueryFiles section).

(** The errors a configuration accepts. *)
Definition accepted (c : Config.t) : gset string :=
  default ∅ (Config.AcceptedErrors c).

(** A query the flavor has nothing to say against. *)
Definition passes (df : DatabaseFlavor) (q : string) : Prop :=
  CheckQuery df q = None.

(** What the properties read so far have done to a configuration [c]. *)
Definition globalRead (rt : Runtime) (c : Config.t)
    (read : goini.RawSection) (c' : Config.t) : Prop :=
  Config.Flavor c' = Config.Flavor c /\ Config.Setup c' = Config.Setup c
  /\ Config.Teardown c' = Config.Teardown c /\ Config.Jobs c' = Config.Jobs c
  /\ (forall e, e ∈ accepted c' <-> e ∈ accepted c \/ In ("error", e) read)
  /\ (forall v, In ("duration", v) read ->
        isOk (time_ParseDuration rt v) = true)
  /\ (Config.Duration c' = Config.Duration c
      \/ exists v, In ("duration", v) read
                   /\ time_ParseDuration rt v = Ok (Config.Duration c')).

(** A JSON document whose setup creates a table and then runs the
    queries of a file, and whose teardown drops the table. *)
Definition setupJSON : JSONConfig.t :=
  {| JSONConfig.Duration := "5s"; JSONConfig.Errors := [];
     JSONConfig.Setup :=
       {| ReservedSectionOptions.Queries := ["create table t"];
          ReservedSectionOptions.QueryFiles := ["queries.sql"] |};
     JSONConfig.Teardown :=
       {| ReservedSectionOptions.Queries := ["drop table t"];
          ReservedSectionOptions.QueryFiles := [] |};
     JSONConfig.Jobs := {[ "smoke" := Sample.jsonJob "1s" "4s" ]} |}.

(** ** What reading a job keeps *)

(** The parser state of a job called [name] read for the flavor [df]:
    the name and the flavor are those it started with, no reader of
    arguments is attached yet, and every query passes [CheckQuery]. *)
Definition wellRead (df : DatabaseFlavor) (name : string) (jp : jobParser.t)
  : Prop :=
  jobParser.df jp = df
  /\ Job.Name (jobParser.j jp) = name
  /\ Job.QueryArgs (jobParser.j jp) = None
  /\ Forall (passes df) (Job.Queries (jobParser.j jp)).

(** ** Accepted jobs *)

(** The error that [decodeConfigJobs] and [validateConfigJobs] report
    for the job [name]. *)
Definition jobError (rt : Runtime) (name : string) (err : error) : error :=
  New ("Error parsing job " +:+ strconv_Quote rt name +:+ ": "
         +:+ Error rt err).

(** The body of the loop of [decodeConfigJobs] and of
    [validateConfigJobs], for entries [a] whose name is [key a] and whose
    job is read by [read a]. *)
Definition addJob {A : Type} (rt : Runtime) (key : A -> string)
    (read : A -> result Job.t) (jobs : gmap string Job.t) (a : A)
  : result (gmap string Job.t) :=
  if reservedName (key a) then Ok jobs
  else match read a with
       | Fail err => Fail (jobError rt (key a) err)
       | Ok job => Ok (<[key a := job]> jobs)
       end.

(** A job that sits under its own name, whose queries all pass
    [CheckQuery], and that has either queries or a query log to replay,
    the latter without query arguments. *)
Definition wellFormed (df : DatabaseFlavor) (name : string) (job : Job.t)
  : Prop :=
  Job.Name job = name
  /\ Forall (passes df) (Job.Queries job)
  /\ ((Job.Queries job <> [] /\ Job.QueryLog job = None)
      \/ (Job.Queries job = [] /\ Job.QueryLog job <> None
          /\ Job.QueryArgs job = None)).

(** What holds of a configuration once its sections have been read. *)
Definition acceptedConfig (df : DatabaseFlavor) (config : Config.t) : Prop :=
  Config.Flavor config = df
  /\ Forall (passes df) (Config.Setup config)
  /\ Forall (passes df) (Config.Teardown config)
  /\ forall name job,
       Config.Jobs config !! name = Some job ->
       reservedName name = false /\ wellFormed df name job.

(** ** The delimiter of the query arguments *)

(** What [utf8.DecodeRuneInString] makes of a string of one byte: the
    byte itself when it is ASCII, U+FFFD when it is not. *)
Definition runeOfByte (a : ascii) : Z :=
  if utf8.byte a <? 128 then utf8.byte a else utf8.RuneError.

(** What a parser keeps beside the job: the arguments file, the
    delimiter, and whether several queries are allowed. *)
Definition parserSide (file : option File) (delim : Z) (multi : bool)
    (jp : jobParser.t) : Prop :=
  jobParser.queryArgsFile jp = file
  /\ jobParser.queryArgsDelim jp = delim
  /\ jobParser.multiQueryAllowed jp = multi.

(** Several queries are allowed only once the section has said
    [multi-query-mode = multi-connection]. *)
Definition multiQueryRead (read : goini.RawSection) (jp : jobParser.t)
  : Prop :=
  jobParser.multiQueryAllowed jp = true ->
  In ("multi-query-mode", "multi-connection") read.

(** One query, with an arguments file when [file] is not empty and the
    delimiter [delim]. *)
Definition delimited (file delim : string) : JobOptions.t :=
  {| JobOptions.Start := EmptyString; JobOptions.Stop := EmptyString;
     JobOptions.Queries := ["select 1"]; JobOptions.QueryFiles := [];
     JobOptions.QueryArgsFile := file;
     JobOptions.QueryArgsDelim := delim;
     JobOptions.QueryResultsFile := EmptyString;
     JobOptions.Rate := zero64; JobOptions.BatchSize := 0;
     JobOptions.QueueDepth := 0; JobOptions.Concurrency := 0;
     JobOptions.Count := 0; JobOptions.MultiQueryMode := false;
     JobOptions.QueryLogFile := EmptyString |}.

(** The bytes 0x00 and 0x80, each as a string. *)
Definition nul : string := String (ascii_of_nat 0) EmptyString.
Definition continuation : string := String (ascii_of_nat 128) EmptyString.

(** ** What a run shows *)

Section Traces.

Context {JobStats : Type}.

Definition isFatal (e : Runner.event JobStats) : bool :=
  match e with Runner.LogFatalf _ => true | _ => false end.

(** No fatal error is logged. *)
Definition quiet (tr : list (Runner.event JobStats)) : bool :=
  forallb (fun e => negb (isFatal e)) tr.

(** The queries sent to the database, in order, each with its phase. *)
Fixpoint sent (tr : list (Runner.event JobStats))
  : list (Runner.phase * string) :=
  match tr with
  | [] => []
  | Runner.RunQuery ph query :: rest => (ph, query) :: sent rest
  | _ :: rest => sent rest
  end.

(** The queries a configuration asks to send: those of its setup, then
    those of its teardown. *)
Definition planned (config : Config.t) : list (Runner.phase * string) :=
  map (pair Runner.SetupPhase) (Config.Setup config)
  ++ map (pair Runner.TeardownPhase) (Config.Teardown config).

(** The log lines of the statistics, one per job. *)
Definition statsLines (testStats : gmap string JobStats)
  : list (Runner.event JobStats) :=
  map (fun '(name, stats) => Runner.LogStats name stats)
      (map_to_list testStats).

End Traces.

Section Shapes.

Context {DB JobStats : Type}.
Variable rt : Runtime.
Variable w : Runner.World DB JobStats.

(** The four ways a run can go: a setup query fails; the statistics file
    cannot be written; a teardown query fails; nothing fails. *)
Inductive runShape (db : DB) (config : Config.t)
  : list (Runner.event JobStats) * Runner.outcome -> Prop :=
| SetupFails pre q post db1 db2 err :
    Config.Setup config = pre ++ q :: post ->
    runAll w db pre = Some db1 ->
    Runner.db_RunQuery w db1 q = (Some err, db2) ->
    runShape db config
      (Runner.LogPrintf "Performing setup"
         :: map (Runner.RunQuery Runner.SetupPhase) pre
         ++ [Runner.RunQuery Runner.SetupPhase q;
             Runner.LogFatalf (setupFatal rt q err)],
       Runner.Exited 1)
| WriteFails db1 testStats db2 tr :
    runAll w db (Config.Setup config) = Some db1 ->
    Runner.drivers w db1 config = (testStats, db2) ->
    (0 <? String.length (Runner.JsonOutputFile w))%nat = true ->
    Runner.writeStatsToFile rt w testStats = (tr, false) ->
    runShape db config
      (setupTrace (Config.Setup config)
         ++ Runner.RunJobs :: statsLines testStats ++ tr,
       Runner.Exited 1)
| TeardownFails db1 testStats db2 pre q post db3 db4 err :
    runAll w db (Config.Setup config) = Some db1 ->
    Runner.drivers w db1 config = (testStats, db2) ->
    statsWritten w testStats ->
    Config.Teardown config = pre ++ q :: post ->
    runAll w db2 pre = Some db3 ->
    Runner.db_RunQuery w db3 q = (Some err, db4) ->
    runShape db config
      (setupTrace (Config.Setup config) ++ statsTrace w testStats
         ++ Runner.LogPrintf "Performing teardown"
         :: map (Runner.RunQuery Runner.TeardownPhase) pre
         ++ [Runner.RunQuery Runner.TeardownPhase q;
             Runner.LogFatalf (teardownFatal rt q err)],
       Runner.Exited 1)
| NothingFails db1 testStats db2 db3 :
    runAll w db (Config.Setup config) = Some db1 ->
    Runner.drivers w db1 config = (testStats, db2) ->
    statsWritten w testStats ->
    runAll w db2 (Config.Teardown config) = Some db3 ->
    runShape db config
      (setupTrace (Config.Setup config) ++ statsTrace w testStats
         ++ teardownTrace (Config.Teardown config),
       Runner.Returned).

End Shapes.

(** ** Queries in the order of the section *)

(** The queries that one property of an INI section stands for: the value
    of a [query], the queries of a [query-file], nothing for another
    key. *)
Definition queriesOf (rt : Runtime) (df : DatabaseFlavor) (basedir : string)
    (property : string * string) : list string :=
  if String.eqb (fst property) "query" then [snd property]
  else if String.eqb (fst property) "query-file"
       then match readQueriesFromFile rt df (inBasedir rt basedir (snd property)) with
            | Ok queries => queries
            | Fail _ => []
            end
       else [].

(** A setup parser that has read [read]. *)
Definition setupRead (rt : Runtime) (df : DatabaseFlavor) (basedir : string)
    (read : goini.RawSection) (ssp : setupSectionParser) : Prop :=
  ssp_df ssp = df /\ ssp_basedir ssp = basedir
  /\ ssp_queries ssp = flat_map (queriesOf rt df basedir) read.

(** A job parser that has read [read], for the queries. *)
Definition queriesRead (rt : Runtime) (df : DatabaseFlavor) (basedir : string)
    (read : goini.RawSection) (jp : jobParser.t) : Prop :=
  jobParser.df jp = df /\ jobParser.basedir jp = basedir
  /\ Job.Queries (jobParser.j jp) = flat_map (queriesOf rt df basedir) read.

(** ** [concurrency] for [queue-depth] *)

(** A key, with [concurrency] written for [queue-depth]. *)
Definition aliased (key : string) : string :=
  if String.eqb key "queue-depth" then "concurrency" else key.

(** A section, with [concurrency] written for [queue-depth]. *)
Definition asConcurrency (section : goini.RawSection) : goini.RawSection :=
  map (fun property => (aliased (fst property), snd property)) section.

(** Two outcomes that differ at most in the key that goini names when an
    option is repeated. *)
Definition sameButForAlias {A : Type} (rt : Runtime) (r r' : result A) : Prop :=
  match r, r' with
  | Ok a, Ok a' => a = a'
  | Fail e, Fail e' =>
    e = e'
    \/ (e = goini.RepeatedOption (goini_errors rt) "queue-depth"
        /\ e' = goini.RepeatedOption (goini_errors rt) "concurrency")
  | _, _ => False
  end.

(** ** Tests of unlimited duration *)

(** No duration and a job that starts after ten seconds; a duration
    below zero and the same job. *)
Definition unboundedIni : goini.RawConfig :=
  Sample.iniConfig []
    [("late", [("query", "select 1"); ("start", "10s")])].

Definition negativeIni : goini.RawConfig :=
  Sample.iniConfig [("duration", "-1s")]
    [("late", [("query", "select 1"); ("start", "10s")])].

(** ** The modes that a job is given

    What the three modes of a new job are once its fields have been read
    goes by the values that the section or the JSON job gives, not by the
    keys it holds: the rate, the queue depth and the query log below. *)

(** The value of the last property of [section] whose key is one of
    [keys]. *)
Definition lastOf (keys : list string) (section : goini.RawSection)
  : option string :=
  fold_left (fun found property =>
               if existsb (String.eqb (fst property)) keys
               then Some (snd property) else found)
            section None.

(** The rate that an INI section gives: its last [rate], as
    [strconv.ParseFloat] reads it. *)
Definition iniRate (rt : Runtime) (section : goini.RawSection) : float64 :=
  match lastOf ["rate"] section with
  | Some value =>
    match strconv_ParseFloat rt value with Ok r => r | Fail _ => zero64 end
  | None => zero64
  end.

(** The queue depth that an INI section gives: the later of its
    [queue-depth] and [concurrency], as [strconv.ParseUint] reads it. *)
Definition iniQueueDepth (rt : Runtime) (section : goini.RawSection) : N :=
  match lastOf ["queue-depth"; "concurrency"] section with
  | Some value =>
    match strconv_ParseUint rt value with Ok n => n | Fail _ => 0%N end
  | None => 0%N
  end.

(** Whether an INI section names a query log. *)
Definition iniQueryLog (section : goini.RawSection) : bool :=
  match lastOf ["query-log-file"] section with
  | Some _ => true
  | None => false
  end.

(** How many of the three modes an INI section gives a new job. *)
Definition iniJobTypes (rt : Runtime) (section : goini.RawSection) : Z :=
  Z.b2z (0 <? iniQueueDepth rt section)%N + Z.b2z (iniQueryLog section)
  + Z.b2z (SFltb zero64 (iniRate rt section)).

(** The rate that a JSON job gives: its [rate] when the field is set. *)
Definition jsonRate (rt : Runtime) (jobSpec : JobOptions.t) : float64 :=
  if isFieldSet rt (ValueOfJobOptions jobSpec) "Rate"
  then JobOptions.Rate jobSpec else zero64.

(** The queue depth that a JSON job gives: its [concurrency] when that
    field is set, else its [queueDepth] when that one is. *)
Definition jsonQueueDepth (rt : Runtime) (jobSpec : JobOptions.t) : N :=
  if isFieldSet rt (ValueOfJobOptions jobSpec) "Concurrency"
  then JobOptions.Concurrency jobSpec
  else if isFieldSet rt (ValueOfJobOptions jobSpec) "QueueDepth"
       then JobOptions.QueueDepth jobSpec else 0%N.

(** Whether a JSON job names a query log. *)
Definition jsonQueryLog (rt : Runtime) (jobSpec : JobOptions.t) : bool :=
  isFieldSet rt (ValueOfJobOptions jobSpec) "QueryLogFile".

(** How many of the three modes a JSON job gives a new job. *)
Definition jsonJobTypes (rt : Runtime) (jobSpec : JobOptions.t) : Z :=
  Z.b2z (0 <? jsonQueueDepth rt jobSpec)%N + Z.b2z (jsonQueryLog rt jobSpec)
  + Z.b2z (SFltb zero64 (jsonRate rt jobSpec)).

(** A job parser that has read [read], for the three modes. *)
Definition modesRead (rt : Runtime) (read : goini.RawSection)
    (jp : jobParser.t) : Prop :=
  Job.Rate (jobParser.j jp) = iniRate rt read
  /\ Job.QueueDepth (jobParser.j jp) = iniQueueDepth rt read
  /\ logReplay (jobParser.j jp) = iniQueryLog read.

(** A job parser whose job has none of the three modes yet. *)
Definition noMode (jp : jobParser.t) : Prop :=
  Job.Rate (jobParser.j jp) = zero64
  /\ Job.QueueDepth (jobParser.j jp) = 0%N
  /\ Job.QueryLog (jobParser.j jp) = None.

(** A rate with a queue depth that [concurrency] takes back, and a JSON
    job that sets no field. *)
Definition depthTakenBack : goini.RawSection :=
  [("query", "select 1"); ("rate", "10"); ("queue-depth", "2");
   ("concurrency", "0")].

Definition nothingSet : JobOptions.t :=
  {| JobOptions.Start := EmptyString; JobOptions.Stop := EmptyString;
     JobOptions.Queries := []; JobOptions.QueryFiles := [];
     JobOptions.QueryArgsFile := EmptyString;
     JobOptions.QueryArgsDelim := EmptyString;
     JobOptions.QueryResultsFile := EmptyString;
     JobOptions.Rate := zero64; JobOptions.BatchSize := 0;
     JobOptions.QueueDepth := 0; JobOptions.Concurrency := 0;
     JobOptions.Count := 0; JobOptions.MultiQueryMode := false;
     JobOptions.QueryLogFile := EmptyString |}.

(** A rate and a queue depth in a JSON job. *)
Definition rateAndDepth : JobOptions.t :=
  {| JobOptions.Start := EmptyString; JobOptions.Stop := EmptyString;
     JobOptions.Queries := ["select 1"]; JobOptions.QueryFiles := [];
     JobOptions.QueryArgsFile := EmptyString;
     JobOptions.QueryArgsDelim := EmptyString;
     JobOptions.QueryResultsFile := EmptyString;
     JobOptions.Rate := Sample.ten; JobOptions.BatchSize := 0;
     JobOptions.QueueDepth := 2; JobOptions.Concurrency := 0;
     JobOptions.Count := 0; JobOptions.MultiQueryMode := false;
     JobOptions.QueryLogFile := EmptyString |}.

(** * Properties *)

Example Split_semicolons :
  strings.Split "select 1; ;select 2" ";" = ["select 1"; " "; "select 2"].
Proof. reflexivity. Qed.

Example Split_trailing : strings.Split "a;" ";" = ["a"; ""].
Proof. reflexivity. Qed.

Example Split_long_separator : strings.Split "xGOyGO" "GO" = ["x"; "y"; ""].
Proof. reflexivity. Qed.

(** ** Reading a query file *)

Section ReadQueries.

Variable rt : Runtime.
Variable df : DatabaseFlavor.

(** The body of the loop of [readQueriesFromReader]. *)
Local Abbreviation step :=
  (fun (queries : list string) (query : string) =>
     match CheckQuery df query with
     | Some err =>
       if bool_decide (err <> EmptyQueryError)
       then Fail (New ("invalid query " +:+ Error rt err))
       else Ok queries
     | None => Ok (queries ++ [query])
     end).

Lemma step_benign (acc : list string) (q : string) :
  benign df q ->
  step acc q = Ok (acc ++ List.filter (kept df) [q]).
Proof.
  unfold benign, kept. intros [H | H]; simpl; rewrite !H; simpl.
  - reflexivity.
  - now rewrite app_nil_r.
Qed.

Lemma step_offending (acc : list string) (q : string) (err : error) :
  offending df q err ->
  step acc q = Fail (New ("invalid query " +:+ Error rt err)).
Proof.
  intros [H Hne]. rewrite H. now rewrite bool_decide_eq_true_2.
Qed.

Lemma loop_benign (segments acc : list string) :
  Forall (benign df) segments ->
  foldM step segments acc = Ok (acc ++ List.filter (kept df) segments).
Proof.
  intros Hall. revert acc.
  induction Hall as [| q rest Hq _ IH]; intros acc; simpl foldM.
  - now rewrite app_nil_r.
  - rewrite (step_benign acc q Hq). simpl bind. rewrite IH.
    f_equal. rewrite <- app_assoc. f_equal.
    simpl. destruct (kept df q); reflexivity.
Qed.

Lemma loop_offending (pre post acc : list string) (q : string) (err : error) :
  Forall (benign df) pre ->
  offending df q err ->
  foldM step (pre ++ q :: post) acc
  = Fail (New ("invalid query " +:+ Error rt err)).
Proof.
  intros Hpre Hq. revert acc.
  induction Hpre as [| p pre Hp _ IH]; intros acc; simpl foldM.
  - now rewrite (step_offending acc q err Hq).
  - rewrite (step_benign acc p Hp). simpl bind. apply IH.
Qed.

(** A list of segments is all benign, or it has a first offending one. *)
Lemma first_offending (segments : list string) :
  Forall (benign df) segments
  \/ exists pre q post err,
       segments = pre ++ q :: post /\ Forall (benign df) pre /\ offending df q err.
Proof.
  induction segments as [| q rest IH].
  - left. constructor.
  - destruct (CheckQuery df q) as [err |] eqn:Hq.
    + destruct (decide (err = EmptyQueryError)) as [-> | Hne].
      * destruct IH as [IH | (pre & q' & post & err' & -> & Hpre & Hoff)].
        -- left. constructor; [right; exact Hq | exact IH].
        -- right. exists (q :: pre), q', post, err'.
           split; [reflexivity |]. split; [| exact Hoff].
           constructor; [right; exact Hq | exact Hpre].
      * right. exists [], q, rest, err.
        split; [reflexivity |]. split; [constructor |]. split; assumption.
    + destruct IH as [IH | (pre & q' & post & err' & -> & Hpre & Hoff)].
      * left. constructor; [left; exact Hq | exact IH].
      * right. exists (q :: pre), q', post, err'.
        split; [reflexivity |]. split; [| exact Hoff].
        constructor; [left; exact Hq | exact Hpre].
Qed.

End ReadQueries.

Example read_sample_file :
  readQueriesFromFile Sample.runtime Sample.flavor "/bench/queries.sql"
  = Ok ["select 1"; "select 2"].
Proof. reflexivity. Qed.

Example read_broken_file :
  readQueriesFromFile Sample.runtime Sample.flavor "/bench/broken.sql"
  = Fail (New "invalid query cannot use queries that alter the connection").
Proof. reflexivity. Qed.

(** C8.  [readQueriesFromReader] splits what it read on the flavor's
    separator.  When [CheckQuery] answers nil or [EmptyQueryError] on every
    segment, the result is the list of the segments answered nil, in their
    order: the empty ones are dropped without an error.  When some segment
    gets another error, the read fails with "invalid query" followed by the
    error of the first such segment, and returns no query. *)
Theorem readQueriesFromReader_segments
    (rt : Runtime) (df : DatabaseFlavor) (r : File) (contents : string) :
  ioutil_ReadAll rt r = Ok contents ->
  let segments := strings.Split contents (QuerySeparator df) in
  (Forall (benign df) segments ->
   readQueriesFromReader rt df r = Ok (List.filter (kept df) segments))
  /\ (forall pre q post err,
        segments = pre ++ q :: post ->
        Forall (benign df) pre ->
        offending df q err ->
        readQueriesFromReader rt df r
        = Fail (New ("invalid query " +:+ Error rt err)))
  /\ (Exists (fun q => exists err, offending df q err) segments ->
      exists err,
        err <> EmptyQueryError
        /\ readQueriesFromReader rt df r
           = Fail (New ("invalid query " +:+ Error rt err))).
Proof.
  intros Hread segments. unfold readQueriesFromReader. rewrite Hread.
  simpl bind. fold segments. repeat split.
  - intros Hall. now rewrite (loop_benign rt df segments [] Hall).
  - intros pre q post err -> Hpre Hoff.
    now apply loop_offending.
  - intros Hex.
    destruct (first_offending df segments)
      as [Hall | (pre & q & post & err & Heq & Hpre & Hoff)].
    + exfalso. apply Exists_exists in Hex as (q & Hin & err & Hq & Hne).
      rewrite Forall_forall in Hall.
      destruct (Hall q Hin) as [Hb | Hb]; rewrite Hb in Hq.
      * discriminate.
      * apply Hne. congruence.
    + exists err. split; [apply Hoff |].
      rewrite Heq. now apply loop_offending.
Qed.

Lemma readQueriesFromReader_segments_witness :
  readQueriesFromReader Sample.runtime Sample.flavor
    (FileAt "/bench/queries.sql")
  = Ok ["select 1"; "select 2"].
Proof.
  destruct (readQueriesFromReader_segments Sample.runtime Sample.flavor
              (FileAt "/bench/queries.sql") "select 1; ;select 2" eq_refl)
    as [Hkept _].
  rewrite Hkept; [reflexivity |].
  repeat constructor; right; reflexivity.
Defined.

(** ** The checks that follow the reading of a job

    Each of the two functions is its reading phase followed by
    [checkJob]. *)

(** Case analysis on the conditions of the [if]s of the goal, innermost
    scrutinee first. *)
Ltac split_conditions :=
  repeat match goal with
         | |- context [if ?b then _ else _] =>
           lazymatch b with
           | context [if _ then _ else _] => fail
           | _ => destruct b eqn:?
           end; simpl in *; try discriminate; try reflexivity
         end.

Lemma decodeJobSection_checkJob (rt : Runtime) (df : DatabaseFlavor)
    (section : goini.RawSection) (basedir : string) (job : Job.t) :
  decodeJobSection rt df section basedir job
  = attempt jp := goini.Decode (goini_errors rt) (jobOptions rt) section
                    (jobParser.make job df basedir) in
    checkJob iniWording jp.
Proof.
  unfold decodeJobSection.
  destruct (goini.Decode _ _ _ _) as [jp |]; [| reflexivity].
  simpl bind. unfold checkJob, violation, finishJob, jobTypes,
    queueDepthMode, logReplay, ratePaced.
  destruct jp as [[] ? ? ? ? ?]; simpl.
  split_conditions.
Qed.

Lemma validateJobSection_checkJob (rt : Runtime) (df : DatabaseFlavor)
    (jobSpec : JobOptions.t) (basedir : string) (job : Job.t) :
  validateJobSection rt df jobSpec basedir job
  = attempt jp := applyJobOptions rt df jobSpec basedir job in
    checkJob jsonWording jp.
Proof.
  unfold validateJobSection.
  destruct (applyJobOptions _ _ _ _ _) as [jp |]; [| reflexivity].
  simpl bind. unfold checkJob, violation, finishJob, jobTypes,
    queueDepthMode, logReplay, ratePaced.
  destruct jp as [[] ? ? ? ? ?]; simpl.
  split_conditions.
Qed.

(** *** What [checkJob] accepts *)

Lemma jobTypes_nonneg (job : Job.t) : 0 <= jobTypes job.
Proof.
  unfold jobTypes.
  destruct (queueDepthMode job), (logReplay job), (ratePaced job); simpl; lia.
Qed.

Lemma checkJob_Ok (w : wording) (jp : jobParser.t) (job : Job.t) :
  checkJob w jp = Ok job ->
  violation w jp = None /\ jobTypes (jobParser.j jp) <= 1 /\ job = finishJob jp.
Proof.
  unfold checkJob. destruct (violation w jp); [discriminate |].
  destruct (1 <? jobTypes (jobParser.j jp)) eqn:Hn; [discriminate |].
  intros [= <-]. apply Z.ltb_ge in Hn. auto.
Qed.

Lemma checkJob_many (w : wording) (jp : jobParser.t) :
  1 < jobTypes (jobParser.j jp) ->
  checkJob w jp = Fail (default (New oneJobType) (violation w jp)).
Proof.
  intros Hn. unfold checkJob. destruct (violation w jp); [reflexivity |].
  apply Z.ltb_lt in Hn. now rewrite Hn.
Qed.

Lemma checkJob_none (w : wording) (jp : jobParser.t) :
  jobTypes (jobParser.j jp) = 0 ->
  checkJob w jp
  = match violation w jp with
    | Some err => Fail err
    | None => Ok (finishJob jp)
    end.
Proof.
  intros Hn. unfold checkJob. now rewrite Hn.
Qed.

Lemma finishJob_fields (jp : jobParser.t) :
  let job := jobParser.j jp in
  let job' := finishJob jp in
  Job.Name job' = Job.Name job /\ Job.Start job' = Job.Start job
  /\ Job.Stop job' = Job.Stop job /\ Job.Queries job' = Job.Queries job
  /\ Job.QueryLog job' = Job.QueryLog job /\ Job.Rate job' = Job.Rate job
  /\ Job.Count job' = Job.Count job
  /\ Job.QueueDepth job'
     = (if jobTypes job =? 0 then 1%N else Job.QueueDepth job)
  /\ Job.BatchSize job'
     = (if ratePaced job && (Job.BatchSize job =? 0)%N then 1%N
        else Job.BatchSize job).
Proof.
  unfold finishJob, ratePaced. destruct jp as [[] ? ? [f |] ? ?]; simpl.
  all: destruct (jobTypes _ =? 0); simpl.
  all: destruct (SFltb zero64 _ && _); simpl; repeat split; reflexivity.
Qed.

Lemma finishJob_one_type (jp : jobParser.t) :
  jobTypes (jobParser.j jp) <= 1 -> jobTypes (finishJob jp) = 1.
Proof.
  intros Hle.
  destruct (finishJob_fields jp)
    as (_ & _ & _ & _ & Hlog & Hrate & _ & Hdepth & _).
  pose proof (jobTypes_nonneg (jobParser.j jp)) as Hge.
  unfold jobTypes, queueDepthMode, logReplay, ratePaced in *.
  rewrite Hlog, Hrate, Hdepth.
  destruct (_ + _ + _ =? 0) eqn:Hz.
  - apply Z.eqb_eq in Hz.
    destruct (0 <? Job.QueueDepth _)%N, (Job.QueryLog _), (SFltb _ _);
      simpl in *; lia.
  - apply Z.eqb_neq in Hz. lia.
Qed.

Example default_is_one_thread :
  Job.QueueDepth <$>
    (match decodeJobSection Sample.runtime Sample.flavor
             [("query", "select 1")] "/bench" (Job.new "smoke") with
     | Ok job => Some job
     | Fail _ => None
     end) = Some 1%N.
Proof. reflexivity. Qed.

Example no_mode_and_no_query :
  decodeJobSection Sample.runtime Sample.flavor
    [("start", "1s")] "/bench" (Job.new "idle")
  = Fail (New "no query provided").
Proof. reflexivity. Qed.

(** ** [queueDepth] and [concurrency] in a JSON job *)

(** Walks through the guarded blocks of [applyJobOptions] that can fail. *)
Ltac through_blocks :=
  repeat match goal with
         | |- bind ?m _ = Ok _ -> _ =>
           destruct m as [? |]; [simpl bind | discriminate]
         end.

Lemma applyJobOptions_concurrency (rt : Runtime) (df : DatabaseFlavor)
    (jobSpec : JobOptions.t) (basedir : string) (job0 : Job.t)
    (jp : jobParser.t) :
  applyJobOptions rt df jobSpec basedir job0 = Ok jp ->
  isFieldSet rt (ValueOfJobOptions jobSpec) "Concurrency" = true ->
  Job.QueueDepth (jobParser.j jp) = JobOptions.Concurrency jobSpec.
Proof.
  intros Happly Hset. revert Happly. unfold applyJobOptions.
  through_blocks. rewrite Hset.
  destruct (isFieldSet rt _ "Count"), (isFieldSet rt _ "MultiQueryMode"),
    (isFieldSet rt _ "QueryLogFile"); simpl.
  all: try (destruct (os_Open rt _); simpl; [| discriminate]).
  all: intros [= <-]; reflexivity.
Qed.

Lemma bind_ext {A B : Type} (m : result A) (f g : A -> result B) :
  (forall a, f a = g a) -> bind m f = bind m g.
Proof. intros H. destruct m; simpl; [apply H | reflexivity]. Qed.

Lemma queueDepth_overwritten (c q : N) (jp : jobParser.t) :
  jobParser.onJob (Job.withQueueDepth c)
    (jobParser.onJob (Job.withQueueDepth q) jp)
  = jobParser.onJob (Job.withQueueDepth c) jp.
Proof. destruct jp as [[] ? ? ? ? ?]. reflexivity. Qed.

Lemma applyJobOptions_queueDepth_unused (rt : Runtime) (df : DatabaseFlavor)
    (jobSpec : JobOptions.t) (basedir : string) (job0 : Job.t) (q : N) :
  isFieldSet rt (ValueOfJobOptions jobSpec) "Concurrency" = true ->
  (forall name, name <> "QueueDepth" ->
     isFieldSet rt (ValueOfJobOptions (withQueueDepthField q jobSpec)) name
     = isFieldSet rt (ValueOfJobOptions jobSpec) name) ->
  applyJobOptions rt df (withQueueDepthField q jobSpec) basedir job0
  = applyJobOptions rt df jobSpec basedir job0.
Proof.
  intros Hset Hsame. unfold applyJobOptions.
  rewrite (Hsame "Start"), (Hsame "Stop"), (Hsame "Queries"),
    (Hsame "QueryFiles"), (Hsame "QueryArgsFile"), (Hsame "QueryArgsDelim"),
    (Hsame "QueryResultsFile"), (Hsame "Rate"), (Hsame "BatchSize"),
    (Hsame "Concurrency"), (Hsame "Count"), (Hsame "MultiQueryMode"),
    (Hsame "QueryLogFile") by discriminate.
  rewrite Hset. simpl.
  do 8 (apply bind_ext; intros ?).
  destruct (isFieldSet rt (ValueOfJobOptions (withQueueDepthField q jobSpec))
              "QueueDepth"),
    (isFieldSet rt (ValueOfJobOptions jobSpec) "QueueDepth");
    rewrite ?queueDepth_overwritten; reflexivity.
Qed.

Example bothDepths_accepted :
  validateJobSection Sample.runtime Sample.flavor bothDepths "/bench"
    (Job.new "both")
  = Ok (Job.withQueueDepth 2 (Job.withQueries ["select 1"] (Job.new "both"))).
Proof. reflexivity. Qed.

(** C9.  In the JSON validator, when [concurrency] is set its value
    replaces whatever [queueDepth] gave: after the fields have been read
    the job's queue depth is the concurrency, and so is the queue depth of
    the accepted job when that value is not zero.  Setting both is not an
    error: the validator answers as it does for any other value of
    [queueDepth], the unset one included. *)
Theorem concurrency_overrides_queueDepth
    (rt : Runtime) (df : DatabaseFlavor) (basedir : string) (job0 : Job.t)
    (jobSpec : JobOptions.t) :
  isFieldSet rt (ValueOfJobOptions jobSpec) "Concurrency" = true ->
  (forall jp,
      applyJobOptions rt df jobSpec basedir job0 = Ok jp ->
      Job.QueueDepth (jobParser.j jp) = JobOptions.Concurrency jobSpec)
  /\ (forall job,
         (0 < JobOptions.Concurrency jobSpec)%N ->
         validateJobSection rt df jobSpec basedir job0 = Ok job ->
         Job.QueueDepth job = JobOptions.Concurrency jobSpec)
  /\ (forall q,
         (forall name, name <> "QueueDepth" ->
            isFieldSet rt (ValueOfJobOptions (withQueueDepthField q jobSpec)) name
            = isFieldSet rt (ValueOfJobOptions jobSpec) name) ->
         validateJobSection rt df (withQueueDepthField q jobSpec) basedir job0
         = validateJobSection rt df jobSpec basedir job0).
Proof.
  intros Hset. repeat split.
  - intros jp Hjp. now apply (applyJobOptions_concurrency rt df _ basedir job0).
  - intros job Hpos. rewrite validateJobSection_checkJob.
    destruct (applyJobOptions rt df jobSpec basedir job0) as [jp |] eqn:Hjp;
      [simpl | discriminate].
    intros H. apply checkJob_Ok in H as (_ & _ & ->).
    apply applyJobOptions_concurrency in Hjp; [| exact Hset].
    destruct (finishJob_fields jp) as (_ & _ & _ & _ & _ & _ & _ & Hd & _).
    rewrite Hd.
    destruct (jobTypes (jobParser.j jp) =? 0) eqn:Hz; [| exact Hjp].
    exfalso. apply Z.eqb_eq in Hz.
    unfold jobTypes, queueDepthMode in Hz. rewrite Hjp in Hz.
    apply N.ltb_lt in Hpos. rewrite Hpos in Hz.
    destruct (logReplay _), (ratePaced _); simpl in Hz; lia.
  - intros q Hsame. rewrite !validateJobSection_checkJob.
    now rewrite applyJobOptions_queueDepth_unused.
Qed.

Lemma concurrency_overrides_queueDepth_witness :
  exists job,
    validateJobSection Sample.runtime Sample.flavor bothDepths "/bench"
      (Job.new "both") = Ok job
    /\ Job.QueueDepth job = 2%N.
Proof.
  eexists. split; [reflexivity |].
  destruct (concurrency_overrides_queueDepth Sample.runtime Sample.flavor
              "/bench" (Job.new "both") bothDepths eq_refl) as (_ & Hjob & _).
  apply Hjob; reflexivity.
Defined.

(** ** The delimiter of the arguments file *)

Example euro_bytes :
  euro = String (ascii_of_nat 226)
           (String (ascii_of_nat 130) (String (ascii_of_nat 172) EmptyString)).
Proof. reflexivity. Qed.

Example euro_decodes : utf8.DecodeRuneInString euro = (8364, 3%nat).
Proof. reflexivity. Qed.

Lemma EncodeRune_ascii (r : Z) :
  0 <= r < 128 -> String.length (utf8.EncodeRune r) = 1%nat.
Proof.
  intros [Hlo Hhi]. unfold utf8.EncodeRune.
  apply Z.leb_le in Hlo. apply Z.ltb_lt in Hhi. now rewrite Hlo, Hhi.
Qed.

Lemma EncodeRune_beyond_ascii (r : Z) :
  ~ 0 <= r < 128 -> (1 < String.length (utf8.EncodeRune r))%nat.
Proof.
  intros Hr. unfold utf8.EncodeRune.
  destruct ((0 <=? r) && (r <? 128)) eqn:H1.
  - exfalso. apply Hr. apply andb_true_iff in H1 as [Ha Hb].
    apply Z.leb_le in Ha. apply Z.ltb_lt in Hb. lia.
  - repeat match goal with
           | |- context [if ?b then _ else _] => destruct b
           end; simpl; lia.
Qed.

(** A section holding a property that its option refuses in every state
    is refused, whatever else it holds. *)
Lemma decodeFrom_refused {S : Type} (errs : goini.Errors)
    (dos : goini.DecodeOptionSet S) (o : goini.DecodeOption S)
    (key value : string) (props : goini.RawSection) :
  In (key, value) props ->
  goini.lookupOption dos key = Some o ->
  (forall s, exists e, goini.Parse o value s = Fail e) ->
  forall seen dst, exists e, goini.decodeFrom errs dos seen props dst = Fail e.
Proof.
  intros Hin Ho Hfail.
  induction props as [| [k v] props IH]; [destruct Hin |].
  intros seen dst. simpl.
  destruct Hin as [[= -> ->] | Hin].
  - rewrite Ho.
    destruct (goini.isUnique (goini.Kind o) && goini.seenBefore seen key);
      [eauto |].
    destruct (Hfail dst) as [e He]. rewrite He. simpl. eauto.
  - destruct (goini.lookupOption dos k) as [o' |]; [| eauto].
    destruct (goini.isUnique (goini.Kind o') && goini.seenBefore seen k);
      [eauto |].
    destruct (goini.Parse o' v dst) as [dst' |]; simpl; [| eauto].
    apply IH, Hin.
Qed.

Lemma foldM_all_Ok {A S : Type} (f : S -> A -> result S) (l : list A) :
  Forall (fun a => forall s, isOk (f s a) = true) l ->
  forall s, isOk (foldM f l s) = true.
Proof.
  induction 1 as [| a l Ha _ IH]; intros s; simpl; [reflexivity |].
  specialize (Ha s). destruct (f s a); [apply IH | discriminate].
Qed.

(** The blocks from [Stop] to [QueryArgsFile], each of which goes through
    under [readsBeforeDelim]. *)
Ltac open_stop :=
  match goal with
  | Hstop : _ -> isOk (time_ParseDuration _ _) = true,
    Hqueries : _ -> Forall _ (JobOptions.Queries _),
    Hfiles : _ -> Forall _ (JobOptions.QueryFiles _),
    Hargs : _ -> isOk (os_Open _ _) = true |- _ =>
    match goal with
    | |- bind (if ?b then _ else _) _ = _ =>
      destruct b;
      [ match goal with
        | |- context [time_ParseDuration ?rt ?v] =>
          destruct (time_ParseDuration rt v); [| discriminate (Hstop eq_refl)]
        end |];
      simpl bind
    end;
    match goal with
    | |- bind (if ?b then _ else _) _ = _ =>
      destruct b;
      [ match goal with
        | |- bind (foldM ?f ?l ?s) _ = _ =>
          let H := fresh in
          assert (H : isOk (foldM f l s) = true);
          [ apply foldM_all_Ok;
            eapply Forall_impl; [apply (Hqueries eq_refl) |];
            let q := fresh in let Hq := fresh in
            intros q Hq ?; simpl in Hq; rewrite Hq; reflexivity
          | destruct (foldM f l s); [| discriminate H] ]
        end |];
      simpl bind
    end;
    match goal with
    | |- bind (if ?b then _ else _) _ = _ =>
      destruct b;
      [ match goal with
        | |- bind (foldM ?f ?l ?s) _ = _ =>
          let H := fresh in
          assert (H : isOk (foldM f l s) = true);
          [ apply foldM_all_Ok;
            eapply Forall_impl; [apply (Hfiles eq_refl) |];
            let q := fresh in let Hq := fresh in
            intros q Hq ?; simpl in Hq;
            match type of Hq with
            | isOk ?m = true => destruct m; [reflexivity | discriminate Hq]
            end
          | destruct (foldM f l s); [| discriminate H] ]
        end |];
      simpl bind
    end;
    match goal with
    | |- bind (if ?b then _ else _) _ = _ =>
      destruct b;
      [ match goal with
        | |- context [os_Open ?rt ?v] =>
          destruct (os_Open rt v); [| discriminate (Hargs eq_refl)]
        end |];
      simpl bind
    end;
    reflexivity
  end.

Lemma applyJobOptions_delimiter (rt : Runtime) (df : DatabaseFlavor)
    (jobSpec : JobOptions.t) (basedir : string) (job0 : Job.t) :
  isFieldSet rt (ValueOfJobOptions jobSpec) "QueryArgsDelim" = true ->
  String.length (JobOptions.QueryArgsDelim jobSpec) <> 1%nat ->
  (exists e, applyJobOptions rt df jobSpec basedir job0 = Fail e)
  /\ (readsBeforeDelim rt df jobSpec basedir ->
      applyJobOptions rt df jobSpec basedir job0 = Fail (New oneCharacter)).
Proof.
  intros Hset Hlen. apply Nat.eqb_neq in Hlen.
  unfold applyJobOptions. rewrite Hset, Hlen. simpl negb. cbv iota.
  split.
  - repeat match goal with
           | |- exists e, bind ?m _ = Fail e =>
             destruct m as [? |]; simpl bind; [| eauto]
           end.
    eauto.
  - intros (Hstart & Hstop & Hqueries & Hfiles & Hargs).
    destruct (isFieldSet rt _ "Start").
    { destruct (time_ParseDuration rt (JobOptions.Start jobSpec));
        [| discriminate (Hstart eq_refl)].
      simpl bind. open_stop. }
    simpl bind. open_stop.
Qed.

Example euro_refused_in_ini :
  decodeJobSection Sample.runtime Sample.flavor
    [("query", "select 1"); ("query-args-file", "args.csv");
     ("query-args-delim", Sample.quote euro)] "/bench" (Job.new "args")
  = Fail (New oneCharacter).
Proof. reflexivity. Qed.

Example bare_comma_refused_in_ini :
  decodeJobSection Sample.runtime Sample.flavor
    [("query", "select 1"); ("query-args-file", "args.csv");
     ("query-args-delim", ",")] "/bench" (Job.new "args")
  = Fail (New "invalid syntax").
Proof. reflexivity. Qed.

Example quoted_semicolon_accepted_in_ini :
  Job.QueryArgs <$>
    (match decodeJobSection Sample.runtime Sample.flavor
             [("query", "select 1"); ("query-args-file", "args.csv");
              ("query-args-delim", Sample.quote ";")] "/bench"
             (Job.new "args") with
     | Ok job => Some job
     | Fail _ => None
     end)
  = Some (Some {| csvSource := FileAt "/bench/args.csv"; Comma := 59 |}).
Proof. reflexivity. Qed.

(** C10.  Both parsers count the bytes of the delimiter.  A delimiter made
    of one character outside ASCII takes two to four bytes in UTF-8, so:
    the JSON validator rejects a job whose [queryArgsDelim] is that
    character, and the error is "Must provide exactly one character for
    delimiter" when the blocks read before it go through; the INI option
    answers with the same error when its value unquotes to that
    character; and the INI option first passes its value through
    [strconv.Unquote], whose error it returns.  A section holding such a
    [query-args-delim] is rejected. *)
Theorem delimiter_is_one_byte
    (rt : Runtime) (df : DatabaseFlavor) (basedir : string) (job0 : Job.t)
    (r : Z) :
  128 <= r ->
  let delim := utf8.EncodeRune r in
  (1 < String.length delim)%nat
  /\ (forall jobSpec,
         isFieldSet rt (ValueOfJobOptions jobSpec) "QueryArgsDelim" = true ->
         JobOptions.QueryArgsDelim jobSpec = delim ->
         (exists e, validateJobSection rt df jobSpec basedir job0 = Fail e)
         /\ (readsBeforeDelim rt df jobSpec basedir ->
             validateJobSection rt df jobSpec basedir job0
             = Fail (New oneCharacter)))
  /\ (forall o,
         goini.lookupOption (jobOptions rt) "query-args-delim" = Some o ->
         forall v jp,
           (strconv_Unquote rt v = Ok delim ->
            goini.Parse o v jp = Fail (New oneCharacter))
           /\ (forall e, strconv_Unquote rt v = Fail e ->
                         goini.Parse o v jp = Fail e))
  /\ (forall section v,
         In ("query-args-delim", v) section ->
         strconv_Unquote rt v = Ok delim
         \/ isOk (strconv_Unquote rt v) = false ->
         exists e, decodeJobSection rt df section basedir job0 = Fail e).
Proof.
  intros Hr delim.
  assert (Hlen : (1 < String.length delim)%nat)
    by (apply EncodeRune_beyond_ascii; lia).
  assert (Hneq : (String.length delim =? 1)%nat = false)
    by (apply Nat.eqb_neq; lia).
  split; [exact Hlen |]. split; [| split].
  - intros jobSpec Hset Hdelim. rewrite validateJobSection_checkJob.
    destruct (applyJobOptions_delimiter rt df jobSpec basedir job0 Hset)
      as [[e He] Hexact]; [rewrite Hdelim; lia |].
    split.
    + exists e. now rewrite He.
    + intros Hreads. now rewrite (Hexact Hreads).
  - intros o [= <-] v jp. simpl. split.
    + intros ->. simpl. now rewrite Hneq.
    + intros e ->. reflexivity.
  - intros section v Hin Hv. rewrite decodeJobSection_checkJob.
    destruct (decodeFrom_refused (goini_errors rt) (jobOptions rt) _
                "query-args-delim" v section Hin eq_refl) with
      (seen := @nil string) (dst := jobParser.make job0 df basedir)
      as [e He].
    + intros jp. simpl. destruct Hv as [-> | Hv].
      * simpl. rewrite Hneq. simpl. eauto.
      * destruct (strconv_Unquote rt v); [discriminate | simpl; eauto].
    + exists e. unfold goini.Decode. now rewrite He.
Qed.

Lemma delimiter_is_one_byte_witness :
  validateJobSection Sample.runtime Sample.flavor euroDelimited "/bench"
    (Job.new "args")
  = Fail (New oneCharacter).
Proof.
  destruct (delimiter_is_one_byte Sample.runtime Sample.flavor "/bench"
              (Job.new "args") 8364 ltac:(lia)) as (_ & Hjson & _).
  destruct (Hjson euroDelimited eq_refl eq_refl) as [_ Hexact].
  apply Hexact. repeat split; intros H; try discriminate H.
  repeat constructor.
Defined.

(** ** The runner: setup, statistics, teardown *)

Section RunnerFacts.

Context {DB JobStats : Type}.
Variable rt : Runtime.
Variable w : Runner.World DB JobStats.

Local Abbreviation trace := (list (Runner.event JobStats)).

Lemma setupLoop_all (qs : list string) (db db' : DB) :
  runAll w db qs = Some db' ->
  Runner.setupLoop rt w db qs
  = (map (Runner.RunQuery Runner.SetupPhase) qs, Some db').
Proof.
  revert db. induction qs as [| q qs IH]; intros db; simpl.
  - now intros [= ->].
  - destruct (Runner.db_RunQuery w db q) as [[err |] db1]; [discriminate |].
    intros H. now rewrite (IH _ H).
Qed.

Lemma setupLoop_stops (pre post : list string) (q : string) (db db1 db2 : DB)
    (err : error) :
  runAll w db pre = Some db1 ->
  Runner.db_RunQuery w db1 q = (Some err, db2) ->
  Runner.setupLoop rt w db (pre ++ q :: post)
  = (map (Runner.RunQuery Runner.SetupPhase) pre
       ++ [Runner.RunQuery Runner.SetupPhase q;
           Runner.LogFatalf (setupFatal rt q err)], None).
Proof.
  revert db. induction pre as [| p pre IH]; intros db; simpl.
  - intros [= ->] ->. reflexivity.
  - destruct (Runner.db_RunQuery w db p) as [[e |] db']; [discriminate |].
    intros H Hq. now rewrite (IH _ H Hq).
Qed.

Lemma teardownLoop_all (qs : list string) (db db' : DB) :
  runAll w db qs = Some db' ->
  Runner.teardownLoop rt w db qs
  = (map (Runner.RunQuery Runner.TeardownPhase) qs, Some db').
Proof.
  revert db. induction qs as [| q qs IH]; intros db; simpl.
  - now intros [= ->].
  - destruct (Runner.db_RunQuery w db q) as [[err |] db1]; [discriminate |].
    intros H. now rewrite (IH _ H).
Qed.

Lemma teardownLoop_stops (pre post : list string) (q : string)
    (db db1 db2 : DB) (err : error) :
  runAll w db pre = Some db1 ->
  Runner.db_RunQuery w db1 q = (Some err, db2) ->
  Runner.teardownLoop rt w db (pre ++ q :: post)
  = (map (Runner.RunQuery Runner.TeardownPhase) pre
       ++ [Runner.RunQuery Runner.TeardownPhase q;
           Runner.LogFatalf (teardownFatal rt q err)], None).
Proof.
  revert db. induction pre as [| p pre IH]; intros db; simpl.
  - intros [= ->] ->. reflexivity.
  - destruct (Runner.db_RunQuery w db p) as [[e |] db']; [discriminate |].
    intros H Hq. now rewrite (IH _ H Hq).
Qed.

(** A run up to the moment teardown begins, when nothing went wrong. *)
Lemma runTest_until_teardown (db db1 db2 : DB) (df : DatabaseFlavor)
    (config : Config.t) (testStats : gmap string JobStats) :
  runAll w db (Config.Setup config) = Some db1 ->
  Runner.drivers w db1 config = (testStats, db2) ->
  statsWritten w testStats ->
  Runner.runTest rt w db df config
  = (let '(tr, r) :=
       if (0 <? length (Config.Teardown config))%nat
       then let '(tr, r) := Runner.teardownLoop rt w db2 (Config.Teardown config) in
            (Runner.LogPrintf "Performing teardown" :: tr, r)
       else ([], Some db2) in
     (setupTrace (Config.Setup config) ++ statsTrace w testStats ++ tr,
      match r with None => Runner.Exited 1 | Some _ => Runner.Returned end)).
Proof.
  intros Hsetup Hdrivers Hwritten.
  unfold Runner.runTest, setupTrace, statsTrace.
  rewrite (setupLoop_all _ _ _ Hsetup).
  assert (Hdb : (if (0 <? length (Config.Setup config))%nat
                 then Some db1 else Some db) = Some db1).
  { destruct (Config.Setup config); simpl in *; [congruence | reflexivity]. }
  destruct (0 <? length (Config.Setup config))%nat; simpl;
    [| injection Hdb as ->]; rewrite Hdrivers.
  all: unfold statsWritten, Runner.writeStatsToFile in *.
  all: destruct (0 <? String.length (Runner.JsonOutputFile w))%nat;
    [destruct (Hwritten eq_refl) as [-> ->] |]; simpl.
  all: destruct (0 <? length (Config.Teardown config))%nat;
    [destruct (Runner.teardownLoop rt w db2 (Config.Teardown config))
       as [tr [db3 |]] |]; simpl.
  all: rewrite <- ?app_assoc; reflexivity.
Qed.

End RunnerFacts.

Example run_without_errors :
  Runner.runTest Sample.runtime SampleRun.world [] Sample.flavor
    (SampleRun.config ["create table t"] ["drop table t"])
  = ([Runner.LogPrintf "Performing setup";
      Runner.RunQuery Runner.SetupPhase "create table t";
      Runner.RunJobs;
      Runner.LogStats "smoke" 3%N;
      Runner.LogPrintf "Performing teardown";
      Runner.RunQuery Runner.TeardownPhase "drop table t"],
     Runner.Returned).
Proof. reflexivity. Qed.

(** C5.  When a setup query returns an error, the run ends at that query:
    the error is logged by [log.Fatalf], which exits the process with
    status 1.  The run shows the setup queries up to the failing one and
    nothing else: no driver is started, no statistics are logged or
    written, no teardown query is sent. *)
Theorem setup_error_is_fatal {DB JobStats : Type}
    (rt : Runtime) (w : Runner.World DB JobStats) (df : DatabaseFlavor)
    (config : Config.t) (db db1 db2 : DB) (pre post : list string)
    (q : string) (err : error) :
  Config.Setup config = pre ++ q :: post ->
  runAll w db pre = Some db1 ->
  Runner.db_RunQuery w db1 q = (Some err, db2) ->
  Runner.runTest rt w db df config
  = (Runner.LogPrintf "Performing setup"
       :: map (Runner.RunQuery Runner.SetupPhase) pre
       ++ [Runner.RunQuery Runner.SetupPhase q;
           Runner.LogFatalf (setupFatal rt q err)],
     Runner.Exited 1)
  /\ Forall beforeDrivers (fst (Runner.runTest rt w db df config)).
Proof.
  intros Hsetup Hpre Hq.
  assert (Hrun : Runner.runTest rt w db df config
                 = (Runner.LogPrintf "Performing setup"
                      :: map (Runner.RunQuery Runner.SetupPhase) pre
                      ++ [Runner.RunQuery Runner.SetupPhase q;
                          Runner.LogFatalf (setupFatal rt q err)],
                    Runner.Exited 1)).
  { unfold Runner.runTest. rewrite Hsetup.
    rewrite (setupLoop_stops rt w pre post q db db1 db2 err Hpre Hq).
    rewrite length_app. simpl.
    replace (0 <? length pre + S (length post))%nat with true
      by (symmetry; apply Nat.ltb_lt; lia).
    reflexivity. }
  split; [exact Hrun |].
  rewrite Hrun. simpl. constructor; [exact I |].
  apply Forall_app. split.
  - apply Forall_map. apply Forall_forall. intros ? _. exact I.
  - repeat constructor.
Qed.

Lemma setup_error_is_fatal_witness :
  Runner.runTest Sample.runtime SampleRun.world [] Sample.flavor
    (SampleRun.config ["create table t"; "drop table missing"; "create table u"]
       ["drop table t"])
  = ([Runner.LogPrintf "Performing setup";
      Runner.RunQuery Runner.SetupPhase "create table t";
      Runner.RunQuery Runner.SetupPhase "drop table missing";
      Runner.LogFatalf
        (setupFatal Sample.runtime "drop table missing"
           (New "table does not exist"))],
     Runner.Exited 1).
Proof.
  apply (setup_error_is_fatal Sample.runtime SampleRun.world Sample.flavor
           (SampleRun.config
              ["create table t"; "drop table missing"; "create table u"]
              ["drop table t"])
           [] ["create table t"] ["create table t"]
           ["create table t"] ["create table u"] "drop table missing"
           (New "table does not exist")); vm_compute; reflexivity.
Defined.

(** The specification calls a teardown error "reported, never fatal".
    Here the drivers have returned and the statistics are logged; the first
    teardown query fails, and the run ends there with status 1: the second
    teardown query is never sent. *)
Lemma teardown_error_aborts_the_run :
  Runner.runTest Sample.runtime SampleRun.world [] Sample.flavor
    (SampleRun.config [] ["drop table missing"; "drop table t"])
  = ([Runner.RunJobs;
      Runner.LogStats "smoke" 3%N;
      Runner.LogPrintf "Performing teardown";
      Runner.RunQuery Runner.TeardownPhase "drop table missing";
      Runner.LogFatalf
        (teardownFatal Sample.runtime "drop table missing"
           (New "table does not exist"))],
     Runner.Exited 1)
  /\ ~ In (Runner.RunQuery Runner.TeardownPhase "drop table t")
          (fst (Runner.runTest Sample.runtime SampleRun.world []
                  Sample.flavor
                  (SampleRun.config [] ["drop table missing"; "drop table t"]))).
Proof.
  split; [vm_compute; reflexivity |].
  vm_compute. intros [H | [H | [H | [H | [H | []]]]]]; discriminate H.
Qed.

(** C3, as the code has it.  Once setup has gone through, the drivers have
    returned and the statistics are logged (and written, when a file was
    asked for), the teardown queries are sent in order.  The first one
    that returns an error is logged by [log.Fatalf], which exits the
    process with status 1: the teardown queries after it are not sent.
    The statistics were emitted before teardown began, so the error takes
    nothing back from them.  When no teardown query fails, [runTest]
    returns. *)
Theorem teardown_error_is_fatal {DB JobStats : Type}
    (rt : Runtime) (w : Runner.World DB JobStats) (df : DatabaseFlavor)
    (config : Config.t) (db db1 db2 : DB) (testStats : gmap string JobStats) :
  runAll w db (Config.Setup config) = Some db1 ->
  Runner.drivers w db1 config = (testStats, db2) ->
  statsWritten w testStats ->
  (forall pre q post db3 db4 err,
      Config.Teardown config = pre ++ q :: post ->
      runAll w db2 pre = Some db3 ->
      Runner.db_RunQuery w db3 q = (Some err, db4) ->
      Runner.runTest rt w db df config
      = (setupTrace (Config.Setup config) ++ statsTrace w testStats
           ++ Runner.LogPrintf "Performing teardown"
           :: map (Runner.RunQuery Runner.TeardownPhase) pre
           ++ [Runner.RunQuery Runner.TeardownPhase q;
               Runner.LogFatalf (teardownFatal rt q err)],
         Runner.Exited 1))
  /\ (forall db3,
         runAll w db2 (Config.Teardown config) = Some db3 ->
         Runner.runTest rt w db df config
         = (setupTrace (Config.Setup config) ++ statsTrace w testStats
              ++ teardownTrace (Config.Teardown config),
            Runner.Returned)).
Proof.
  intros Hsetup Hdrivers Hwritten.
  rewrite (runTest_until_teardown rt w db db1 db2 df config testStats
             Hsetup Hdrivers Hwritten).
  split.
  - intros pre q post db3 db4 err Hteardown Hpre Hq. rewrite Hteardown.
    rewrite (teardownLoop_stops rt w pre post q db2 db3 db4 err Hpre Hq).
    rewrite length_app. simpl.
    replace (0 <? length pre + S (length post))%nat with true
      by (symmetry; apply Nat.ltb_lt; lia).
    reflexivity.
  - intros db3 Hall. unfold teardownTrace.
    rewrite (teardownLoop_all rt w _ _ _ Hall).
    destruct (0 <? length (Config.Teardown config))%nat; reflexivity.
Qed.

Lemma teardown_error_is_fatal_witness :
  Runner.runTest Sample.runtime SampleRun.world [] Sample.flavor
    (SampleRun.config ["create table t"] ["drop table t"; "drop table missing"])
  = ([Runner.LogPrintf "Performing setup";
      Runner.RunQuery Runner.SetupPhase "create table t";
      Runner.RunJobs;
      Runner.LogStats "smoke" 3%N;
      Runner.LogPrintf "Performing teardown";
      Runner.RunQuery Runner.TeardownPhase "drop table t";
      Runner.RunQuery Runner.TeardownPhase "drop table missing";
      Runner.LogFatalf
        (teardownFatal Sample.runtime "drop table missing"
           (New "table does not exist"))],
     Runner.Exited 1).
Proof.
  destruct (teardown_error_is_fatal Sample.runtime SampleRun.world
              Sample.flavor
              (SampleRun.config ["create table t"]
                 ["drop table t"; "drop table missing"])
              [] ["create table t"] ["create table t"] {[ "smoke" := 3%N ]}
              eq_refl eq_refl)
    as [Hfatal _].
  - intros H. discriminate H.
  - rewrite (Hfatal ["drop table t"] "drop table missing" []
               ["create table t"; "drop table t"]
               ["create table t"; "drop table t"]
               (New "table does not exist") eq_refl eq_refl eq_refl).
    vm_compute. reflexivity.
Defined.

(** ** Start and stop offsets against the duration of the test *)

Section Offsets.

Variable rt : Runtime.

Lemma parseIniConfig_checkOffsets (df : DatabaseFlavor)
    (iniConfig : goini.RawConfig) (basedir : string) :
  parseIniConfig rt df iniConfig basedir
  = attempt config := parseIniSections rt df iniConfig basedir in
    checkOffsets rt config.
Proof. reflexivity. Qed.

Lemma parseJSONConfig_checkOffsets (df : DatabaseFlavor)
    (jsonConfig : JSONConfig.t) (basedir : string) :
  parseJSONConfig rt df jsonConfig basedir
  = attempt config := parseJSONSections rt df jsonConfig basedir in
    checkOffsets rt config.
Proof. reflexivity. Qed.

Lemma offsets_loop (duration : Z) (jobs : list (string * Job.t)) :
  0 < duration ->
  match foldM (checkOffset rt duration) jobs tt with
  | Ok _ => Forall (fun entry => ~ late duration (snd entry)) jobs
  | Fail e =>
    exists name job,
      In (name, job) jobs
      /\ ((duration < Job.Start job /\ e = startsLate rt name)
          \/ (duration < Job.Stop job /\ e = stopsLate rt name))
  end.
Proof.
  intros Hpos. apply Z.ltb_lt in Hpos as Hpos'.
  induction jobs as [| [name job] jobs IH]; simpl; [constructor |].
  rewrite Hpos'. simpl.
  destruct (duration <? Job.Start job) eqn:Hstart; simpl.
  { apply Z.ltb_lt in Hstart. exists name, job. auto. }
  apply Z.ltb_ge in Hstart. rewrite andb_true_r.
  destruct ((0 <? Job.Stop job) && (duration <? Job.Stop job)) eqn:Hstop; simpl.
  { apply andb_true_iff in Hstop as [_ Hstop]. apply Z.ltb_lt in Hstop.
    exists name, job. auto. }
  assert (Hok : ~ late duration job).
  { unfold late. intros [H | H]; [lia |].
    apply andb_false_iff in Hstop as [Hs | Hs]; apply Z.ltb_ge in Hs; lia. }
  destruct (foldM (checkOffset rt duration) jobs tt) as [[] | e].
  - constructor; [exact Hok | exact IH].
  - destruct IH as (n & jb & Hin & Hcase).
    exists n, jb. split; [now right | exact Hcase].
Qed.

Lemma checkOffsets_spec (config : Config.t) :
  0 < Config.Duration config ->
  match checkOffsets rt config with
  | Ok config' =>
    config' = config
    /\ forall name job, Config.Jobs config !! name = Some job ->
                        ~ late (Config.Duration config) job
  | Fail e =>
    exists name job,
      Config.Jobs config !! name = Some job
      /\ ((Config.Duration config < Job.Start job /\ e = startsLate rt name)
          \/ (Config.Duration config < Job.Stop job /\ e = stopsLate rt name))
  end.
Proof.
  intros Hpos. unfold checkOffsets.
  pose proof (offsets_loop (Config.Duration config)
                (map_to_list (Config.Jobs config)) Hpos) as Hloop.
  destruct (foldM _ (map_to_list (Config.Jobs config)) tt) as [[] | e]; simpl.
  - split; [reflexivity |]. intros name job Hjob.
    rewrite Forall_forall in Hloop.
    apply (Hloop (name, job)).
    apply elem_of_map_to_list, Hjob.
  - destruct Hloop as (name & job & Hin & Hcase). exists name, job.
    split; [| exact Hcase].
    apply elem_of_map_to_list, list_elem_of_In, Hin.
Qed.

End Offsets.

Lemma checkOffsets_outcomes (rt : Runtime) (config : Config.t) :
  0 < Config.Duration config ->
  ((exists e, checkOffsets rt config = Fail e)
   <-> exists name job,
         Config.Jobs config !! name = Some job
         /\ late (Config.Duration config) job)
  /\ (forall e,
         checkOffsets rt config = Fail e ->
         exists name job,
           Config.Jobs config !! name = Some job
           /\ ((Config.Duration config < Job.Start job
                /\ e = startsLate rt name)
               \/ (Config.Duration config < Job.Stop job
                   /\ e = stopsLate rt name)))
  /\ (forall config',
         checkOffsets rt config = Ok config' ->
         config' = config
         /\ forall name job,
              Config.Jobs config' !! name = Some job ->
              Job.Start job <= Config.Duration config'
              /\ Job.Stop job <= Config.Duration config').
Proof.
  intros Hpos. pose proof (checkOffsets_spec rt config Hpos) as Hspec.
  destruct (checkOffsets rt config) as [config1 | e1].
  - destruct Hspec as [-> Hjobs]. split; [split |split].
    + intros [e He]. discriminate He.
    + intros (name & job & Hjob & Hlate). destruct (Hjobs name job Hjob Hlate).
    + intros e He. discriminate He.
    + intros config' [= <-]. split; [reflexivity |].
      intros name job Hjob. specialize (Hjobs name job Hjob).
      unfold late in Hjobs. lia.
  - destruct Hspec as (name & job & Hjob & Hcase). split; [split |split].
    + intros _. exists name, job. split; [exact Hjob |].
      unfold late. destruct Hcase as [[H _] | [H _]]; auto.
    + intros _. eauto.
    + intros e' [= <-]. exists name, job. auto.
    + intros config' H. discriminate H.
Qed.

(** C6.  Once the sections of a configuration have been read and its
    duration is above zero, the parser returns an error exactly when some
    job starts or stops after the duration; the error names such a job and
    says that it "starts after test finishes" or "stops after test
    finishes".  An accepted configuration is the one that was read, and
    each of its jobs starts and stops within the duration.  This holds for
    the INI parser and for the JSON parser. *)
Theorem offsets_within_duration
    (rt : Runtime) (df : DatabaseFlavor) (basedir : string) :
  (forall iniConfig config,
      parseIniSections rt df iniConfig basedir = Ok config ->
      0 < Config.Duration config ->
      ((exists e, parseIniConfig rt df iniConfig basedir = Fail e)
       <-> exists name job,
             Config.Jobs config !! name = Some job
             /\ late (Config.Duration config) job)
      /\ (forall e,
             parseIniConfig rt df iniConfig basedir = Fail e ->
             exists name job,
               Config.Jobs config !! name = Some job
               /\ ((Config.Duration config < Job.Start job
                    /\ e = startsLate rt name)
                   \/ (Config.Duration config < Job.Stop job
                       /\ e = stopsLate rt name)))
      /\ (forall config',
             parseIniConfig rt df iniConfig basedir = Ok config' ->
             config' = config
             /\ forall name job,
                  Config.Jobs config' !! name = Some job ->
                  Job.Start job <= Config.Duration config'
                  /\ Job.Stop job <= Config.Duration config'))
  /\ (forall jsonConfig config,
         parseJSONSections rt df jsonConfig basedir = Ok config ->
         0 < Config.Duration config ->
         ((exists e, parseJSONConfig rt df jsonConfig basedir = Fail e)
          <-> exists name job,
                Config.Jobs config !! name = Some job
                /\ late (Config.Duration config) job)
         /\ (forall e,
                parseJSONConfig rt df jsonConfig basedir = Fail e ->
                exists name job,
                  Config.Jobs config !! name = Some job
                  /\ ((Config.Duration config < Job.Start job
                       /\ e = startsLate rt name)
                      \/ (Config.Duration config < Job.Stop job
                          /\ e = stopsLate rt name)))
         /\ (forall config',
                parseJSONConfig rt df jsonConfig basedir = Ok config' ->
                config' = config
                /\ forall name job,
                     Config.Jobs config' !! name = Some job ->
                     Job.Start job <= Config.Duration config'
                     /\ Job.Stop job <= Config.Duration config')).
Proof.
  split.
  - intros iniConfig config Hread Hpos.
    rewrite parseIniConfig_checkOffsets, Hread. simpl bind.
    now apply checkOffsets_outcomes.
  - intros jsonConfig config Hread Hpos.
    rewrite parseJSONConfig_checkOffsets, Hread. simpl bind.
    now apply checkOffsets_outcomes.
Qed.

Example late_start_refused :
  parseConfig Sample.runtime Sample.flavor "/bench/late.ini" "/bench"
  = Fail (startsLate Sample.runtime "late").
Proof. vm_compute. reflexivity. Qed.

Lemma offsets_within_duration_witness :
  exists e,
    parseIniConfig Sample.runtime Sample.flavor Sample.lateStart "/bench"
    = Fail e.
Proof.
  destruct (offsets_within_duration Sample.runtime Sample.flavor "/bench")
    as [Hini _].
  edestruct (Hini Sample.lateStart) as [Hiff _].
  - vm_compute. reflexivity.
  - vm_compute. reflexivity.
  - apply Hiff. exists "late". eexists. split.
    + vm_compute. reflexivity.
    + left. vm_compute. reflexivity.
Defined.

(** The specification wants [0 <= start <= stop] for every job of an
    accepted configuration.  Both parsers accept this one, in either
    syntax: the job [early] starts a second before the test and the job
    [backwards] stops a second before it starts. *)
Lemma odd_offsets_accepted :
  (exists config early backwards,
      parseConfig Sample.runtime Sample.flavor "/bench/odd.ini" "/bench"
      = Ok config
      /\ Config.Jobs config !! "early" = Some early
      /\ Job.Start early < 0
      /\ Config.Jobs config !! "backwards" = Some backwards
      /\ Job.Stop backwards < Job.Start backwards)
  /\ (exists config early backwards,
         parseConfig Sample.runtime Sample.flavor "/bench/odd.json" "/bench"
         = Ok config
         /\ Config.Jobs config !! "early" = Some early
         /\ Job.Start early < 0
         /\ Config.Jobs config !! "backwards" = Some backwards
         /\ Job.Stop backwards < Job.Start backwards).
Proof.
  split; do 3 eexists.
  all: split; [vm_compute; reflexivity |].
  all: split; [vm_compute; reflexivity |].
  all: split; [vm_compute; reflexivity |].
  all: split; vm_compute; reflexivity.
Qed.

(** C4, as the code has it.  The offsets of a job are only held against
    the duration of the test: in a configuration accepted by [parseConfig]
    whose duration is above zero, every job starts and stops no later than
    the duration.  Neither parser compares [start] with zero or with
    [stop]. *)
Theorem offsets_checked_against_duration_only
    (rt : Runtime) (df : DatabaseFlavor) (configFile baseDir : string)
    (config : Config.t) :
  parseConfig rt df configFile baseDir = Ok config ->
  0 < Config.Duration config ->
  forall name job,
    Config.Jobs config !! name = Some job ->
    Job.Start job <= Config.Duration config
    /\ Job.Stop job <= Config.Duration config.
Proof.
  unfold parseConfig. intros Hparse Hpos.
  destruct (isJSONFile rt configFile).
  - destruct (ioutil_ReadFile rt configFile); [simpl in Hparse | discriminate].
    destruct (json_Unmarshal rt a) as [jsonConfig |];
      [simpl in Hparse | discriminate].
    rewrite parseJSONConfig_checkOffsets in Hparse.
    destruct (parseJSONSections rt df jsonConfig baseDir) as [read |];
      [simpl in Hparse | discriminate].
    assert (read = config) as ->.
    { unfold checkOffsets in Hparse.
      destruct (foldM _ _ _); [now injection Hparse | discriminate]. }
    now apply (checkOffsets_outcomes rt config Hpos).
  - destruct (goini_ParseFile rt configFile) as [iniConfig |];
      [simpl in Hparse | discriminate].
    rewrite parseIniConfig_checkOffsets in Hparse.
    destruct (parseIniSections rt df iniConfig baseDir) as [read |];
      [simpl in Hparse | discriminate].
    assert (read = config) as ->.
    { unfold checkOffsets in Hparse.
      destruct (foldM _ _ _); [now injection Hparse | discriminate]. }
    now apply (checkOffsets_outcomes rt config Hpos).
Qed.

Lemma offsets_checked_against_duration_only_witness :
  exists config,
    parseConfig Sample.runtime Sample.flavor "/bench/odd.ini" "/bench"
    = Ok config
    /\ forall name job,
         Config.Jobs config !! name = Some job ->
         Job.Start job <= Config.Duration config
         /\ Job.Stop job <= Config.Duration config.
Proof.
  eexists. split; [vm_compute; reflexivity |].
  apply (offsets_checked_against_duration_only Sample.runtime Sample.flavor
           "/bench/odd.ini" "/bench").
  - vm_compute. reflexivity.
  - vm_compute. reflexivity.
Defined.

(** ** Rate and batch size *)

(** C7 at the input [rate=NaN], [batch-size=5].  [strconv.ParseFloat]
    reads "NaN" as the float that is neither below, equal to nor above
    zero, so the option does not call it negative, the check of batch size
    against rate does not see a rate of zero, and the count of job types
    sees no rate: the job is accepted as a queue-depth job with a batch
    size of 5 and a rate for which neither [rate >= 0] nor [rate > 0]
    holds. *)
Theorem nan_rate_accepted :
  exists job,
    decodeJobSection Sample.runtime Sample.flavor
      [("query", "select 1"); ("rate", "NaN"); ("batch-size", "5")]
      "/bench" (Job.new "nan") = Ok job
    /\ Job.Rate job = S754_nan
    /\ Job.BatchSize job = 5%N
    /\ Job.QueueDepth job = 1%N
    /\ SFleb zero64 (Job.Rate job) = false
    /\ SFltb zero64 (Job.Rate job) = false.
Proof.
  eexists. split; [vm_compute; reflexivity |].
  repeat split; reflexivity.
Qed.

(** ** The two syntaxes of a job *)

(** *** Walking through a section, block by block *)

Lemma seenBefore_markSeen (present : bool) (key key' : string)
    (seen : list string) :
  goini.seenBefore (markSeen present key seen) key'
  = (present && String.eqb key' key) || goini.seenBefore seen key'.
Proof. destruct present; reflexivity. Qed.

Section Blocks.

Context {S : Type}.
Variable errs : goini.Errors.
Variable dos : goini.DecodeOptionSet S.

Lemma decode_property (o : goini.DecodeOption S) (present : bool)
    (key value : string) (seen : list string) (rest : goini.RawSection)
    (dst : S) :
  goini.lookupOption dos key = Some o ->
  goini.Kind o = goini.UniqueOption ->
  goini.seenBefore seen key = false ->
  goini.decodeFrom errs dos seen (property present key value ++ rest) dst
  = attempt dst' := (if present then goini.Parse o value dst else Ok dst) in
    goini.decodeFrom errs dos (markSeen present key seen) rest dst'.
Proof.
  intros Ho Hkind Hseen. destruct present; [| reflexivity].
  simpl. now rewrite Ho, Hkind, Hseen.
Qed.

Lemma decode_properties (o : goini.DecodeOption S) (present : bool)
    (key : string) (values : list string) (seen : list string)
    (rest : goini.RawSection) (dst : S) :
  goini.lookupOption dos key = Some o ->
  goini.Kind o = goini.MultiOption ->
  goini.decodeFrom errs dos seen (properties present key values ++ rest) dst
  = attempt dst' :=
      (if present then foldM (fun d v => goini.Parse o v d) values dst
       else Ok dst) in
    goini.decodeFrom errs dos seen rest dst'.
Proof.
  intros Ho Hkind. destruct present; [| reflexivity].
  simpl. revert dst.
  induction values as [| v values IH]; intros dst; simpl; [reflexivity |].
  rewrite Ho, Hkind. simpl.
  destruct (goini.Parse o v dst); simpl; [apply IH | reflexivity].
Qed.

End Blocks.

(** *** A JSON job written as an INI section *)

Lemma jobOptions_anchored (rt : Runtime) (df : DatabaseFlavor)
    (basedir key value : string) (o : goini.DecodeOption jobParser.t)
    (jp jp' : jobParser.t) :
  key <> "multi-query-mode" ->
  goini.lookupOption (jobOptions rt) key = Some o ->
  goini.Parse o value jp = Ok jp' ->
  anchored df basedir jp -> anchored df basedir jp'.
Proof.
  intros Hkey. unfold jobOptions. cbn [goini.lookupOption].
  repeat match goal with
         | |- (if String.eqb ?k key then _ else _) = Some _ -> _ =>
           destruct (String.eqb_spec k key)
         end.
  all: try discriminate.
  all: try (exfalso; apply Hkey; symmetry; assumption).
  all: intros [= <-]; simpl.
  all: repeat match goal with
              | |- context [bind ?m _] => destruct m; simpl
              | |- context [match ?m with Some _ => _ | None => _ end] =>
                destruct m; simpl
              | |- context [if ?b then _ else _] => destruct b; simpl
              end.
  all: try discriminate.
  all: intros [= <-]; intros (? & ? & ?); repeat split; assumption.
Qed.

Lemma queries_anchored (rt : Runtime) (df : DatabaseFlavor)
    (basedir key : string) (o : goini.DecodeOption jobParser.t)
    (values : list string) (jp jp' : jobParser.t) :
  key <> "multi-query-mode" ->
  goini.lookupOption (jobOptions rt) key = Some o ->
  foldM (fun d v => goini.Parse o v d) values jp = Ok jp' ->
  anchored df basedir jp -> anchored df basedir jp'.
Proof.
  intros Hkey Ho. revert jp.
  induction values as [| v values IH]; intros jp; simpl.
  - now intros [= <-].
  - destruct (goini.Parse o v jp) as [jp1 |] eqn:Hv; [simpl | discriminate].
    intros Hrest Hjp. apply (IH jp1 Hrest).
    now apply (jobOptions_anchored rt df basedir key v o jp jp1).
Qed.

Lemma block_anchored (rt : Runtime) (df : DatabaseFlavor)
    (basedir key value : string) (o : goini.DecodeOption jobParser.t)
    (present : bool) (jp jp' : jobParser.t) :
  key <> "multi-query-mode" ->
  goini.lookupOption (jobOptions rt) key = Some o ->
  anchored df basedir jp ->
  (if present then goini.Parse o value jp else Ok jp) = Ok jp' ->
  anchored df basedir jp'.
Proof.
  intros Hkey Ho Hjp. destruct present.
  - intros Hparse. now apply (jobOptions_anchored rt df basedir key value o jp jp').
  - now intros [= <-].
Qed.

Lemma blocks_anchored (rt : Runtime) (df : DatabaseFlavor)
    (basedir key : string) (values : list string)
    (o : goini.DecodeOption jobParser.t)
    (present : bool) (jp jp' : jobParser.t) :
  key <> "multi-query-mode" ->
  goini.lookupOption (jobOptions rt) key = Some o ->
  anchored df basedir jp ->
  (if present then foldM (fun d v => goini.Parse o v d) values jp else Ok jp)
  = Ok jp' ->
  anchored df basedir jp'.
Proof.
  intros Hkey Ho Hjp. destruct present.
  - intros Hfold. now apply (queries_anchored rt df basedir key o values jp jp').
  - now intros [= <-].
Qed.

Lemma foldM_agree {A S : Type} (I : S -> Prop) (f g : S -> A -> result S)
    (l : list A) :
  (forall s a, I s -> f s a = g s a) ->
  (forall s a s', I s -> f s a = Ok s' -> I s') ->
  forall s, I s -> foldM f l s = foldM g l s.
Proof.
  intros Hfg Hkeep. induction l as [| a l IH]; intros s Hs; simpl.
  - reflexivity.
  - rewrite <- (Hfg s a Hs). destruct (f s a) as [s' |] eqn:Hfa; simpl.
    + apply IH. now apply (Hkeep s a s').
    + reflexivity.
Qed.

(** One block of each side, then the rest. *)
Lemma peel_block {S B : Type} (ini json : result S) (rest rest' : S -> result B) :
  ini = json ->
  (forall dst, ini = Ok dst -> rest dst = rest' dst) ->
  bind ini rest = bind json rest'.
Proof.
  intros <- Hrest. destruct ini; simpl; [now apply Hrest | reflexivity].
Qed.

(** From the block just read to the next one, in the state it left. *)
Ltac next_block rt key :=
  let jp' := fresh "jp" in
  let Hblock := fresh "Hblock" in
  let Hjp' := fresh "Hjp" in
  intros jp' Hblock;
  match goal with
  | Hjp : anchored ?df ?basedir ?jp |- _ =>
    assert (Hjp' : anchored df basedir jp')
      by (first [ eapply (block_anchored rt _ _ key);
                  [| | exact Hjp | exact Hblock]
                | eapply (blocks_anchored rt _ _ key);
                  [| | exact Hjp | exact Hblock] ];
          [discriminate | reflexivity]);
    clear Hblock Hjp; clear jp;
    rename jp' into jp; rename Hjp' into Hjp
  end.

Ltac unseen :=
  rewrite ?seenBefore_markSeen; simpl;
  rewrite ?andb_false_r; simpl; try assumption; reflexivity.

(** A block whose value the section spells as the JSON job holds it. *)
Ltac tail_block H :=
  erewrite decode_property; [| reflexivity | reflexivity | unseen];
  match goal with
  | |- context [if ?b then goini.Parse _ _ _ else _] => destruct b
  end;
  [simpl; rewrite ?(H eq_refl); simpl | simpl].

Lemma decode_iniOf (rt : Runtime) (df : DatabaseFlavor)
    (jobSpec : JobOptions.t) (sp : spelling) (basedir : string)
    (job0 : Job.t) :
  spells rt jobSpec sp ->
  goini.Decode (goini_errors rt) (jobOptions rt) (iniOf rt jobSpec sp)
    (jobParser.make job0 df basedir)
  = applyJobOptions rt df jobSpec basedir job0.
Proof.
  intros (Hdelim & Hrate & Hbatch & Hdepth & Hconc & Hcount).
  unfold goini.Decode, iniOf, applyJobOptions. cbv zeta.
  assert (Hjp : anchored df basedir (jobParser.make job0 df basedir))
    by (repeat split; reflexivity).
  revert Hjp. generalize (jobParser.make job0 df basedir) as jp. intros jp Hjp.
  (* start *)
  erewrite decode_property; [| reflexivity | reflexivity | unseen].
  apply peel_block.
  { destruct (isFieldSet rt _ "Start"); reflexivity. }
  next_block rt "start".
  (* stop *)
  erewrite decode_property; [| reflexivity | reflexivity | unseen].
  apply peel_block.
  { destruct (isFieldSet rt _ "Stop"); reflexivity. }
  next_block rt "stop".
  (* query *)
  erewrite decode_properties; [| reflexivity | reflexivity].
  apply peel_block.
  { destruct (isFieldSet rt _ "Queries"); [| reflexivity].
    apply (foldM_agree (anchored df basedir)); [| | exact Hjp].
    - intros d v [Hdf _]. simpl. now rewrite Hdf.
    - intros d v d' Hd Hv.
      now apply (jobOptions_anchored rt df basedir "query" v _ d d'
                   ltac:(discriminate) eq_refl). }
  next_block rt "query".
  (* query-file *)
  erewrite decode_properties; [| reflexivity | reflexivity].
  apply peel_block.
  { destruct (isFieldSet rt _ "QueryFiles"); [| reflexivity].
    apply (foldM_agree (anchored df basedir)); [| | exact Hjp].
    - intros d v (Hdf & Hdir & _). simpl. now rewrite Hdf, Hdir.
    - intros d v d' Hd Hv.
      now apply (jobOptions_anchored rt df basedir "query-file" v _ d d'
                   ltac:(discriminate) eq_refl). }
  next_block rt "query-file".
  (* query-args-file *)
  erewrite decode_property; [| reflexivity | reflexivity | unseen].
  apply peel_block.
  { destruct (isFieldSet rt _ "QueryArgsFile"); [| reflexivity].
    destruct Hjp as (_ & Hdir & _). simpl. now rewrite Hdir. }
  next_block rt "query-args-file".
  (* query-args-delim *)
  erewrite decode_property; [| reflexivity | reflexivity | unseen].
  apply peel_block.
  { destruct (isFieldSet rt _ "QueryArgsDelim"); [| reflexivity].
    simpl. now rewrite (Hdelim eq_refl). }
  next_block rt "query-args-delim".
  (* query-results-file *)
  erewrite decode_property; [| reflexivity | reflexivity | unseen].
  apply peel_block.
  { destruct (isFieldSet rt _ "QueryResultsFile"); [| reflexivity].
    destruct Hjp as (_ & Hdir & _). simpl. now rewrite Hdir. }
  next_block rt "query-results-file".
  (* rate *)
  erewrite decode_property; [| reflexivity | reflexivity | unseen].
  apply peel_block.
  { destruct (isFieldSet rt _ "Rate"); [| reflexivity].
    simpl. now rewrite (Hrate eq_refl). }
  next_block rt "rate".
  clear Hdelim Hrate.
  (* the blocks that cannot fail, and the query log *)
  match goal with
  | |- goini.decodeFrom _ _ ?s _ _ = _ =>
    assert (Hs1 : goini.seenBefore s "batch-size" = false) by unseen;
    assert (Hs2 : goini.seenBefore s "queue-depth" = false) by unseen;
    assert (Hs3 : goini.seenBefore s "concurrency" = false) by unseen;
    assert (Hs4 : goini.seenBefore s "count" = false) by unseen;
    assert (Hs5 : goini.seenBefore s "multi-query-mode" = false) by unseen;
    assert (Hs6 : goini.seenBefore s "query-log-file" = false) by unseen;
    generalize dependent s
  end.
  intros seen Hs1 Hs2 Hs3 Hs4 Hs5 Hs6.
  destruct Hjp as (_ & Hdir & Hmulti).
  destruct jp as [job df' basedir' file delim multi]. simpl in Hdir, Hmulti.
  subst basedir' multi.
  rewrite <- (app_nil_r (property _ "query-log-file" _)).
  destruct (JobOptions.MultiQueryMode jobSpec);
    rewrite ?andb_true_r, ?andb_false_r.
  all: tail_block Hbatch; tail_block Hdepth; tail_block Hconc;
    tail_block Hcount.
  all: try (erewrite (decode_property _ _ _ _ "multi-query-mode");
            [| reflexivity | reflexivity | unseen]).
  all: destruct (isFieldSet rt _ "MultiQueryMode"); simpl.
  all: erewrite decode_property; [| reflexivity | reflexivity | unseen].
  all: destruct (isFieldSet rt _ "QueryLogFile"); simpl.
  all: try (destruct (os_Open rt _); simpl).
  all: reflexivity.
Qed.

(** *** The same outcome, up to the wording of four messages *)

Lemma checkJob_sameOutcome (jp : jobParser.t) :
  sameOutcome (checkJob iniWording jp) (checkJob jsonWording jp).
Proof.
  unfold checkJob, violation.
  repeat match goal with
         | |- context [if ?b then _ else _] =>
           lazymatch b with
           | context [if _ then _ else _] => fail
           | _ => destruct b
           end
         end.
  all: simpl; try reflexivity; try (left; reflexivity).
  - right. exists queriesAndLog. simpl. auto.
  - right. exists batchWithoutRate. simpl. auto.
  - right. exists delimWithoutArgs. simpl. auto 6.
  - right. exists argsWithLog. simpl. auto 6.
Qed.

(** The same fields in both syntaxes, and two different jobs: the section
    gives the queue depth its last word, the JSON validator gives it to
    [concurrency]. *)
Lemma same_fields_different_jobs :
  exists ini json,
    decodeJobSection Sample.runtime Sample.flavor concurrencyFirst "/bench"
      (Job.new "both") = Ok ini
    /\ validateJobSection Sample.runtime Sample.flavor bothDepths "/bench"
         (Job.new "both") = Ok json
    /\ Job.QueueDepth ini = 3%N
    /\ Job.QueueDepth json = 2%N.
Proof.
  do 2 eexists. split; [vm_compute; reflexivity |].
  split; [vm_compute; reflexivity |].
  split; reflexivity.
Qed.

Example queue_depth_first :
  Job.QueueDepth <$>
    (match decodeJobSection Sample.runtime Sample.flavor
             [("query", "select 1"); ("queue-depth", "3"); ("concurrency", "2")]
             "/bench" (Job.new "both") with
     | Ok job => Some job
     | Fail _ => None
     end) = Some 2%N.
Proof. reflexivity. Qed.

Example file_before_query :
  Job.Queries <$>
    (match decodeJobSection Sample.runtime Sample.flavor
             [("query-file", "queries.sql"); ("query", "select 3");
              ("multi-query-mode", "multi-connection")] "/bench"
             (Job.new "mixed") with
     | Ok job => Some job
     | Fail _ => None
     end) = Some ["select 1"; "select 2"; "select 3"]
  /\ Job.Queries <$>
       (match validateJobSection Sample.runtime Sample.flavor queriesThenFile
                "/bench" (Job.new "mixed") with
        | Ok job => Some job
        | Fail _ => None
        end) = Some ["select 3"; "select 1"; "select 2"].
Proof. split; vm_compute; reflexivity. Qed.

(** C2, as the code has it.  Take a JSON job and the INI section that
    lists the fields set in it in the order in which the validator reads
    them, numbers and delimiter written so that the INI parsers read the
    JSON values back, and [multi-query-mode=multi-connection] standing for
    a true [multiQueryMode].  The INI decoder and the JSON validator then
    accept or reject together; when they accept they return the same job,
    and when they reject they return the same error, up to the four
    messages in which each syntax spells the keys its own way. *)
Theorem job_syntaxes_agree
    (rt : Runtime) (df : DatabaseFlavor) (basedir : string) (job0 : Job.t)
    (jobSpec : JobOptions.t) (sp : spelling) :
  spells rt jobSpec sp ->
  sameOutcome (decodeJobSection rt df (iniOf rt jobSpec sp) basedir job0)
    (validateJobSection rt df jobSpec basedir job0).
Proof.
  intros Hsp.
  rewrite decodeJobSection_checkJob, validateJobSection_checkJob.
  rewrite (decode_iniOf rt df jobSpec sp basedir job0 Hsp).
  destruct (applyJobOptions rt df jobSpec basedir job0) as [jp | err]; simpl.
  - apply checkJob_sameOutcome.
  - left. reflexivity.
Qed.

Example ratePacedJob_section :
  iniOf Sample.runtime ratePacedJob ratePacedTexts
  = [("start", "1s"); ("stop", "4s"); ("query", "select 1");
     ("query-args-file", "args.csv");
     ("query-args-delim", Sample.quote ";"); ("rate", "10"); ("count", "5")].
Proof. reflexivity. Qed.

Lemma job_syntaxes_agree_witness :
  sameOutcome
    (decodeJobSection Sample.runtime Sample.flavor
       (iniOf Sample.runtime ratePacedJob ratePacedTexts) "/bench"
       (Job.new "paced"))
    (validateJobSection Sample.runtime Sample.flavor ratePacedJob "/bench"
       (Job.new "paced")).
Proof.
  apply job_syntaxes_agree.
  repeat split; intros _; reflexivity.
Defined.

Example ratePacedJob_accepted :
  isOk (validateJobSection Sample.runtime Sample.flavor ratePacedJob "/bench"
          (Job.new "paced")) = true.
Proof. reflexivity. Qed.

(** *** What the checks do ensure *)

Lemma foldM_invariant {A S : Type} (I : S -> Prop) (f : S -> A -> result S)
    (l : list A) :
  (forall s a s', f s a = Ok s' -> I s -> I s') ->
  forall s s', foldM f l s = Ok s' -> I s -> I s'.
Proof.
  intros Hkeep. induction l as [| a l IH]; intros s s'; simpl.
  - now intros [= <-].
  - destruct (f s a) as [s1 |] eqn:Hfa; [simpl | discriminate].
    intros Hrest Hs. apply (IH s1 s' Hrest). now apply (Hkeep s a s1).
Qed.

Lemma decodeFrom_invariant {S : Type} (I : S -> Prop) (errs : goini.Errors)
    (dos : goini.DecodeOptionSet S) :
  (forall key o value s s',
      goini.lookupOption dos key = Some o ->
      goini.Parse o value s = Ok s' -> I s -> I s') ->
  forall props seen s s',
    goini.decodeFrom errs dos seen props s = Ok s' -> I s -> I s'.
Proof.
  intros Hkeep. induction props as [| [key value] props IH];
    intros seen s s'; simpl.
  - now intros [= <-].
  - destruct (goini.lookupOption dos key) as [o |] eqn:Ho; [| discriminate].
    destruct (goini.isUnique (goini.Kind o) && goini.seenBefore seen key);
      [discriminate |].
    destruct (goini.Parse o value s) as [s1 |] eqn:Hparse;
      [simpl | discriminate].
    intros Hrest Hs. apply (IH _ s1 s' Hrest).
    now apply (Hkeep key o value s s1).
Qed.

Lemma jobOptions_rateChecked (rt : Runtime) (key value : string)
    (o : goini.DecodeOption jobParser.t) (jp jp' : jobParser.t) :
  goini.lookupOption (jobOptions rt) key = Some o ->
  goini.Parse o value jp = Ok jp' ->
  rateChecked jp -> rateChecked jp'.
Proof.
  unfold jobOptions, rateChecked. cbn [goini.lookupOption].
  repeat match goal with
         | |- (if String.eqb ?k key then _ else _) = Some _ -> _ =>
           destruct (String.eqb k key)
         end.
  all: try discriminate.
  all: intros [= <-]; simpl.
  all: repeat match goal with
              | |- context [bind ?m _] => destruct m; simpl
              | |- context [match ?m with Some _ => _ | None => _ end] =>
                destruct m; simpl
              | |- context [if ?b then _ else _] => destruct b eqn:?; simpl
              end.
  all: try discriminate.
  all: intros [= <-]; simpl; intros; assumption.
Qed.

(** The body of a block, taken apart until the state it returns shows. *)
Ltac open_body :=
  repeat match goal with
         | |- context [bind ?m _] => destruct m; simpl
         | |- context [match ?m with Some _ => _ | None => _ end] =>
           destruct m; simpl
         | |- context [if ?b then _ else _] => destruct b eqn:?; simpl
         end;
  try discriminate.

(** A block of [applyJobOptions] keeps the rate checked. *)
Ltac keep_rate Hm Hprev :=
  revert Hm; unfold rateChecked in *;
  match goal with
  | |- (if ?b then _ else _) = Ok _ -> _ => destruct b
  end;
  [| intros [= <-]; exact Hprev];
  first
    [ let Hfold := fresh in
      intros Hfold;
      refine (foldM_invariant
                (fun jp => SFltb (Job.Rate (jobParser.j jp)) zero64 = false)
                _ _ _ _ _ Hfold Hprev);
      intros ? ? ?; open_body; intros [= <-]; simpl; tauto
    | open_body; intros [= <-]; simpl; assumption ].

Lemma applyJobOptions_rateChecked (rt : Runtime) (df : DatabaseFlavor)
    (jobSpec : JobOptions.t) (basedir : string) (job0 : Job.t)
    (jp : jobParser.t) :
  SFltb (Job.Rate job0) zero64 = false ->
  applyJobOptions rt df jobSpec basedir job0 = Ok jp ->
  rateChecked jp.
Proof.
  intros Hjob0. unfold applyJobOptions. cbv zeta.
  assert (H0 : rateChecked (jobParser.make job0 df basedir)) by exact Hjob0.
  revert H0. generalize (jobParser.make job0 df basedir) as jp0.
  intros jp0 H0.
  do 8 match goal with
       | Hprev : rateChecked ?prev |- bind ?m _ = Ok _ -> _ =>
         let s := fresh "jp" in
         let Hm := fresh "Hm" in
         let Hs := fresh "H" in
         destruct m as [s |] eqn:Hm; [simpl bind | discriminate];
         assert (Hs : rateChecked s) by keep_rate Hm Hprev;
         clear Hm Hprev; try clear prev
       end.
  match goal with
  | Hprev : rateChecked ?prev |- _ =>
    unfold rateChecked in *; destruct prev as [[] ? ? ? ? ?]; simpl in Hprev
  end.
  repeat match goal with
         | |- context [if isFieldSet ?rt ?v ?name then _ else _] =>
           destruct (isFieldSet rt v name); simpl
         end.
  all: try (destruct (os_Open rt _); simpl; [| discriminate]).
  all: intros [= <-]; simpl; assumption.
Qed.

Lemma above_zero_not_zero (r : float64) :
  SFltb zero64 r = true -> SFeqb r zero64 = false.
Proof. destruct r as [[] | [] | | [] m e]; cbv; congruence. Qed.

Lemma number_not_below_zero (r : float64) :
  SFltb r zero64 = false -> r <> S754_nan ->
  SFleb zero64 r = true
  /\ (SFeqb r zero64 = false -> SFltb zero64 r = true).
Proof.
  destruct r as [[] | [] | | [] m e]; cbv; intros Hlt Hnan;
    try discriminate; try (now destruct Hnan); auto.
Qed.

Lemma violation_None_batch (w : wording) (jp : jobParser.t) :
  violation w jp = None ->
  SFeqb (Job.Rate (jobParser.j jp)) zero64
  && (0 <? Job.BatchSize (jobParser.j jp))%N = false.
Proof.
  unfold violation.
  repeat match goal with
         | |- context [if ?b then _ else _] =>
           lazymatch b with
           | context [if _ then _ else _] => fail
           | _ => destruct b eqn:?
           end
         end; try discriminate.
  reflexivity.
Qed.

Lemma checkJob_rateAndBatch (w : wording) (jp : jobParser.t) (job : Job.t) :
  rateChecked jp -> checkJob w jp = Ok job -> rateAndBatch job.
Proof.
  intros Hrate Hcheck.
  apply checkJob_Ok in Hcheck as (Hviolation & _ & ->).
  apply violation_None_batch in Hviolation.
  destruct (finishJob_fields jp)
    as (_ & _ & _ & _ & _ & Hr & _ & _ & Hb).
  unfold rateChecked, ratePaced in *.
  assert (Hbatch : (0 < Job.BatchSize (finishJob jp))%N ->
                   SFeqb (Job.Rate (finishJob jp)) zero64 = false).
  { rewrite Hr, Hb.
    destruct (SFltb zero64 (Job.Rate (jobParser.j jp))) eqn:Hpos; simpl.
    - intros _. now apply above_zero_not_zero.
    - intros Hlt. apply N.ltb_lt in Hlt. rewrite Hlt in Hviolation.
      now rewrite andb_true_r in Hviolation. }
  split; [now rewrite Hr | split; [exact Hbatch |]].
  intros Hnan.
  destruct (number_not_below_zero (Job.Rate (finishJob jp))) as [Hle Hgt];
    [now rewrite Hr | exact Hnan |].
  split; [exact Hle |]. intros Hb0. apply Hgt, Hbatch, Hb0.
Qed.

(** X1.  Every job accepted by either parser, read into a fresh job, has
    a rate that is not below zero, and not equal to zero when its batch
    size is above zero; when the rate is a number, it is at least zero,
    and above zero when the batch size is. *)
Theorem accepted_rate_and_batch_size
    (rt : Runtime) (df : DatabaseFlavor) (basedir name : string) :
  (forall section job,
      decodeJobSection rt df section basedir (Job.new name) = Ok job ->
      rateAndBatch job)
  /\ (forall jobSpec job,
         validateJobSection rt df jobSpec basedir (Job.new name) = Ok job ->
         rateAndBatch job).
Proof.
  split.
  - intros section job. rewrite decodeJobSection_checkJob.
    destruct (goini.Decode _ _ _ _) as [jp |] eqn:Hjp; [simpl | discriminate].
    apply checkJob_rateAndBatch.
    unfold goini.Decode in Hjp.
    apply (decodeFrom_invariant rateChecked _ _
             (fun key o value => jobOptions_rateChecked rt key value o)
             _ _ _ _ Hjp).
    reflexivity.
  - intros jobSpec job. rewrite validateJobSection_checkJob.
    destruct (applyJobOptions _ _ _ _ _) as [jp |] eqn:Hjp;
      [simpl | discriminate].
    apply checkJob_rateAndBatch.
    now apply (applyJobOptions_rateChecked rt df jobSpec basedir (Job.new name)).
Qed.

Lemma accepted_rate_and_batch_size_witness :
  exists job,
    decodeJobSection Sample.runtime Sample.flavor
      [("query", "select 1"); ("rate", "10")] "/bench" (Job.new "paced")
    = Ok job
    /\ rateAndBatch job.
Proof.
  eexists. split; [vm_compute; reflexivity |].
  destruct (accepted_rate_and_batch_size Sample.runtime Sample.flavor
              "/bench" "paced") as [Hini _].
  apply (Hini [("query", "select 1"); ("rate", "10")]).
  vm_compute. reflexivity.
Defined.





(** * Further properties of the decoder and of the runner *)

(** ** Query files *)

Lemma bind_Ok {A B : Type} (m : result A) (k : A -> result B) (b : B) :
  bind m k = Ok b -> exists a, m = Ok a /\ k a = Ok b.
Proof. destruct m as [a |]; simpl; [eauto | discriminate]. Qed.

Lemma kept_passes (df : DatabaseFlavor) (segments : list string) :
  Forall (passes df) (List.filter (kept df) segments).
Proof.
  apply List.Forall_forall. intros q Hq.
  apply List.filter_In in Hq as [_ Hq]. unfold kept in Hq. unfold passes.
  now destruct (CheckQuery df q).
Qed.

(** What [readQueriesFromReader] returns, read backwards: from the
    result to the segments of the file. *)
Lemma readQueriesFromReader_outcome (rt : Runtime) (df : DatabaseFlavor)
    (r : File) :
  match readQueriesFromReader rt df r with
  | Ok queries =>
    exists contents,
      ioutil_ReadAll rt r = Ok contents
      /\ Forall (benign df) (strings.Split contents (QuerySeparator df))
      /\ queries
         = List.filter (kept df) (strings.Split contents (QuerySeparator df))
  | Fail e =>
    ioutil_ReadAll rt r = Fail e
    \/ exists contents pre q post err,
         ioutil_ReadAll rt r = Ok contents
         /\ strings.Split contents (QuerySeparator df) = pre ++ q :: post
         /\ Forall (benign df) pre
         /\ offending df q err
         /\ e = New ("invalid query " +:+ Error rt err)
  end.
Proof.
  unfold readQueriesFromReader.
  destruct (ioutil_ReadAll rt r) as [contents | e]; simpl; [| now left].
  destruct (first_offending df (strings.Split contents (QuerySeparator df)))
    as [Hall | (pre & q & post & err & Hsplit & Hpre & Hq)].
  - rewrite (loop_benign rt df _ [] Hall). simpl. eauto.
  - rewrite Hsplit, (loop_offending rt df pre post [] q err Hpre Hq).
    right. exists contents, pre, q, post, err. auto.
Qed.

Lemma readQueriesFromFile_passes (rt : Runtime) (df : DatabaseFlavor)
    (queryFile : string) (queries : list string) :
  readQueriesFromFile rt df queryFile = Ok queries ->
  Forall (passes df) queries.
Proof.
  unfold readQueriesFromFile. intros H.
  apply bind_Ok in H as (file & _ & H).
  pose proof (readQueriesFromReader_outcome rt df file) as Hr.
  rewrite H in Hr. destruct Hr as (contents & _ & _ & ->).
  apply kept_passes.
Qed.

(** X3.  A query file is accepted exactly when it can be opened and read
    and no segment of it is refused for another reason than being empty;
    the queries are then the segments that pass [CheckQuery], in order.
    When it is refused, the error is that of [os.Open] or of
    [ioutil.ReadAll], unchanged, or that of the first refused segment
    behind the words "invalid query". *)
Theorem readQueriesFromFile_outcome
    (rt : Runtime) (df : DatabaseFlavor) (queryFile : string) :
  match readQueriesFromFile rt df queryFile with
  | Ok queries =>
    exists file contents,
      os_Open rt queryFile = Ok file
      /\ ioutil_ReadAll rt file = Ok contents
      /\ Forall (benign df) (strings.Split contents (QuerySeparator df))
      /\ queries
         = List.filter (kept df) (strings.Split contents (QuerySeparator df))
      /\ Forall (passes df) queries
  | Fail e =>
    os_Open rt queryFile = Fail e
    \/ (exists file,
          os_Open rt queryFile = Ok file /\ ioutil_ReadAll rt file = Fail e)
    \/ exists file contents pre q post err,
         os_Open rt queryFile = Ok file
         /\ ioutil_ReadAll rt file = Ok contents
         /\ strings.Split contents (QuerySeparator df) = pre ++ q :: post
         /\ Forall (benign df) pre
         /\ offending df q err
         /\ e = New ("invalid query " +:+ Error rt err)
  end.
Proof.
  unfold readQueriesFromFile.
  destruct (os_Open rt queryFile) as [file | e]; simpl; [| now left].
  pose proof (readQueriesFromReader_outcome rt df file) as Hr.
  destruct (readQueriesFromReader rt df file) as [queries | e].
  - destruct Hr as (contents & Hread & Hall & ->).
    exists file, contents. repeat split; auto using kept_passes.
  - destruct Hr as [Hread | (contents & pre & q & post & err & Hr)].
    + right. left. eauto.
    + right. right. exists file, contents, pre, q, post, err. tauto.
Qed.

(** *** Joining the queries of a file *)
















(** ** The global section *)

Lemma app_property_nil (props : goini.RawSection) : props = props ++ [].
Proof. now rewrite app_nil_r. Qed.

(** [Decode], with what it has read so far. *)
Lemma decodeFrom_read {S : Type} (R : goini.RawSection -> S -> Prop)
    (errs : goini.Errors) (dos : goini.DecodeOptionSet S) :
  (forall read key o value s s',
      goini.lookupOption dos key = Some o ->
      goini.Parse o value s = Ok s' ->
      R read s -> R (read ++ [(key, value)]) s') ->
  forall props seen read s s',
    goini.decodeFrom errs dos seen props s = Ok s' ->
    R read s -> R (read ++ props) s'.
Proof.
  intros Hstep. induction props as [| [key value] props IH];
    intros seen read s s'; simpl.
  - intros [= <-]. now rewrite app_nil_r.
  - destruct (goini.lookupOption dos key) as [o |] eqn:Ho; [| discriminate].
    destruct (goini.isUnique (goini.Kind o) && goini.seenBefore seen key);
      [discriminate |].
    destruct (goini.Parse o value s) as [s1 |] eqn:Hparse;
      [simpl | discriminate].
    intros Hrest Hs.
    replace (read ++ (key, value) :: props)
      with ((read ++ [(key, value)]) ++ props)
      by now rewrite <- app_assoc.
    apply (IH _ _ s1 s' Hrest). now apply (Hstep read key o value s s1).
Qed.

Lemma Decode_read {S : Type} (R : goini.RawSection -> S -> Prop)
    (errs : goini.Errors) (dos : goini.DecodeOptionSet S) :
  (forall read key o value s s',
      goini.lookupOption dos key = Some o ->
      goini.Parse o value s = Ok s' ->
      R read s -> R (read ++ [(key, value)]) s') ->
  forall section s s',
    goini.Decode errs dos section s = Ok s' -> R [] s -> R section s'.
Proof.
  intros Hstep section s s' Hdecode Hs.
  apply (decodeFrom_read R errs dos Hstep section [] [] s s' Hdecode Hs).
Qed.

Lemma In_snoc {A : Type} (x y : A) (l : list A) :
  In x (l ++ [y]) <-> In x l \/ x = y.
Proof.
  rewrite in_app_iff. simpl. intuition congruence.
Qed.

Lemma globalOptions_read (rt : Runtime) (c : Config.t)
    (read : goini.RawSection) (key value : string)
    (o : goini.DecodeOption Config.t) (c1 c2 : Config.t) :
  goini.lookupOption (globalOptions rt) key = Some o ->
  goini.Parse o value c1 = Ok c2 ->
  globalRead rt c read c1 -> globalRead rt c (read ++ [(key, value)]) c2.
Proof.
  unfold globalOptions, globalRead. cbn [goini.lookupOption].
  destruct (String.eqb_spec "duration" key) as [<- |].
  - intros [= <-]. simpl.
    destruct (time_ParseDuration rt value) as [d |] eqn:Hd; simpl;
      [| discriminate].
    intros [= <-]. simpl.
    intros (Hf & Hs & Ht & Hj & Hacc & Hparsed & Hdur).
    repeat split; try assumption.
    + intros He. apply Hacc in He as [He | He]; [now left | right].
      apply In_snoc. now left.
    + intros [He | He]; apply Hacc; [now left | right].
      apply In_snoc in He as [He | [=]]. exact He.
    + intros v Hv. apply In_snoc in Hv as [Hv | [= ->]]; [now apply Hparsed |].
      now rewrite Hd.
    + right. exists value. split; [apply In_snoc; now right | exact Hd].
  - destruct (String.eqb_spec "error" key) as [<- |]; [| discriminate].
    intros [= <-]. simpl. intros [= <-]. simpl.
    intros (Hf & Hs & Ht & Hj & Hacc & Hparsed & Hdur).
    repeat split; try assumption.
    + unfold accepted at 1. simpl. intros He.
      apply elem_of_union in He as [He | He].
      * apply elem_of_singleton in He as ->. right. apply In_snoc. now right.
      * apply Hacc in He as [He | He]; [now left | right].
        apply In_snoc. now left.
    + unfold accepted at 2. simpl. intros [He | He].
      * apply elem_of_union. right. apply Hacc. now left.
      * apply In_snoc in He as [He | [= ->]].
        -- apply elem_of_union. right. apply Hacc. now right.
        -- apply elem_of_union. left. now apply elem_of_singleton.
    + intros v Hv. apply In_snoc in Hv as [Hv | [=]]. now apply Hparsed.
    + destruct Hdur as [Hdur | (v & Hv & Hdur)]; [now left | right].
      exists v. split; [apply In_snoc; now left | exact Hdur].
Qed.

(** X5.  What decoding an INI global section does to a configuration: it
    leaves the flavor, the setup, the teardown and the jobs alone; the
    errors accepted afterwards are those accepted before and the values
    of the [error] properties; every [duration] property holds a duration
    that parses, and the duration is either left as it was or the one that
    a [duration] property holds. *)
Theorem decodeGlobalSection_effect
    (rt : Runtime) (df : DatabaseFlavor) (s : goini.RawSection)
    (c c' : Config.t) :
  decodeGlobalSection rt df s c = Ok c' ->
  Config.Flavor c' = Config.Flavor c /\ Config.Setup c' = Config.Setup c
  /\ Config.Teardown c' = Config.Teardown c /\ Config.Jobs c' = Config.Jobs c
  /\ (forall e, e ∈ accepted c' <-> e ∈ accepted c \/ In ("error", e) s)
  /\ (forall v, In ("duration", v) s ->
        isOk (time_ParseDuration rt v) = true)
  /\ (Config.Duration c' = Config.Duration c
      \/ exists v, In ("duration", v) s
                   /\ time_ParseDuration rt v = Ok (Config.Duration c')).
Proof.
  unfold decodeGlobalSection. intros Hdecode.
  apply (Decode_read (globalRead rt c) _ _
           (fun read key o value => globalOptions_read rt c read key value o)
           s c c' Hdecode).
  unfold globalRead. repeat split; try tauto.
  - intros [He | []]. exact He.
  - intros v [].
Qed.

Lemma decodeGlobalSection_effect_witness :
  exists c',
    decodeGlobalSection Sample.runtime Sample.flavor
      [("error", "1062"); ("duration", "5s"); ("error", "1213")]
      (Config.new Sample.flavor) = Ok c'
    /\ Config.Duration c' = 5 * Sample.second
    /\ "1213" ∈ accepted c'.
Proof.
  eexists. split; [vm_compute; reflexivity |].
  split; [reflexivity |].
  apply (decodeGlobalSection_effect Sample.runtime Sample.flavor
           [("error", "1062"); ("duration", "5s"); ("error", "1213")]
           (Config.new Sample.flavor)).
  - vm_compute. reflexivity.
  - right. right. right. left. reflexivity.
Defined.

Ltac same_members :=
  apply set_eq; intros ?; simpl;
  repeat rewrite elem_of_union; rewrite ?elem_of_empty; tauto.

(** The [error] option, once per value. *)
Lemma error_options (values : list string) (c : Config.t) :
  foldM (fun d v =>
           Ok (Config.withAcceptedErrors
                 (Some ({[ v ]} ∪ default ∅ (Config.AcceptedErrors d))) d))
        values c
  = Ok (match values with
        | [] => c
        | _ :: _ =>
          Config.withAcceptedErrors
            (Some (list_to_set values ∪ accepted c)) c
        end).
Proof.
  revert c. induction values as [| v values IH]; intros c; [reflexivity |].
  cbn [foldM bind]. rewrite IH. f_equal.
  destruct values as [| v' values].
  - unfold accepted. simpl. do 2 f_equal. same_members.
  - unfold accepted. destruct c; simpl. unfold Config.withAcceptedErrors.
    simpl. do 2 f_equal. same_members.
Qed.

(** X6.  The global section of a JSON document and the INI global section
    that lists its duration and then its errors give the same
    configuration, or the same error, when read into a configuration that
    accepts no error yet. *)
Theorem global_syntaxes_agree
    (rt : Runtime) (df : DatabaseFlavor) (jsonConfig : JSONConfig.t)
    (c : Config.t) :
  Config.AcceptedErrors c = None ->
  (isFieldSet rt (ValueOfJSONConfig jsonConfig) "Errors" = true ->
   JSONConfig.Errors jsonConfig <> []) ->
  decodeGlobalSection rt df (globalOf rt jsonConfig) c
  = validateGlobalSection rt jsonConfig c.
Proof.
  intros Hnone Herrors.
  unfold decodeGlobalSection, validateGlobalSection, globalOf, goini.Decode.
  cbv zeta.
  rewrite (decode_property (goini_errors rt) (globalOptions rt) _ _
             "duration" _ [] _ c eq_refl eq_refl eq_refl).
  cbn [goini.Parse].
  apply peel_block; [reflexivity |].
  intros c1 Hc1.
  assert (Hnone1 : Config.AcceptedErrors c1 = None).
  { destruct (isFieldSet rt _ "Duration").
    - destruct (time_ParseDuration rt _); [| discriminate].
      simpl in Hc1. injection Hc1 as <-. exact Hnone.
    - injection Hc1 as <-. exact Hnone. }
  rewrite (app_property_nil (properties _ _ _)).
  rewrite (decode_properties (goini_errors rt) (globalOptions rt) _ _
             "error" _ _ [] c1 eq_refl eq_refl).
  cbn [goini.Parse goini.decodeFrom].
  destruct (isFieldSet rt _ "Errors"); [| reflexivity].
  rewrite error_options. simpl.
  destruct (JSONConfig.Errors jsonConfig) as [| e errors] eqn:He;
    [now destruct Herrors |].
  do 3 f_equal. unfold accepted. rewrite Hnone1. same_members.
Qed.

Lemma global_syntaxes_agree_witness :
  decodeGlobalSection Sample.runtime Sample.flavor
    (globalOf Sample.runtime Sample.oddOffsetsJSON) (Config.new Sample.flavor)
  = validateGlobalSection Sample.runtime Sample.oddOffsetsJSON
      (Config.new Sample.flavor).
Proof.
  apply global_syntaxes_agree; [reflexivity |].
  intros H. discriminate H.
Defined.

(** ** Setup and teardown *)

Lemma foldM_through {A S T : Type} (h : T -> S) (f : S -> A -> result S)
    (g : T -> A -> result T) (l : list A) :
  (forall t a, f (h t) a = attempt t' := g t a in Ok (h t')) ->
  forall t, foldM f l (h t) = attempt t' := foldM g l t in Ok (h t').
Proof.
  intros Hstep. induction l as [| a l IH]; intros t; [reflexivity |].
  cbn [foldM]. rewrite Hstep.
  destruct (g t a) as [t1 |]; [simpl | reflexivity]. apply IH.
Qed.

Lemma foldM_refused {A S : Type} (f : S -> A -> result S) (l : list A) (a : A) :
  In a l -> (forall s, exists e, f s a = Fail e) ->
  forall s, exists e, foldM f l s = Fail e.
Proof.
  intros Hin Hfail. induction l as [| b l IH]; [destruct Hin |].
  intros s. simpl. destruct Hin as [-> | Hin].
  - destruct (Hfail s) as [e ->]. eauto.
  - destruct (f s b); simpl; [now apply IH | eauto].
Qed.

(** X7.  A setup or teardown section of a JSON document and the INI
    section that lists its queries and then its query files give the same
    queries, or the same error; a section that is not set in the JSON
    document leaves the queries as they are. *)
Theorem reserved_syntaxes_agree
    (rt : Runtime) (df : DatabaseFlavor) (jsonConfig : JSONConfig.t)
    (basedir : string) :
  (isFieldSet rt (ValueOfJSONConfig jsonConfig) "Setup" = true ->
   decodeSetupSection rt df (reservedOf rt (JSONConfig.Setup jsonConfig))
     basedir
   = validateReservedSection rt df jsonConfig basedir "Setup" [])
  /\ (isFieldSet rt (ValueOfJSONConfig jsonConfig) "Teardown" = true ->
      decodeSetupSection rt df
        (reservedOf rt (JSONConfig.Teardown jsonConfig)) basedir
      = validateReservedSection rt df jsonConfig basedir "Teardown" [])
  /\ (forall sectionName ss,
         isFieldSet rt (ValueOfJSONConfig jsonConfig) sectionName = false ->
         validateReservedSection rt df jsonConfig basedir sectionName ss
         = Ok ss).
Proof.
  assert (Hsame : forall section,
             decodeSetupSection rt df (reservedOf rt section) basedir
             = attempt ss :=
                 (if isFieldSet rt (ValueOfReserved section) "Queries"
                  then foldM (fun ss query =>
                                match CheckQuery df query with
                                | Some err => Fail err
                                | None => Ok (ss ++ [query])
                                end)
                             (ReservedSectionOptions.Queries section) []
                  else Ok []) in
               if isFieldSet rt (ValueOfReserved section) "QueryFiles"
               then foldM (fun ss queryFile =>
                             let queryFile := inBasedir rt basedir queryFile in
                             attempt queries :=
                               readQueriesFromFile rt df queryFile in
                             Ok (ss ++ queries))
                          (ReservedSectionOptions.QueryFiles section) ss
               else Ok ss).
  { intros section. unfold decodeSetupSection, reservedOf, goini.Decode.
    cbv zeta.
    set (h := fun qs => {| ssp_queries := qs; ssp_df := df;
                           ssp_basedir := basedir |}).
    change {| ssp_queries := []; ssp_df := df; ssp_basedir := basedir |}
      with (h []).
    rewrite (decode_properties (goini_errors rt) (setupOptions rt) _ _
               "query" _ _ _ (h []) eq_refl eq_refl).
    cbn [goini.Parse].
    rewrite (foldM_through h _
               (fun ss query =>
                  match CheckQuery df query with
                  | Some err => Fail err
                  | None => Ok (ss ++ [query])
                  end))
      by (intros t a; simpl; now destruct (CheckQuery df a)).
    destruct (isFieldSet rt _ "Queries").
    - destruct (foldM _ (ReservedSectionOptions.Queries section) [])
        as [ss |]; [simpl | reflexivity].
      rewrite (app_property_nil (properties _ _ _)).
      rewrite (decode_properties (goini_errors rt) (setupOptions rt) _ _
                 "query-file" _ _ [] (h ss) eq_refl eq_refl).
      cbn [goini.Parse goini.decodeFrom].
      rewrite (foldM_through h _
                 (fun ss queryFile =>
                    let queryFile := inBasedir rt basedir queryFile in
                    attempt queries := readQueriesFromFile rt df queryFile in
                    Ok (ss ++ queries)))
        by (intros t a; simpl;
            now destruct (readQueriesFromFile rt df (inBasedir rt basedir a))).
      destruct (isFieldSet rt _ "QueryFiles"); [| reflexivity].
      now destruct (foldM _ (ReservedSectionOptions.QueryFiles section) ss).
    - simpl.
      rewrite (app_property_nil (properties _ _ _)).
      rewrite (decode_properties (goini_errors rt) (setupOptions rt) _ _
                 "query-file" _ _ [] (h []) eq_refl eq_refl).
      cbn [goini.Parse goini.decodeFrom].
      rewrite (foldM_through h _
                 (fun ss queryFile =>
                    let queryFile := inBasedir rt basedir queryFile in
                    attempt queries := readQueriesFromFile rt df queryFile in
                    Ok (ss ++ queries)))
        by (intros t a; simpl;
            now destruct (readQueriesFromFile rt df (inBasedir rt basedir a))).
      destruct (isFieldSet rt _ "QueryFiles"); [| reflexivity].
      now destruct (foldM _ (ReservedSectionOptions.QueryFiles section) []). }
  split; [| split].
  - intros Hset. rewrite Hsame. unfold validateReservedSection.
    rewrite Hset. reflexivity.
  - intros Hset. rewrite Hsame. unfold validateReservedSection.
    rewrite Hset. reflexivity.
  - intros sectionName ss Hset. unfold validateReservedSection.
    now rewrite Hset.
Qed.

Lemma reserved_syntaxes_agree_witness :
  decodeSetupSection Sample.runtime Sample.flavor
    (reservedOf Sample.runtime (JSONConfig.Setup setupJSON)) "/bench"
  = validateReservedSection Sample.runtime Sample.flavor setupJSON "/bench"
      "Setup" [].
Proof.
  destruct (reserved_syntaxes_agree Sample.runtime Sample.flavor setupJSON
              "/bench") as [Hsetup _].
  apply Hsetup. reflexivity.
Defined.

Example setupJSON_queries :
  validateReservedSection Sample.runtime Sample.flavor setupJSON "/bench"
    "Setup" []
  = Ok ["create table t"; "select 1"; "select 2"].
Proof. vm_compute. reflexivity. Qed.

(** ** What reading a job keeps *)

Lemma jobOptions_wellRead (rt : Runtime) (df : DatabaseFlavor)
    (name key value : string) (o : goini.DecodeOption jobParser.t)
    (jp jp' : jobParser.t) :
  goini.lookupOption (jobOptions rt) key = Some o ->
  goini.Parse o value jp = Ok jp' ->
  wellRead df name jp -> wellRead df name jp'.
Proof.
  unfold jobOptions, wellRead. cbn [goini.lookupOption].
  repeat match goal with
         | |- (if String.eqb ?k key then _ else _) = Some _ -> _ =>
           destruct (String.eqb k key)
         end;
    try discriminate;
    intros [= <-]; cbn [goini.Parse];
    intros Hparse (Hdf & Hname & Hargs & Hqueries); revert Hparse;
    try rewrite Hdf;
    try match goal with
        | |- context [readQueriesFromFile ?rt ?df ?v] =>
          pose proof (readQueriesFromFile_passes rt df v) as Hfile;
          destruct (readQueriesFromFile rt df v); simpl; [| discriminate];
          specialize (Hfile _ eq_refl)
        end;
    try match goal with
        | |- context [CheckQuery ?df ?v] =>
          destruct (CheckQuery df v) eqn:Hcheck; [discriminate |]
        end;
    repeat match goal with
           | |- context [bind ?m _] => destruct m; simpl
           | |- context [if ?b then _ else _] => destruct b eqn:?; simpl
           end;
    try discriminate;
    intros [= <-]; simpl; repeat split; try assumption;
    (apply Forall_app; split; [assumption |]); try assumption.
  now repeat constructor.
Qed.

Lemma Decode_wellRead (rt : Runtime) (df : DatabaseFlavor)
    (section : goini.RawSection) (basedir name : string) (jp : jobParser.t) :
  goini.Decode (goini_errors rt) (jobOptions rt) section
    (jobParser.make (Job.new name) df basedir) = Ok jp ->
  wellRead df name jp.
Proof.
  intros Hjp. unfold goini.Decode in Hjp.
  apply (decodeFrom_invariant (wellRead df name) _ _
           (fun key o value => jobOptions_wellRead rt df name key value o)
           _ _ _ _ Hjp).
  repeat split. constructor.
Qed.

(** A block of [applyJobOptions] keeps [I]: the block is skipped, or it is
    a loop whose body keeps [I], or its body does. *)
Ltac keep_block I Hm Hprev close :=
  revert Hm;
  match goal with
  | |- (if ?b then _ else _) = Ok _ -> _ => destruct b
  end;
  [| intros [= <-]; exact Hprev];
  first
    [ let Hfold := fresh in
      intros Hfold;
      refine (foldM_invariant I _ _ _ _ _ Hfold Hprev);
      intros ? ? ?; close
    | close ].

(** The next block of [applyJobOptions] that can fail, which keeps [I];
    there are eight of them. *)
Ltac through_block I close :=
  match goal with
  | Hprev : I ?prev |- bind ?m _ = Ok _ -> _ =>
    let s := fresh "jp" in
    let Hm := fresh "Hm" in
    let Hs := fresh "H" in
    destruct m as [s |] eqn:Hm; [simpl bind | discriminate];
    assert (Hs : I s) by keep_block I Hm Hprev close;
    clear Hm Hprev; try clear prev
  end.

Ltac through_binds I close := do 8 through_block I close.

(** The blocks that cannot fail and the last one, by cases on the fields
    that are set. *)
Ltac last_blocks rt :=
  repeat match goal with
         | |- context [if isFieldSet ?rt ?v ?name then _ else _] =>
           destruct (isFieldSet rt v name); simpl
         end;
  try match goal with
      | |- context [os_Open rt ?v] =>
        destruct (os_Open rt v); simpl; [| discriminate]
      end.

Ltac close_wellRead :=
  intros;
  repeat match goal with
         | H : wellRead _ _ _ |- _ => destruct H as (? & ? & ? & ?)
         end;
  match goal with H : _ = Ok _ |- _ => revert H end;
  try match goal with
      | |- context [readQueriesFromFile ?rt ?df ?v] =>
        let Hfile := fresh "Hfile" in
        pose proof (readQueriesFromFile_passes rt df v) as Hfile;
        destruct (readQueriesFromFile rt df v); simpl; [| discriminate];
        specialize (Hfile _ eq_refl)
      end;
  try match goal with
      | |- context [CheckQuery ?df ?v] =>
        destruct (CheckQuery df v) eqn:?; [discriminate |]
      end;
  open_body; intros [= <-]; unfold wellRead; simpl;
  repeat split; try assumption;
  (apply Forall_app; split; [assumption |]); try assumption;
  now repeat constructor.

Lemma applyJobOptions_wellRead (rt : Runtime) (df : DatabaseFlavor)
    (jobSpec : JobOptions.t) (basedir name : string) (jp : jobParser.t) :
  applyJobOptions rt df jobSpec basedir (Job.new name) = Ok jp ->
  wellRead df name jp.
Proof.
  unfold applyJobOptions. cbv zeta.
  assert (H0 : wellRead df name (jobParser.make (Job.new name) df basedir))
    by (repeat split; constructor).
  revert H0. generalize (jobParser.make (Job.new name) df basedir) as jp0.
  intros jp0 H0.
  through_binds (wellRead df name) close_wellRead.
  match goal with
  | Hprev : wellRead df name ?prev |- _ =>
    destruct Hprev as (? & ? & ? & ?);
    destruct prev as [[] ? ? ? ? ?]; simpl in *
  end.
  last_blocks rt; intros [= <-]; simpl; repeat split; assumption.
Qed.

(** ** The jobs of a configuration *)

Lemma foldM_ext {A S : Type} (f g : S -> A -> result S) (l : list A) (s : S) :
  (forall s a, f s a = g s a) -> foldM f l s = foldM g l s.
Proof.
  intros Hfg. revert s. induction l as [| a l IH]; intros s; [reflexivity |].
  simpl. rewrite Hfg. destruct (g s a); [simpl; apply IH | reflexivity].
Qed.

Section AddJob.

Context {A : Type}.
Variable rt : Runtime.
Variable key : A -> string.
Variable read : A -> result Job.t.

Lemma addJob_fails (l : list A) (jobs0 : gmap string Job.t) (e : error) :
  foldM (addJob rt key read) l jobs0 = Fail e ->
  exists a err,
    In a l /\ reservedName (key a) = false /\ read a = Fail err
    /\ e = jobError rt (key a) err.
Proof.
  revert jobs0. induction l as [| a l IH]; intros jobs0; [discriminate |].
  cbn [foldM]. unfold addJob at 1.
  destruct (reservedName (key a)) eqn:Hres.
  - simpl. intros H. destruct (IH _ H) as (a' & err & Hin & Ha').
    exists a', err. split; [now right | exact Ha'].
  - destruct (read a) as [job | err] eqn:Hread; simpl.
    + intros H. destruct (IH _ H) as (a' & err & Hin & Ha').
      exists a', err. split; [now right | exact Ha'].
    + intros [= <-]. exists a, err. repeat split; auto.
Qed.

Lemma keyed_dec (name : string) (l : list A) :
  (exists a, In a l /\ key a = name) \/ (forall a, In a l -> key a <> name).
Proof.
  induction l as [| a l [(a' & Hin & Ha') | Hnone]].
  - right. intros a [].
  - left. exists a'. split; [now right | exact Ha'].
  - destruct (String.eqb_spec (key a) name) as [Heq | Hne].
    + left. exists a. split; [now left | exact Heq].
    + right. intros a' [<- | Hin]; [exact Hne | now apply Hnone].
Qed.

Lemma addJob_jobs (l : list A) :
  (forall a a', In a l -> In a' l -> key a = key a' -> read a = read a') ->
  forall jobs0 jobs,
    foldM (addJob rt key read) l jobs0 = Ok jobs ->
    forall name job,
      jobs !! name = Some job
      <-> (exists a, In a l /\ key a = name /\ reservedName name = false
                     /\ read a = Ok job)
          \/ ((forall a, In a l -> key a = name -> reservedName name = true)
              /\ jobs0 !! name = Some job).
Proof.
  induction l as [| a l IH]; intros Hsame jobs0 jobs.
  - intros [= <-] name job. split.
    + intros H. right. split; [intros a [] | exact H].
    + intros [(a & [] & _) | [_ H]]. exact H.
  - assert (Hsame' : forall a1 a2, In a1 l -> In a2 l -> key a1 = key a2 ->
                                   read a1 = read a2).
    { intros a1 a2 H1 H2. apply Hsame; now right. }
    cbn [foldM]. unfold addJob at 1.
    destruct (reservedName (key a)) eqn:Hres; simpl.
    + intros Hloop name job. rewrite (IH Hsame' _ _ Hloop name job). split.
      * intros [(a' & Hin & Ha') | [Hnone Hjob]].
        -- left. exists a'. split; [now right | exact Ha'].
        -- right. split; [| exact Hjob].
           intros a' [<- | Hin] Hkey;
             [now rewrite <- Hkey | exact (Hnone a' Hin Hkey)].
      * intros [(a' & [<- | Hin] & Hkey & Hname & Ha') | [Hnone Hjob]].
        -- rewrite <- Hkey in Hname. congruence.
        -- left. exists a'. auto.
        -- right. split; [| exact Hjob].
           intros a' Hin. apply Hnone. now right.
    + destruct (read a) as [ja |] eqn:Hread; simpl; [| discriminate].
      intros Hloop name job. rewrite (IH Hsame' _ _ Hloop name job). split.
      * intros [(a' & Hin & Ha') | [Hnone Hjob]].
        -- left. exists a'. split; [now right | exact Ha'].
        -- destruct (String.eqb_spec (key a) name) as [Heq | Hne].
           ++ rewrite Heq, lookup_insert_eq in Hjob. injection Hjob as <-.
              left. exists a. rewrite <- Heq. repeat split; auto.
           ++ rewrite lookup_insert_ne in Hjob by exact Hne.
              right. split; [| exact Hjob].
              intros a' [<- | Hin] Hkey;
                [congruence | exact (Hnone a' Hin Hkey)].
      * intros [(a' & [<- | Hin] & Hkey & Hname & Ha') | [Hnone Hjob]].
        -- destruct (keyed_dec name l) as [(a2 & Hin2 & Hkey2) | Hnone].
           ++ left. exists a2. repeat split; auto.
              rewrite <- Ha'. apply Hsame; [now right | now left | congruence].
           ++ right. split; [intros a2 Hin2 Hkey2; now destruct (Hnone a2 Hin2) |].
              rewrite Hkey, lookup_insert_eq. congruence.
        -- left. exists a'. auto.
        -- right. split; [intros a' Hin; apply Hnone; now right |].
           rewrite lookup_insert_ne; [exact Hjob |].
           intros Hkey. specialize (Hnone a (or_introl eq_refl) Hkey).
           rewrite <- Hkey in Hnone. congruence.
Qed.

End AddJob.

Lemma In_map_to_list {V : Type} (m : gmap string V) (name : string) (v : V) :
  In (name, v) (map_to_list m) <-> m !! name = Some v.
Proof. rewrite <- list_elem_of_In. apply elem_of_map_to_list. Qed.

Section ConfigJobs.

Variable rt : Runtime.
Variable df : DatabaseFlavor.
Variable basedir : string.

Lemma decodeConfigJobs_loop (iniConfig : goini.RawConfig) (config : Config.t) :
  decodeConfigJobs rt df iniConfig basedir config
  = attempt jobs :=
      foldM (addJob rt (fun name => name)
               (fun name =>
                  decodeJobSection rt df (goini.Section iniConfig name) basedir
                    (Job.new name)))
            (goini.Sections iniConfig) ∅ in
    Ok (Config.withJobs jobs config).
Proof. reflexivity. Qed.

Lemma decodeConfigJobs_jobs (iniConfig : goini.RawConfig)
    (config config' : Config.t) :
  decodeConfigJobs rt df iniConfig basedir config = Ok config' ->
  config' = Config.withJobs (Config.Jobs config') config
  /\ forall name job,
       Config.Jobs config' !! name = Some job
       <-> In name (goini.Sections iniConfig)
           /\ reservedName name = false
           /\ decodeJobSection rt df (goini.Section iniConfig name) basedir
                (Job.new name) = Ok job.
Proof.
  rewrite decodeConfigJobs_loop. intros H.
  apply bind_Ok in H as (jobs & Hloop & [= <-]).
  split; [reflexivity |]. intros name job. simpl.
  rewrite (addJob_jobs rt _ _ (goini.Sections iniConfig)
             ltac:(now intros a a' _ _ ->) ∅ jobs Hloop name job).
  split.
  - intros [(a & Hin & -> & Ha) | [_ Hjob]]; [tauto |].
    now rewrite lookup_empty in Hjob.
  - intros (Hin & Hres & Hread). left. exists name. tauto.
Qed.

Lemma decodeConfigJobs_fails (iniConfig : goini.RawConfig) (config : Config.t)
    (e : error) :
  decodeConfigJobs rt df iniConfig basedir config = Fail e ->
  exists name err,
    In name (goini.Sections iniConfig)
    /\ reservedName name = false
    /\ decodeJobSection rt df (goini.Section iniConfig name) basedir
         (Job.new name) = Fail err
    /\ e = jobError rt name err.
Proof.
  rewrite decodeConfigJobs_loop.
  destruct (foldM _ (goini.Sections iniConfig) ∅) as [jobs | e'] eqn:Hloop;
    simpl; [discriminate |].
  intros [= <-].
  apply addJob_fails in Hloop as (name & err & Hin & Hres & Hread & ->).
  exists name, err. tauto.
Qed.

Lemma validateConfigJobs_loop (jsonConfig : JSONConfig.t) (c : Config.t) :
  validateConfigJobs rt df jsonConfig basedir c
  = if negb (isFieldSet rt (ValueOfJSONConfig jsonConfig) "Jobs")
    then Ok (Config.withJobs ∅ c)
    else
      attempt jobs :=
        foldM (addJob rt fst
                 (fun entry : string * JobOptions.t =>
                    validateJobSection rt df (snd entry) basedir
                      (Job.new (fst entry))))
              (map_to_list (JSONConfig.Jobs jsonConfig)) ∅ in
      Ok (Config.withJobs jobs c).
Proof.
  unfold validateConfigJobs. cbv zeta.
  destruct (isFieldSet rt _ "Jobs"); [simpl | reflexivity].
  now rewrite (foldM_ext _ (addJob rt fst
                 (fun entry : string * JobOptions.t =>
                    validateJobSection rt df (snd entry) basedir
                      (Job.new (fst entry)))))
    by now intros jobs [name spec].
Qed.

Lemma validateConfigJobs_jobs (jsonConfig : JSONConfig.t) (c c' : Config.t) :
  validateConfigJobs rt df jsonConfig basedir c = Ok c' ->
  c' = Config.withJobs (Config.Jobs c') c
  /\ forall name job,
       Config.Jobs c' !! name = Some job
       <-> isFieldSet rt (ValueOfJSONConfig jsonConfig) "Jobs" = true
           /\ exists jobSpec,
                JSONConfig.Jobs jsonConfig !! name = Some jobSpec
                /\ reservedName name = false
                /\ validateJobSection rt df jobSpec basedir (Job.new name)
                   = Ok job.
Proof.
  rewrite validateConfigJobs_loop.
  destruct (isFieldSet rt (ValueOfJSONConfig jsonConfig) "Jobs"); simpl.
  2: { intros [= <-]. split; [reflexivity |]. intros name job. simpl.
       rewrite lookup_empty. split; [discriminate | intros [[=] _]]. }
  intros H. apply bind_Ok in H as (jobs & Hloop & [= <-]).
  split; [reflexivity |]. intros name job. simpl.
  rewrite (addJob_jobs rt fst _ (map_to_list (JSONConfig.Jobs jsonConfig))
             ltac:(intros [n s] [n' s'] H H'; simpl; intros <-;
                   apply In_map_to_list in H, H'; congruence)
             ∅ jobs Hloop name job).
  split.
  - intros [([n spec] & Hin & Hn & Hres & Hread) | [_ Hjob]].
    + simpl in Hn. subst n. apply In_map_to_list in Hin.
      split; [reflexivity |]. exists spec. auto.
    + now rewrite lookup_empty in Hjob.
  - intros (_ & spec & Hspec & Hres & Hread). left. exists (name, spec).
    apply In_map_to_list in Hspec. auto.
Qed.

Lemma validateConfigJobs_fails (jsonConfig : JSONConfig.t) (c : Config.t)
    (e : error) :
  validateConfigJobs rt df jsonConfig basedir c = Fail e ->
  isFieldSet rt (ValueOfJSONConfig jsonConfig) "Jobs" = true
  /\ exists name jobSpec err,
       JSONConfig.Jobs jsonConfig !! name = Some jobSpec
       /\ reservedName name = false
       /\ validateJobSection rt df jobSpec basedir (Job.new name) = Fail err
       /\ e = jobError rt name err.
Proof.
  rewrite validateConfigJobs_loop.
  destruct (isFieldSet rt (ValueOfJSONConfig jsonConfig) "Jobs"); simpl;
    [| discriminate].
  destruct (foldM _ (map_to_list (JSONConfig.Jobs jsonConfig)) ∅)
    as [jobs | e'] eqn:Hloop; simpl; [discriminate |].
  intros [= <-].
  apply addJob_fails in Hloop as ([name spec] & err & Hin & Hres & Hread & ->).
  apply In_map_to_list in Hin.
  split; [reflexivity |]. exists name, spec, err. auto.
Qed.

End ConfigJobs.

(** X8.  The job sections of an INI file: when [decodeConfigJobs]
    accepts them, the jobs of the configuration are exactly the sections
    whose name is not [setup], [teardown] or [global], each decoded into a
    new job; when it refuses them, the error is that of a section that
    does not decode, behind the name of the job. *)
Theorem decodeConfigJobs_sections
    (rt : Runtime) (df : DatabaseFlavor) (iniConfig : goini.RawConfig)
    (basedir : string) (config : Config.t) :
  match decodeConfigJobs rt df iniConfig basedir config with
  | Ok config' =>
    config' = Config.withJobs (Config.Jobs config') config
    /\ forall name job,
         Config.Jobs config' !! name = Some job
         <-> In name (goini.Sections iniConfig)
             /\ reservedName name = false
             /\ decodeJobSection rt df (goini.Section iniConfig name) basedir
                  (Job.new name) = Ok job
  | Fail e =>
    exists name err,
      In name (goini.Sections iniConfig)
      /\ reservedName name = false
      /\ decodeJobSection rt df (goini.Section iniConfig name) basedir
           (Job.new name) = Fail err
      /\ e = jobError rt name err
  end.
Proof.
  destruct (decodeConfigJobs rt df iniConfig basedir config) as [config' | e]
    eqn:H.
  - exact (decodeConfigJobs_jobs rt df basedir iniConfig config config' H).
  - exact (decodeConfigJobs_fails rt df basedir iniConfig config e H).
Qed.

(** X9.  The jobs of a JSON document: when [validateConfigJobs] accepts
    them, the jobs of the configuration are exactly the entries of [jobs]
    whose name is not [setup], [teardown] or [global], each validated into
    a new job, and none when [jobs] is not set; when it refuses them, the
    error is that of an entry that does not validate, behind the name of
    the job. *)
Theorem validateConfigJobs_entries
    (rt : Runtime) (df : DatabaseFlavor) (jsonConfig : JSONConfig.t)
    (basedir : string) (c : Config.t) :
  match validateConfigJobs rt df jsonConfig basedir c with
  | Ok c' =>
    c' = Config.withJobs (Config.Jobs c') c
    /\ forall name job,
         Config.Jobs c' !! name = Some job
         <-> isFieldSet rt (ValueOfJSONConfig jsonConfig) "Jobs" = true
             /\ exists jobSpec,
                  JSONConfig.Jobs jsonConfig !! name = Some jobSpec
                  /\ reservedName name = false
                  /\ validateJobSection rt df jobSpec basedir (Job.new name)
                     = Ok job
  | Fail e =>
    isFieldSet rt (ValueOfJSONConfig jsonConfig) "Jobs" = true
    /\ exists name jobSpec err,
         JSONConfig.Jobs jsonConfig !! name = Some jobSpec
         /\ reservedName name = false
         /\ validateJobSection rt df jobSpec basedir (Job.new name) = Fail err
         /\ e = jobError rt name err
  end.
Proof.
  destruct (validateConfigJobs rt df jsonConfig basedir c) as [c' | e] eqn:H.
  - exact (validateConfigJobs_jobs rt df basedir jsonConfig c c' H).
  - exact (validateConfigJobs_fails rt df basedir jsonConfig c e H).
Qed.

(** ** Accepted jobs and accepted configurations *)

Lemma finishJob_QueryArgs (jp : jobParser.t) :
  jobParser.queryArgsFile jp = None ->
  Job.QueryArgs (finishJob jp) = Job.QueryArgs (jobParser.j jp).
Proof.
  unfold finishJob. intros ->. cbv zeta.
  destruct (jobTypes (jobParser.j jp) =? 0);
    match goal with
    | |- context [if ?b then _ else _] => destruct b
    end; reflexivity.
Qed.

Lemma checkJob_wellFormed (w : wording) (df : DatabaseFlavor) (name : string)
    (jp : jobParser.t) (job : Job.t) :
  wellRead df name jp -> checkJob w jp = Ok job -> wellFormed df name job.
Proof.
  intros (_ & Hname & Hargs & Hqueries) Hcheck.
  apply checkJob_Ok in Hcheck as (Hviolation & _ & ->).
  destruct (finishJob_fields jp) as (Hn & _ & _ & Hq & Hl & _).
  unfold wellFormed. rewrite Hn, Hq, Hl.
  split; [exact Hname |]. split; [exact Hqueries |].
  revert Hviolation. unfold violation.
  destruct (Job.Queries (jobParser.j jp)) as [| q qs];
    destruct (Job.QueryLog (jobParser.j jp)) as [f |]; simpl;
    try discriminate.
  - intros Hviolation. right. split; [reflexivity |].
    split; [intros [=] |].
    rewrite finishJob_QueryArgs; [exact Hargs |].
    revert Hviolation.
    destruct (jobParser.queryArgsFile jp); [simpl | reflexivity].
    repeat match goal with
           | |- context [if ?b then _ else _] =>
             lazymatch b with
             | context [if _ then _ else _] => fail
             | _ => destruct b
             end
           end; discriminate.
  - intros _. left. split; [discriminate | reflexivity].
Qed.

Lemma decodeJobSection_wellFormed (rt : Runtime) (df : DatabaseFlavor)
    (section : goini.RawSection) (basedir name : string) (job : Job.t) :
  decodeJobSection rt df section basedir (Job.new name) = Ok job ->
  wellFormed df name job.
Proof.
  rewrite decodeJobSection_checkJob. intros H.
  apply bind_Ok in H as (jp & Hjp & Hcheck).
  apply (checkJob_wellFormed iniWording df name jp job); [| exact Hcheck].
  now apply (Decode_wellRead rt df section basedir).
Qed.

Lemma validateJobSection_wellFormed (rt : Runtime) (df : DatabaseFlavor)
    (jobSpec : JobOptions.t) (basedir name : string) (job : Job.t) :
  validateJobSection rt df jobSpec basedir (Job.new name) = Ok job ->
  wellFormed df name job.
Proof.
  rewrite validateJobSection_checkJob. intros H.
  apply bind_Ok in H as (jp & Hjp & Hcheck).
  apply (checkJob_wellFormed jsonWording df name jp job); [| exact Hcheck].
  now apply (applyJobOptions_wellRead rt df jobSpec basedir).
Qed.

(** *** Setup and teardown queries *)

Lemma decodeSetupSection_passes (rt : Runtime) (df : DatabaseFlavor)
    (s : goini.RawSection) (basedir : string) (queries : list string) :
  decodeSetupSection rt df s basedir = Ok queries ->
  Forall (passes df) queries.
Proof.
  unfold decodeSetupSection, goini.Decode. cbv zeta. intros H.
  apply bind_Ok in H as (parser & Hparser & [= <-]).
  refine (proj2 (decodeFrom_invariant
                   (fun ssp => ssp_df ssp = df
                               /\ Forall (passes df) (ssp_queries ssp))
                   _ _ _ _ _ _ _ Hparser _)).
  - intros key o value ssp ssp'. unfold setupOptions.
    cbn [goini.lookupOption].
    destruct (String.eqb "query" key).
    + intros [= <-]. simpl. intros Hparse [Hdf Hqueries]. revert Hparse.
      rewrite Hdf. destruct (CheckQuery df value) eqn:Hcheck; [discriminate |].
      intros [= <-]. simpl. split; [exact Hdf |].
      apply Forall_app. split; [exact Hqueries | now repeat constructor].
    + destruct (String.eqb "query-file" key); [| discriminate].
      intros [= <-]. simpl. intros Hparse [Hdf Hqueries]. revert Hparse.
      rewrite Hdf.
      destruct (readQueriesFromFile rt df _) as [qs |] eqn:Hfile; simpl;
        [| discriminate].
      intros [= <-]. simpl. split; [exact Hdf |].
      apply Forall_app. split; [exact Hqueries |].
      exact (readQueriesFromFile_passes rt df _ qs Hfile).
  - split; [reflexivity | constructor].
Qed.

Lemma validateReservedSection_passes (rt : Runtime) (df : DatabaseFlavor)
    (jsonConfig : JSONConfig.t) (basedir sectionName : string)
    (ss queries : list string) :
  validateReservedSection rt df jsonConfig basedir sectionName ss = Ok queries ->
  Forall (passes df) ss -> Forall (passes df) queries.
Proof.
  unfold validateReservedSection. cbv zeta.
  destruct (isFieldSet rt (ValueOfJSONConfig jsonConfig) sectionName); simpl;
    [| now intros [= <-]].
  intros H Hss. apply bind_Ok in H as (ss1 & Hss1 & H).
  assert (H1 : Forall (passes df) ss1).
  { revert Hss1. destruct (isFieldSet rt _ "Queries"); [| now intros [= <-]].
    intros Hfold.
    refine (foldM_invariant (Forall (passes df)) _ _ _ _ _ Hfold Hss).
    intros s q s'. destruct (CheckQuery df q) eqn:Hq; [discriminate |].
    intros [= <-] Hs. apply Forall_app. split; [exact Hs |].
    now repeat constructor. }
  revert H. destruct (isFieldSet rt _ "QueryFiles"); [| now intros [= <-]].
  intros Hfold.
  refine (foldM_invariant (Forall (passes df)) _ _ _ _ _ Hfold H1).
  intros s f s'. simpl.
  destruct (readQueriesFromFile rt df _) as [qs |] eqn:Hfile; simpl;
    [| discriminate].
  intros [= <-] Hs. apply Forall_app. split; [exact Hs |].
  exact (readQueriesFromFile_passes rt df _ qs Hfile).
Qed.

Lemma orErrorf_Ok {A : Type} (rt : Runtime) (prefix : string) (r : result A)
    (a : A) :
  orErrorf rt prefix r = Ok a -> r = Ok a.
Proof. destruct r; [now intros [= <-] | discriminate]. Qed.

Lemma validateGlobalSection_other_fields (rt : Runtime)
    (jsonConfig : JSONConfig.t) (c c' : Config.t) :
  validateGlobalSection rt jsonConfig c = Ok c' ->
  Config.Flavor c' = Config.Flavor c /\ Config.Setup c' = Config.Setup c
  /\ Config.Teardown c' = Config.Teardown c.
Proof.
  unfold validateGlobalSection. cbv zeta.
  destruct (isFieldSet rt _ "Duration");
    [destruct (time_ParseDuration rt _); [| discriminate] |];
    simpl; destruct (isFieldSet rt _ "Errors"); now intros [= <-].
Qed.

(** An accepted configuration: it is for the flavor it was parsed for,
    its setup and teardown queries pass [CheckQuery], and each of its jobs
    is well formed under a name that is not reserved. *)
Lemma parseIniSections_accepted (rt : Runtime) (df : DatabaseFlavor)
    (iniConfig : goini.RawConfig) (basedir : string) (config : Config.t) :
  parseIniSections rt df iniConfig basedir = Ok config ->
  acceptedConfig df config.
Proof.
  unfold parseIniSections. cbv zeta. intros H.
  apply bind_Ok in H as (c1 & Hglobal & H). apply orErrorf_Ok in Hglobal.
  apply bind_Ok in H as (setup & Hsetup & H). apply orErrorf_Ok in Hsetup.
  apply bind_Ok in H as (teardown & Hteardown & H).
  apply orErrorf_Ok in Hteardown.
  pose proof (decodeConfigJobs_jobs rt df basedir iniConfig
                (Config.withTeardown teardown (Config.withSetup setup c1)))
    as Hjobs.
  destruct (Hjobs _ H) as [-> Hjobs'].
  unfold decodeGlobalSection in Hglobal.
  pose proof (Decode_read (globalRead rt (Config.new df)) _ _
                (fun read key o value =>
                   globalOptions_read rt (Config.new df) read key value o)
                _ _ c1 Hglobal) as (Hflavor & _).
  { unfold globalRead. repeat split; try tauto.
    - intros [He | []]. exact He.
    - intros v []. }
  unfold acceptedConfig. simpl.
  split; [| split; [| split; [| intros name job Hname; split]]].
  - exact Hflavor.
  - exact (decodeSetupSection_passes rt df _ basedir setup Hsetup).
  - exact (decodeSetupSection_passes rt df _ basedir teardown Hteardown).
  - now apply Hjobs' in Hname.
  - apply Hjobs' in Hname as (_ & _ & Hjob).
    exact (decodeJobSection_wellFormed rt df _ basedir name job Hjob).
Qed.

Lemma parseJSONSections_accepted (rt : Runtime) (df : DatabaseFlavor)
    (jsonConfig : JSONConfig.t) (basedir : string) (config : Config.t) :
  parseJSONSections rt df jsonConfig basedir = Ok config ->
  acceptedConfig df config.
Proof.
  unfold parseJSONSections. cbv zeta. intros H.
  apply bind_Ok in H as (c1 & Hglobal & H). apply orErrorf_Ok in Hglobal.
  apply bind_Ok in H as (setup & Hsetup & H). apply orErrorf_Ok in Hsetup.
  apply bind_Ok in H as (teardown & Hteardown & H).
  apply orErrorf_Ok in Hteardown.
  pose proof (validateConfigJobs_jobs rt df basedir jsonConfig
                (Config.withTeardown teardown (Config.withSetup setup c1)))
    as Hjobs.
  destruct (Hjobs _ H) as [-> Hjobs'].
  apply validateGlobalSection_other_fields in Hglobal
    as (Hflavor & Hs & Ht).
  simpl in Hs, Ht. rewrite Hs in Hsetup. simpl in Hteardown.
  rewrite Ht in Hteardown.
  unfold acceptedConfig. simpl.
  split; [| split; [| split; [| intros name job Hname; split]]].
  - exact Hflavor.
  - apply (validateReservedSection_passes rt df _ _ _ _ _ Hsetup).
    constructor.
  - apply (validateReservedSection_passes rt df _ _ _ _ _ Hteardown).
    constructor.
  - apply Hjobs' in Hname as (_ & spec & _ & Hres & _). exact Hres.
  - apply Hjobs' in Hname as (_ & spec & _ & _ & Hjob).
    exact (validateJobSection_wellFormed rt df _ basedir name job Hjob).
Qed.

Lemma parseConfig_accepted (rt : Runtime) (df : DatabaseFlavor)
    (configFile baseDir : string) (config : Config.t) :
  parseConfig rt df configFile baseDir = Ok config ->
  acceptedConfig df config.
Proof.
  unfold parseConfig.
  assert (Hoffsets : forall c, checkOffsets rt c = Ok config -> c = config).
  { intros c. unfold checkOffsets.
    destruct (foldM _ _ tt); simpl; [now intros [= <-] | discriminate]. }
  destruct (isJSONFile rt configFile).
  - intros H. apply bind_Ok in H as (content & _ & H).
    apply bind_Ok in H as (jsonConfig & _ & H).
    rewrite parseJSONConfig_checkOffsets in H.
    apply bind_Ok in H as (c & Hc & H). apply Hoffsets in H as ->.
    exact (parseJSONSections_accepted rt df jsonConfig baseDir config Hc).
  - intros H. apply bind_Ok in H as (iniConfig & _ & H).
    rewrite parseIniConfig_checkOffsets in H.
    apply bind_Ok in H as (c & Hc & H). apply Hoffsets in H as ->.
    exact (parseIniSections_accepted rt df iniConfig baseDir config Hc).
Qed.

(** X10.  A configuration accepted by [parseConfig], in either syntax, is
    for the flavor it was parsed for; its setup and teardown queries and
    the queries of its jobs all pass [CheckQuery]; no job is called
    [setup], [teardown] or [global]; every job carries the name it is
    filed under, and has either queries or a query log to replay, never
    both, a job that replays a log having no query arguments. *)
Theorem accepted_configuration
    (rt : Runtime) (df : DatabaseFlavor) (configFile baseDir : string)
    (config : Config.t) :
  parseConfig rt df configFile baseDir = Ok config ->
  Config.Flavor config = df
  /\ Forall (passes df) (Config.Setup config)
  /\ Forall (passes df) (Config.Teardown config)
  /\ forall name job,
       Config.Jobs config !! name = Some job ->
       reservedName name = false
       /\ Job.Name job = name
       /\ Forall (passes df) (Job.Queries job)
       /\ ((Job.Queries job <> [] /\ Job.QueryLog job = None)
           \/ (Job.Queries job = [] /\ Job.QueryLog job <> None
               /\ Job.QueryArgs job = None)).
Proof. exact (parseConfig_accepted rt df configFile baseDir config). Qed.

Lemma accepted_configuration_witness :
  exists config,
    parseConfig Sample.runtime Sample.flavor "/bench/odd.ini" "/bench"
    = Ok config
    /\ forall name job,
         Config.Jobs config !! name = Some job ->
         reservedName name = false /\ Job.Name job = name.
Proof.
  eexists. split; [vm_compute; reflexivity |].
  intros name job Hjob.
  destruct (accepted_configuration Sample.runtime Sample.flavor
              "/bench/odd.ini" "/bench" _ ltac:(vm_compute; reflexivity))
    as (_ & _ & _ & Hjobs).
  destruct (Hjobs name job Hjob) as (Hname & Hjob' & _).
  split; assumption.
Defined.

(** ** A query that [CheckQuery] refuses *)

Lemma decodeFrom_refused_when {S : Type} (I : S -> Prop)
    (errs : goini.Errors) (dos : goini.DecodeOptionSet S)
    (o : goini.DecodeOption S) (key value : string)
    (props : goini.RawSection) :
  In (key, value) props ->
  goini.lookupOption dos key = Some o ->
  (forall s, I s -> exists e, goini.Parse o value s = Fail e) ->
  (forall key o value s s',
      goini.lookupOption dos key = Some o ->
      goini.Parse o value s = Ok s' -> I s -> I s') ->
  forall seen dst, I dst ->
    exists e, goini.decodeFrom errs dos seen props dst = Fail e.
Proof.
  intros Hin Ho Hfail Hkeep.
  induction props as [| [k v] props IH]; [destruct Hin |].
  intros seen dst Hdst. simpl.
  destruct Hin as [[= -> ->] | Hin].
  - rewrite Ho.
    destruct (goini.isUnique (goini.Kind o) && goini.seenBefore seen key);
      [eauto |].
    destruct (Hfail dst Hdst) as [e ->]. simpl. eauto.
  - destruct (goini.lookupOption dos k) as [o' |] eqn:Ho'; [| eauto].
    destruct (goini.isUnique (goini.Kind o') && goini.seenBefore seen k);
      [eauto |].
    destruct (goini.Parse o' v dst) as [dst' |] eqn:Hparse; simpl; [| eauto].
    apply (IH Hin). exact (Hkeep k o' v dst dst' Ho' Hparse Hdst).
Qed.

Lemma jobOptions_df (rt : Runtime) (key value : string)
    (o : goini.DecodeOption jobParser.t) (jp jp' : jobParser.t) :
  goini.lookupOption (jobOptions rt) key = Some o ->
  goini.Parse o value jp = Ok jp' ->
  jobParser.df jp' = jobParser.df jp.
Proof.
  unfold jobOptions. cbn [goini.lookupOption].
  repeat match goal with
         | |- (if String.eqb ?k key then _ else _) = Some _ -> _ =>
           destruct (String.eqb k key)
         end;
    try discriminate;
    intros [= <-]; cbn [goini.Parse];
    open_body; intros [= <-]; reflexivity.
Qed.

Lemma setupOptions_df (rt : Runtime) (key value : string)
    (o : goini.DecodeOption setupSectionParser) (ssp ssp' : setupSectionParser) :
  goini.lookupOption (setupOptions rt) key = Some o ->
  goini.Parse o value ssp = Ok ssp' ->
  ssp_df ssp' = ssp_df ssp.
Proof.
  unfold setupOptions. cbn [goini.lookupOption].
  repeat match goal with
         | |- (if String.eqb ?k key then _ else _) = Some _ -> _ =>
           destruct (String.eqb k key)
         end;
    try discriminate;
    intros [= <-]; cbn [goini.Parse];
    open_body; intros [= <-]; reflexivity.
Qed.

Lemma refused_in_loop {S : Type} (df : DatabaseFlavor) (v : string)
    (err : error) (add : string -> S -> S) (queries : list string) :
  CheckQuery df v = Some err -> In v queries ->
  forall s,
    exists e,
      foldM (fun s query =>
               match CheckQuery df query with
               | Some err => Fail err
               | None => Ok (add query s)
               end) queries s = Fail e.
Proof.
  intros Hv Hin. apply (foldM_refused _ queries v Hin).
  intros s. rewrite Hv. eauto.
Qed.

(** X11.  A query that [CheckQuery] refuses, be it only for being empty,
    makes the section that lists it fail: a setup or teardown section and
    a job section, in the INI and in the JSON syntax; a section that holds
    nothing but this query fails with the very error of [CheckQuery].  In
    a query file an empty segment is passed over instead: a file made of
    empty segments only gives no query and no error. *)
Theorem refused_query_fails_the_section
    (rt : Runtime) (df : DatabaseFlavor) (basedir v : string) (err : error) :
  CheckQuery df v = Some err ->
  (forall section,
      In ("query", v) section ->
      exists e, decodeSetupSection rt df section basedir = Fail e)
  /\ (forall section job0,
         In ("query", v) section ->
         exists e, decodeJobSection rt df section basedir job0 = Fail e)
  /\ (forall jsonConfig sectionName section ss,
         (sectionName = "Setup" /\ section = JSONConfig.Setup jsonConfig
          \/ sectionName = "Teardown"
             /\ section = JSONConfig.Teardown jsonConfig) ->
         isFieldSet rt (ValueOfJSONConfig jsonConfig) sectionName = true ->
         isFieldSet rt (ValueOfReserved section) "Queries" = true ->
         In v (ReservedSectionOptions.Queries section) ->
         exists e,
           validateReservedSection rt df jsonConfig basedir sectionName ss
           = Fail e)
  /\ (forall jobSpec job0,
         isFieldSet rt (ValueOfJobOptions jobSpec) "Queries" = true ->
         In v (JobOptions.Queries jobSpec) ->
         exists e, validateJobSection rt df jobSpec basedir job0 = Fail e)
  /\ decodeSetupSection rt df [("query", v)] basedir = Fail err
  /\ (forall job0,
         decodeJobSection rt df [("query", v)] basedir job0 = Fail err)
  /\ (forall r contents,
         ioutil_ReadAll rt r = Ok contents ->
         Forall (fun q => CheckQuery df q = Some EmptyQueryError)
                (strings.Split contents (QuerySeparator df)) ->
         readQueriesFromReader rt df r = Ok []).
Proof.
  intros Hv. repeat apply conj.
  - intros section Hin. unfold decodeSetupSection, goini.Decode. cbv zeta.
    destruct (decodeFrom_refused_when (fun ssp => ssp_df ssp = df)
                (goini_errors rt) (setupOptions rt) _ "query" v section
                Hin eq_refl) with
      (seen := @nil string)
      (dst := {| ssp_queries := []; ssp_df := df; ssp_basedir := basedir |})
      as [e He].
    + intros ssp Hdf. simpl. rewrite Hdf, Hv. eauto.
    + intros key o value s s' Ho Hparse Hs.
      now rewrite (setupOptions_df rt key value o s s' Ho Hparse).
    + reflexivity.
    + exists e. now rewrite He.
  - intros section job0 Hin. unfold decodeJobSection, goini.Decode.
    destruct (decodeFrom_refused_when (fun jp => jobParser.df jp = df)
                (goini_errors rt) (jobOptions rt) _ "query" v section
                Hin eq_refl) with
      (seen := @nil string) (dst := jobParser.make job0 df basedir)
      as [e He].
    + intros jp Hdf. simpl. rewrite Hdf, Hv. eauto.
    + intros key o value s s' Ho Hparse Hs.
      now rewrite (jobOptions_df rt key value o s s' Ho Hparse).
    + reflexivity.
    + exists e. now rewrite He.
  - intros jsonConfig sectionName section ss Hsection Hset Hqueries Hin.
    unfold validateReservedSection. cbv zeta. rewrite Hset. simpl.
    assert (Hsame : (if String.eqb sectionName "Setup"
                     then JSONConfig.Setup jsonConfig
                     else if String.eqb sectionName "Teardown"
                          then JSONConfig.Teardown jsonConfig
                          else {| ReservedSectionOptions.Queries := [];
                                  ReservedSectionOptions.QueryFiles := [] |})
                    = section).
    { destruct Hsection as [[-> ->] | [-> ->]]; reflexivity. }
    rewrite Hsame, Hqueries.
    destruct (refused_in_loop df v err (fun query ss => ss ++ [query])
                _ Hv Hin ss) as [e ->].
    simpl. eauto.
  - intros jobSpec job0 Hset Hin. unfold validateJobSection, applyJobOptions.
    cbv zeta. rewrite Hset.
    do 2 match goal with
         | |- exists e, bind (bind ?m _) _ = Fail e =>
           destruct m as [? |]; simpl bind; [| eauto]
         end.
    match goal with
    | |- exists e, bind (bind (foldM _ _ ?s) _) _ = Fail e =>
      destruct (refused_in_loop df v err
                  (fun query jp =>
                     jobParser.onJob
                       (fun job =>
                          Job.withQueries (Job.Queries job ++ [query]) job) jp)
                  _ Hv Hin s) as [e ->]
    end.
    simpl. eauto.
  - unfold decodeSetupSection, goini.Decode. simpl. now rewrite Hv.
  - intros job0. unfold decodeJobSection, goini.Decode. simpl. now rewrite Hv.
  - intros r contents Hread Hempty. unfold readQueriesFromReader.
    rewrite Hread. simpl.
    rewrite (loop_benign rt df _ []).
    + simpl. f_equal. induction Hempty as [| q qs Hq _ IH]; [reflexivity |].
      simpl. unfold kept at 1. now rewrite Hq.
    + eapply Forall_impl; [exact Hempty |]. intros q Hq. now right.
Qed.

Lemma refused_query_fails_the_section_witness :
  decodeSetupSection Sample.runtime Sample.flavor [("query", " ")] "/bench"
  = Fail EmptyQueryError.
Proof.
  apply (refused_query_fails_the_section Sample.runtime Sample.flavor
           "/bench" " " EmptyQueryError).
  reflexivity.
Defined.

(** ** The errors of a configuration *)

Lemma orErrorf_Fail {A : Type} (rt : Runtime) (prefix : string) (r : result A)
    (e : error) :
  orErrorf rt prefix r = Fail e ->
  exists err, r = Fail err /\ e = New (prefix +:+ Error rt err).
Proof. destruct r as [| err]; [discriminate | intros [= <-]]. eauto. Qed.

Lemma bind_Fail {A B : Type} (m : result A) (k : A -> result B) (e : error) :
  bind m k = Fail e -> m = Fail e \/ exists a, m = Ok a /\ k a = Fail e.
Proof. destruct m as [a |]; simpl; [eauto | intros [= <-]; now left]. Qed.

Lemma checkOffsets_fails (rt : Runtime) (config : Config.t) (e : error) :
  checkOffsets rt config = Fail e ->
  0 < Config.Duration config
  /\ exists name job,
       Config.Jobs config !! name = Some job
       /\ ((Config.Duration config < Job.Start job /\ e = startsLate rt name)
           \/ (Config.Duration config < Job.Stop job /\ e = stopsLate rt name)).
Proof.
  intros Hfail.
  destruct (Z.ltb_spec 0 (Config.Duration config)) as [Hpos | Hpos].
  - split; [exact Hpos |].
    pose proof (checkOffsets_spec rt config Hpos) as Hspec.
    now rewrite Hfail in Hspec.
  - exfalso. revert Hfail. unfold checkOffsets.
    assert (Hloop : forall jobs,
               foldM (checkOffset rt (Config.Duration config)) jobs tt = Ok tt).
    { induction jobs as [| [name job] jobs IH]; [reflexivity |].
      cbn [foldM]. unfold checkOffset at 1.
      replace (0 <? Config.Duration config) with false
        by (symmetry; apply Z.ltb_ge; exact Hpos).
      rewrite andb_false_r. simpl. exact IH. }
    now rewrite Hloop.
Qed.

(** X12.  Every error of [parseIniConfig] and of [parseJSONConfig] names
    the stage that failed: the error of the global section, of the setup
    section or of the teardown section behind a prefix of its own, the
    error of a job behind the name of the job, or a job of the
    configuration read that starts or stops after a test of limited
    duration finishes. *)
Theorem parse_errors_name_their_stage
    (rt : Runtime) (df : DatabaseFlavor) (basedir : string) :
  (forall iniConfig e,
      parseIniConfig rt df iniConfig basedir = Fail e ->
      (exists err,
          decodeGlobalSection rt df (goini.GlobalSection iniConfig)
            (Config.new df) = Fail err
          /\ e = New ("Error parsing global section: " +:+ Error rt err))
      \/ (exists err,
             decodeSetupSection rt df (goini.Section iniConfig "setup") basedir
             = Fail err
             /\ e = New ("Error parsing setup section: " +:+ Error rt err))
      \/ (exists err,
             decodeSetupSection rt df (goini.Section iniConfig "teardown")
               basedir = Fail err
             /\ e = New ("Error parsing teardown section: " +:+ Error rt err))
      \/ (exists name err,
             In name (goini.Sections iniConfig)
             /\ reservedName name = false
             /\ decodeJobSection rt df (goini.Section iniConfig name) basedir
                  (Job.new name) = Fail err
             /\ e = jobError rt name err)
      \/ (exists config name job,
             parseIniSections rt df iniConfig basedir = Ok config
             /\ 0 < Config.Duration config
             /\ Config.Jobs config !! name = Some job
             /\ ((Config.Duration config < Job.Start job
                  /\ e = startsLate rt name)
                 \/ (Config.Duration config < Job.Stop job
                     /\ e = stopsLate rt name))))
  /\ (forall jsonConfig e,
         parseJSONConfig rt df jsonConfig basedir = Fail e ->
         (exists err,
             validateGlobalSection rt jsonConfig (Config.new df) = Fail err
             /\ e = New ("Error parsing global section: " +:+ Error rt err))
         \/ (exists err,
                validateReservedSection rt df jsonConfig basedir "Setup" []
                = Fail err
                /\ e = New ("Error parsing setup section: " +:+ Error rt err))
         \/ (exists err,
                validateReservedSection rt df jsonConfig basedir "Teardown" []
                = Fail err
                /\ e = New ("Error parsing teardown section: "
                              +:+ Error rt err))
         \/ (exists name jobSpec err,
                JSONConfig.Jobs jsonConfig !! name = Some jobSpec
                /\ reservedName name = false
                /\ validateJobSection rt df jobSpec basedir (Job.new name)
                   = Fail err
                /\ e = jobError rt name err)
         \/ (exists config name job,
                parseJSONSections rt df jsonConfig basedir = Ok config
                /\ 0 < Config.Duration config
                /\ Config.Jobs config !! name = Some job
                /\ ((Config.Duration config < Job.Start job
                     /\ e = startsLate rt name)
                    \/ (Config.Duration config < Job.Stop job
                        /\ e = stopsLate rt name)))).
Proof.
  split.
  - intros iniConfig e. rewrite parseIniConfig_checkOffsets. intros H.
    apply bind_Fail in H as [H | (config & Hconfig & H)].
    + unfold parseIniSections in H. cbv zeta in H.
      apply bind_Fail in H as [H | (c1 & _ & H)];
        [apply orErrorf_Fail in H; now left |].
      apply bind_Fail in H as [H | (setup & _ & H)];
        [apply orErrorf_Fail in H; right; now left |].
      apply bind_Fail in H as [H | (teardown & _ & H)];
        [apply orErrorf_Fail in H; right; right; now left |].
      apply decodeConfigJobs_fails in H. right. right. right. now left.
    + apply checkOffsets_fails in H as (Hpos & name & job & Hjob & He).
      right. right. right. right. exists config, name, job. auto.
  - intros jsonConfig e. rewrite parseJSONConfig_checkOffsets. intros H.
    apply bind_Fail in H as [H | (config & Hconfig & H)].
    + unfold parseJSONSections in H. cbv zeta in H.
      apply bind_Fail in H as [H | (c1 & Hc1 & H)];
        [apply orErrorf_Fail in H; now left |].
      apply orErrorf_Ok, validateGlobalSection_other_fields in Hc1
        as (_ & Hs & Ht).
      simpl in Hs, Ht. rewrite Hs in H. simpl in H. rewrite Ht in H.
      apply bind_Fail in H as [H | (setup & _ & H)];
        [apply orErrorf_Fail in H as (err & H & ->); right; left; eauto |].
      apply bind_Fail in H as [H | (teardown & _ & H)];
        [apply orErrorf_Fail in H as (err & H & ->); right; right; left; eauto |].
      apply validateConfigJobs_fails in H as (_ & H).
      right. right. right. now left.
    + apply checkOffsets_fails in H as (Hpos & name & job & Hjob & He).
      right. right. right. right. exists config, name, job. auto.
Qed.

(** ** What a parser keeps beside the job *)

Ltac close_parserSide :=
  intros;
  repeat match goal with
         | H : parserSide _ _ _ _ |- _ => destruct H as (? & ? & ?)
         end;
  match goal with H : _ = Ok _ |- _ => revert H end;
  open_body; intros [= <-]; unfold parserSide; simpl;
  repeat split; assumption.

Lemma applyJobOptions_parserSide (rt : Runtime) (df : DatabaseFlavor)
    (jobSpec : JobOptions.t) (basedir : string) (job0 : Job.t)
    (jp : jobParser.t) :
  applyJobOptions rt df jobSpec basedir job0 = Ok jp ->
  let set := isFieldSet rt (ValueOfJobOptions jobSpec) in
  (if set "QueryArgsFile"
   then exists f,
          os_Open rt (inBasedir rt basedir (JobOptions.QueryArgsFile jobSpec))
          = Ok f
          /\ jobParser.queryArgsFile jp = Some f
   else jobParser.queryArgsFile jp = None)
  /\ (if set "QueryArgsDelim"
      then String.length (JobOptions.QueryArgsDelim jobSpec) = 1%nat
           /\ jobParser.queryArgsDelim jp
              = fst (utf8.DecodeRuneInString (JobOptions.QueryArgsDelim jobSpec))
      else jobParser.queryArgsDelim jp = 0)
  /\ jobParser.multiQueryAllowed jp
     = set "MultiQueryMode" && JobOptions.MultiQueryMode jobSpec.
Proof.
  unfold applyJobOptions. cbv zeta.
  assert (H0 : parserSide None 0 false (jobParser.make job0 df basedir))
    by (repeat split).
  revert H0. generalize (jobParser.make job0 df basedir) as jp0.
  intros jp0 H0.
  do 4 through_block (parserSide None 0 false) close_parserSide.
  match goal with
  | Hprev : parserSide None 0 false ?prev |- _ =>
    destruct Hprev as (Hfile & Hdelim & Hmulti)
  end.
  destruct (isFieldSet rt _ "QueryArgsFile");
    [destruct (os_Open rt _) as [f |] eqn:Hopen; [| discriminate] |];
    simpl bind;
    (destruct (isFieldSet rt _ "QueryArgsDelim");
     [destruct (negb (String.length _ =? 1)%nat) eqn:Hlen; [discriminate |] |];
     simpl bind).
  all: match goal with
       | |- bind _ _ = Ok _ -> _ => idtac
       end.
  all: match goal with
       | |- bind (if _ then _ else Ok ?prev) _ = Ok _ -> _ =>
         assert (Hprev : parserSide (jobParser.queryArgsFile prev)
                           (jobParser.queryArgsDelim prev) false prev)
           by (repeat split; simpl; assumption);
         simpl in Hprev
       end.
  all: do 2 match goal with
            | Hprev : parserSide ?file ?delim false ?prev |- _ =>
              through_block (parserSide file delim false) close_parserSide
            end.
  all: match goal with
       | Hprev : parserSide _ _ _ ?prev |- _ =>
         destruct Hprev as (Hf & Hd & Hm);
         destruct prev as [[] ? ? ? ? ?]; simpl in Hf, Hd, Hm
       end.
  all: last_blocks rt; intros [= <-]; simpl.
  all: try apply Bool.negb_false_iff, Nat.eqb_eq in Hlen.
  all: repeat split; try assumption; try (symmetry; assumption);
    try congruence; eauto.
Qed.

Lemma DecodeRune_one_byte (a : ascii) :
  fst (utf8.DecodeRuneInString (String a EmptyString)) = runeOfByte a.
Proof.
  unfold runeOfByte, utf8.DecodeRuneInString.
  destruct (utf8.byte a <? 128); [reflexivity |].
  unfold utf8.first.
  repeat match goal with
         | |- context [if ?b then _ else _] =>
           lazymatch b with
           | context [if _ then _ else _] => fail
           | _ => destruct b
           end
         end; reflexivity.
Qed.

Lemma finishJob_reader (jp : jobParser.t) (f : File) :
  jobParser.queryArgsFile jp = Some f ->
  Job.QueryArgs (finishJob jp)
  = Some {| csvSource := f;
            Comma := if jobParser.queryArgsDelim jp =? 0 then 44
                     else jobParser.queryArgsDelim jp |}.
Proof.
  unfold finishJob. intros ->. cbv zeta.
  destruct (jobTypes (jobParser.j jp) =? 0);
    match goal with
    | |- context [if SFltb ?x ?y && ?c then _ else _] =>
      destruct (SFltb x y && c)
    end;
    destruct (jobParser.queryArgsDelim jp =? 0); reflexivity.
Qed.

(** X13.  A delimiter of one byte, in a JSON job: an ASCII byte other
    than NUL becomes the delimiter of the arguments reader, a byte that is
    not ASCII is accepted and becomes U+FFFD, and a NUL byte is accepted
    and ignored, the reader keeping its comma, even when the job has no
    arguments file and so no reader.  The INI option reads the unquoted byte in the same
    way. *)
Theorem one_byte_delimiter
    (rt : Runtime) (df : DatabaseFlavor) (basedir name : string)
    (jobSpec : JobOptions.t) (a : ascii) (job : Job.t) :
  isFieldSet rt (ValueOfJobOptions jobSpec) "QueryArgsDelim" = true ->
  JobOptions.QueryArgsDelim jobSpec = String a EmptyString ->
  validateJobSection rt df jobSpec basedir (Job.new name) = Ok job ->
  (runeOfByte a <> 0 ->
   isFieldSet rt (ValueOfJobOptions jobSpec) "QueryArgsFile" = true
   /\ exists f,
        os_Open rt (inBasedir rt basedir (JobOptions.QueryArgsFile jobSpec))
        = Ok f
        /\ Job.QueryArgs job
           = Some {| csvSource := f; Comma := runeOfByte a |})
  /\ (runeOfByte a = 0 ->
      if isFieldSet rt (ValueOfJobOptions jobSpec) "QueryArgsFile"
      then exists f,
             os_Open rt (inBasedir rt basedir (JobOptions.QueryArgsFile jobSpec))
             = Ok f
             /\ Job.QueryArgs job = Some (csv_NewReader f)
      else Job.QueryArgs job = None)
  /\ (forall o v jp,
         goini.lookupOption (jobOptions rt) "query-args-delim" = Some o ->
         strconv_Unquote rt v = Ok (String a EmptyString) ->
         goini.Parse o v jp
         = Ok (jobParser.withQueryArgsDelim (runeOfByte a) jp)).
Proof.
  intros Hset Hdelim. rewrite validateJobSection_checkJob. intros H.
  apply bind_Ok in H as (jp & Hjp & Hcheck).
  pose proof (applyJobOptions_parserSide rt df jobSpec basedir _ jp Hjp)
    as (Hfile & Hd & _).
  pose proof (applyJobOptions_wellRead rt df jobSpec basedir name jp Hjp)
    as (_ & _ & Hargs & _).
  cbv zeta in Hfile, Hd. rewrite Hset, Hdelim in Hd. destruct Hd as [_ Hd].
  rewrite DecodeRune_one_byte in Hd.
  apply checkJob_Ok in Hcheck as (Hviolation & _ & ->).
  split; [| split].
  - intros Hrune.
    destruct (isFieldSet rt _ "QueryArgsFile").
    + split; [reflexivity |]. destruct Hfile as (f & Hopen & Hf).
      exists f. split; [exact Hopen |].
      rewrite (finishJob_reader jp f Hf), Hd.
      now destruct (Z.eqb_spec (runeOfByte a) 0).
    + exfalso. revert Hviolation. unfold violation. rewrite Hfile, Hd.
      destruct (Z.eqb_spec (runeOfByte a) 0) as [| _]; [contradiction |].
      simpl.
      repeat match goal with
             | |- context [if ?b then _ else _] =>
               lazymatch b with
               | context [if _ then _ else _] => fail
               | _ => destruct b
               end
             end; discriminate.
  - intros Hrune.
    destruct (isFieldSet rt _ "QueryArgsFile").
    + destruct Hfile as (f & Hopen & Hf). exists f. split; [exact Hopen |].
      rewrite (finishJob_reader jp f Hf), Hd, Hrune. reflexivity.
    + now rewrite (finishJob_QueryArgs jp Hfile).
  - intros o v jp' [= <-] Hv. cbn [goini.Parse]. rewrite Hv.
    cbn [bind String.length Nat.eqb negb].
    now rewrite DecodeRune_one_byte.
Qed.

Lemma one_byte_delimiter_witness :
  exists job,
    validateJobSection Sample.runtime Sample.flavor ratePacedJob "/bench"
      (Job.new "paced") = Ok job
    /\ Job.QueryArgs job
       = Some {| csvSource := FileAt "/bench/args.csv"; Comma := 59 |}.
Proof.
  eexists. split; [vm_compute; reflexivity |].
  match goal with
  | |- Job.QueryArgs ?job = _ =>
    assert (Hjob : validateJobSection Sample.runtime Sample.flavor
                     ratePacedJob "/bench" (Job.new "paced") = Ok job)
      by (vm_compute; reflexivity);
    destruct (one_byte_delimiter Sample.runtime Sample.flavor "/bench"
                "paced" ratePacedJob (ascii_of_nat 59) job eq_refl eq_refl
                Hjob) as [Hrune _]
  end.
  destruct Hrune as (_ & f & Hopen & ->); [discriminate |].
  vm_compute in Hopen. injection Hopen as <-. reflexivity.
Defined.

Example nul_delimiter_ignored :
  validateJobSection Sample.runtime Sample.flavor (delimited EmptyString nul)
    "/bench" (Job.new "nul")
  = Ok (Job.withQueueDepth 1 (Job.withQueries ["select 1"] (Job.new "nul"))).
Proof. vm_compute. reflexivity. Qed.

Example continuation_byte_delimiter :
  Job.QueryArgs <$>
    (match validateJobSection Sample.runtime Sample.flavor
             (delimited "args.csv" continuation) "/bench" (Job.new "odd") with
     | Ok job => Some job
     | Fail _ => None
     end)
  = Some (Some {| csvSource := FileAt "/bench/args.csv"; Comma := 65533 |}).
Proof. vm_compute. reflexivity. Qed.

(** *** Several queries *)

Lemma jobOptions_multiQueryRead (rt : Runtime) (read : goini.RawSection)
    (key value : string) (o : goini.DecodeOption jobParser.t)
    (jp jp' : jobParser.t) :
  goini.lookupOption (jobOptions rt) key = Some o ->
  goini.Parse o value jp = Ok jp' ->
  multiQueryRead read jp -> multiQueryRead (read ++ [(key, value)]) jp'.
Proof.
  unfold jobOptions, multiQueryRead. cbn [goini.lookupOption].
  repeat match goal with
         | |- (if String.eqb ?k key then _ else _) = Some _ -> _ =>
           destruct (String.eqb_spec k key) as [<- |]
         end;
    try discriminate;
    intros [= <-]; cbn [goini.Parse];
    try (destruct (String.eqb_spec value "multi-connection") as [-> |];
         [intros [= <-] _ _; apply In_snoc; now right | discriminate]);
    open_body; intros [= <-]; simpl; intros Hread Hmulti;
    apply In_snoc; left; exact (Hread Hmulti).
Qed.

(** X14.  A job accepted with more than one query has asked for it: its
    INI section holds [multi-query-mode = multi-connection], its JSON form
    has [multiQueryMode] set and true. *)
Theorem several_queries_need_multi_query_mode
    (rt : Runtime) (df : DatabaseFlavor) (basedir : string) (job0 : Job.t) :
  (forall section job,
      decodeJobSection rt df section basedir job0 = Ok job ->
      (1 < length (Job.Queries job))%nat ->
      In ("multi-query-mode", "multi-connection") section)
  /\ (forall jobSpec job,
         validateJobSection rt df jobSpec basedir job0 = Ok job ->
         (1 < length (Job.Queries job))%nat ->
         isFieldSet rt (ValueOfJobOptions jobSpec) "MultiQueryMode" = true
         /\ JobOptions.MultiQueryMode jobSpec = true).
Proof.
  assert (Hmulti : forall w jp job,
             checkJob w jp = Ok job ->
             (1 < length (Job.Queries job))%nat ->
             jobParser.multiQueryAllowed jp = true).
  { intros w jp job Hcheck Hlen.
    apply checkJob_Ok in Hcheck as (Hviolation & _ & ->).
    destruct (finishJob_fields jp) as (_ & _ & _ & Hq & _).
    rewrite Hq in Hlen. apply Nat.ltb_lt in Hlen.
    revert Hviolation. unfold violation. rewrite Hlen.
    destruct (jobParser.multiQueryAllowed jp); [reflexivity |].
    simpl.
    repeat match goal with
           | |- context [if ?b then _ else _] =>
             lazymatch b with
             | context [if _ then _ else _] => fail
             | _ => destruct b
             end
           end; discriminate. }
  split.
  - intros section job. rewrite decodeJobSection_checkJob. intros H Hlen.
    apply bind_Ok in H as (jp & Hjp & Hcheck).
    apply (Decode_read multiQueryRead _ _
             (fun read key o value =>
                jobOptions_multiQueryRead rt read key value o)
             section _ jp Hjp).
    + discriminate.
    + exact (Hmulti _ _ _ Hcheck Hlen).
  - intros jobSpec job. rewrite validateJobSection_checkJob. intros H Hlen.
    apply bind_Ok in H as (jp & Hjp & Hcheck).
    pose proof (applyJobOptions_parserSide rt df jobSpec basedir job0 jp Hjp)
      as (_ & _ & Hm).
    rewrite (Hmulti _ _ _ Hcheck Hlen) in Hm. symmetry in Hm.
    now apply andb_true_iff in Hm.
Qed.

Example several_queries_accepted :
  Job.Queries <$>
    (match validateJobSection Sample.runtime Sample.flavor queriesThenFile
             "/bench" (Job.new "many") with
     | Ok job => Some job
     | Fail _ => None
     end)
  = Some ["select 3"; "select 1"; "select 2"].
Proof. vm_compute. reflexivity. Qed.

(** ** The shape of a run *)

Section ShapeFacts.

Context {DB JobStats : Type}.
Variable rt : Runtime.
Variable w : Runner.World DB JobStats.

Local Abbreviation trace := (list (Runner.event JobStats)).

(** A run of queries stops at the first that fails. *)
Lemma runAll_cases (qs : list string) (db : DB) :
  (exists db', runAll w db qs = Some db')
  \/ exists pre q post db1 db2 err,
       qs = pre ++ q :: post
       /\ runAll w db pre = Some db1
       /\ Runner.db_RunQuery w db1 q = (Some err, db2).
Proof.
  revert db. induction qs as [| q qs IH]; intros db; [left; now exists db |].
  simpl. destruct (Runner.db_RunQuery w db q) as [[err |] db'] eqn:Hq.
  - right. exists [], q, qs, db, db', err. auto.
  - destruct (IH db') as [Hall | (pre & q' & post & db1 & db2 & err & -> & Hpre & Hq')];
      [now left | right].
    exists (q :: pre), q', post, db1, db2, err. simpl. rewrite Hq. auto.
Qed.

Lemma quiet_cons (e : Runner.event JobStats) (tr : trace) :
  quiet (e :: tr) = negb (isFatal e) && quiet tr.
Proof. reflexivity. Qed.

Lemma quiet_app (tr1 tr2 : trace) : quiet (tr1 ++ tr2) = quiet tr1 && quiet tr2.
Proof. apply forallb_app. Qed.

Lemma quiet_queries (ph : Runner.phase) (qs : list string) :
  quiet (map (Runner.RunQuery (JobStats := JobStats) ph) qs) = true.
Proof. induction qs as [| q qs IH]; [reflexivity | exact IH]. Qed.

Lemma quiet_statsLines (testStats : gmap string JobStats) :
  quiet (statsLines testStats) = true.
Proof.
  unfold statsLines. induction (map_to_list testStats) as [| [name stats] l IH];
    [reflexivity | exact IH].
Qed.

Lemma quiet_setupTrace (qs : list string) :
  quiet (setupTrace (JobStats := JobStats) qs) = true.
Proof.
  unfold setupTrace. destruct (0 <? length qs)%nat; [| reflexivity].
  apply quiet_queries.
Qed.

Lemma quiet_teardownTrace (qs : list string) :
  quiet (teardownTrace (JobStats := JobStats) qs) = true.
Proof.
  unfold teardownTrace. destruct (0 <? length qs)%nat; [| reflexivity].
  apply quiet_queries.
Qed.

Lemma sent_app (tr1 tr2 : trace) : sent (tr1 ++ tr2) = sent tr1 ++ sent tr2.
Proof.
  induction tr1 as [| e tr1 IH]; [reflexivity |].
  destruct e; simpl; now rewrite IH.
Qed.

Lemma sent_queries (ph : Runner.phase) (qs : list string) :
  sent (map (Runner.RunQuery (JobStats := JobStats) ph) qs) = map (pair ph) qs.
Proof. induction qs as [| q qs IH]; [reflexivity | simpl; now rewrite IH]. Qed.

Lemma sent_statsLines (testStats : gmap string JobStats) :
  sent (statsLines testStats) = [].
Proof.
  unfold statsLines. induction (map_to_list testStats) as [| [name stats] l IH];
    [reflexivity | exact IH].
Qed.

Lemma sent_setupTrace (qs : list string) :
  sent (setupTrace (JobStats := JobStats) qs)
  = map (pair Runner.SetupPhase) qs.
Proof.
  unfold setupTrace. destruct qs as [| q qs]; [reflexivity |].
  cbn [length Nat.ltb Nat.leb sent]. apply sent_queries.
Qed.

Lemma sent_teardownTrace (qs : list string) :
  sent (teardownTrace (JobStats := JobStats) qs)
  = map (pair Runner.TeardownPhase) qs.
Proof.
  unfold teardownTrace. destruct qs as [| q qs]; [reflexivity |].
  cbn [length Nat.ltb Nat.leb sent]. apply sent_queries.
Qed.

Lemma written_shape (db : DB) (df : DatabaseFlavor) (config : Config.t)
    (db1 : DB) (testStats : gmap string JobStats) (db2 : DB) :
  runAll w db (Config.Setup config) = Some db1 ->
  Runner.drivers w db1 config = (testStats, db2) ->
  statsWritten w testStats ->
  runShape rt w db config (Runner.runTest rt w db df config).
Proof.
  intros Hsetup Hdrivers Hwritten.
  rewrite (runTest_until_teardown rt w db db1 db2 df config testStats
             Hsetup Hdrivers Hwritten).
  destruct (runAll_cases (Config.Teardown config) db2)
    as [[db3 Hteardown]
       | (pre & q & post & db3 & db4 & err & Ht & Hpre & Hq)].
  - rewrite (teardownLoop_all rt w _ _ _ Hteardown).
    replace (let '(tr, r) := _ in _)
      with (setupTrace (JobStats := JobStats) (Config.Setup config)
              ++ statsTrace w testStats
              ++ teardownTrace (Config.Teardown config),
            Runner.Returned)
      by (unfold teardownTrace;
          now destruct (0 <? length (Config.Teardown config))%nat).
    now apply (NothingFails rt w db config db1 testStats db2 db3).
  - rewrite Ht.
    replace (0 <? length (pre ++ q :: post))%nat with true
      by (rewrite length_app; simpl; symmetry; apply Nat.ltb_lt; lia).
    rewrite (teardownLoop_stops rt w pre post q db2 db3 db4 err Hpre Hq).
    now apply (TeardownFails rt w db config db1 testStats db2 pre q post
                 db3 db4 err).
Qed.

Lemma runTest_write_fails (db : DB) (df : DatabaseFlavor) (config : Config.t)
    (db1 : DB) (testStats : gmap string JobStats) (db2 : DB) (tr : trace) :
  runAll w db (Config.Setup config) = Some db1 ->
  Runner.drivers w db1 config = (testStats, db2) ->
  (0 <? String.length (Runner.JsonOutputFile w))%nat = true ->
  Runner.writeStatsToFile rt w testStats = (tr, false) ->
  Runner.runTest rt w db df config
  = (setupTrace (Config.Setup config)
       ++ Runner.RunJobs :: statsLines testStats ++ tr,
     Runner.Exited 1).
Proof.
  intros Hsetup Hdrivers Hjson Hw.
  unfold Runner.runTest, setupTrace, statsLines.
  rewrite (setupLoop_all rt w _ _ _ Hsetup).
  assert (Hdb : (if (0 <? length (Config.Setup config))%nat
                 then Some db1 else Some db) = Some db1).
  { destruct (Config.Setup config); simpl in *; [congruence | reflexivity]. }
  destruct (0 <? length (Config.Setup config))%nat; simpl;
    [| injection Hdb as ->]; rewrite Hdrivers, Hjson, Hw; simpl;
    rewrite <- ?app_assoc; reflexivity.
Qed.

Lemma runTest_shape (db : DB) (df : DatabaseFlavor) (config : Config.t) :
  runShape rt w db config (Runner.runTest rt w db df config).
Proof.
  destruct (runAll_cases (Config.Setup config) db)
    as [[db1 Hsetup]
       | (pre & q & post & db1 & db2 & err & Hs & Hpre & Hq)].
  2: { unfold Runner.runTest. rewrite Hs.
       replace (0 <? length (pre ++ q :: post))%nat with true
         by (rewrite length_app; simpl; symmetry; apply Nat.ltb_lt; lia).
       rewrite (setupLoop_stops rt w pre post q db db1 db2 err Hpre Hq).
       now apply (SetupFails rt w db config pre q post db1 db2 err). }
  destruct (Runner.drivers w db1 config) as [testStats db2] eqn:Hdrivers.
  destruct ((0 <? String.length (Runner.JsonOutputFile w))%nat) eqn:Hjson.
  - destruct (Runner.writeStatsToFile rt w testStats) as [tr written] eqn:Hw.
    destruct written.
    + assert (Hwritten : statsWritten w testStats).
      { intros _. revert Hw. unfold Runner.writeStatsToFile.
        destruct (Runner.os_Create w _); [discriminate |].
        destruct (Runner.encoder_Encode w _); [discriminate | auto]. }
      apply (written_shape db df config db1 testStats db2 Hsetup Hdrivers
               Hwritten).
    + rewrite (runTest_write_fails db df config db1 testStats db2 tr
                 Hsetup Hdrivers Hjson Hw).
      now apply (WriteFails rt w db config db1 testStats db2 tr).
  - apply (written_shape db df config db1 testStats db2 Hsetup Hdrivers).
    intros Hset. rewrite Hjson in Hset. discriminate Hset.
Qed.

Lemma writeStatsToFile_fails (testStats : gmap string JobStats) (tr : trace) :
  Runner.writeStatsToFile rt w testStats = (tr, false) ->
  exists tr' msg,
    tr = tr' ++ [Runner.LogFatalf msg] /\ quiet tr' = true /\ sent tr' = [].
Proof.
  unfold Runner.writeStatsToFile.
  destruct (Runner.os_Create w _) as [err |].
  - intros [= <-]. now eexists [_; _], _.
  - destruct (Runner.encoder_Encode w testStats) as [err |]; [| discriminate].
    intros [= <-]. now eexists [_; _; _], _.
Qed.

Lemma quiet_statsTrace (testStats : gmap string JobStats) :
  quiet (statsTrace w testStats) = true.
Proof.
  unfold statsTrace. fold (statsLines testStats).
  rewrite quiet_cons, quiet_app, quiet_statsLines.
  now destruct (0 <? String.length (Runner.JsonOutputFile w))%nat.
Qed.

Lemma sent_statsTrace (testStats : gmap string JobStats) :
  sent (statsTrace w testStats) = [].
Proof.
  unfold statsTrace. cbn [sent]. fold (statsLines testStats).
  rewrite sent_app, sent_statsLines.
  now destruct (0 <? String.length (Runner.JsonOutputFile w))%nat.
Qed.

Lemma In_sent (tr : trace) (ph : Runner.phase) (q : string) :
  In (Runner.RunQuery ph q) tr <-> In (ph, q) (sent tr).
Proof.
  induction tr as [| e tr IH]; [reflexivity |].
  destruct e; simpl; rewrite IH; intuition congruence.
Qed.

End ShapeFacts.

(** X15.  A run ends in one of two ways, by returning or by exiting with
    status 1, and it returns exactly when no setup query fails, the
    statistics are written when a file was asked for, and no teardown
    query fails. *)
Theorem runTest_returns_iff {DB JobStats : Type}
    (rt : Runtime) (w : Runner.World DB JobStats) (db : DB)
    (df : DatabaseFlavor) (config : Config.t) :
  (snd (Runner.runTest rt w db df config) = Runner.Returned
   \/ snd (Runner.runTest rt w db df config) = Runner.Exited 1)
  /\ (snd (Runner.runTest rt w db df config) = Runner.Returned
      <-> exists db1 testStats db2 db3,
            runAll w db (Config.Setup config) = Some db1
            /\ Runner.drivers w db1 config = (testStats, db2)
            /\ statsWritten w testStats
            /\ runAll w db2 (Config.Teardown config) = Some db3).
Proof.
  pose proof (runTest_shape rt w db df config) as Hshape.
  split.
  - inversion Hshape; auto.
  - split.
    + inversion Hshape as [| | | db1 testStats db2 db3 H1 H2 H3 H4 Hrun];
        try discriminate.
      intros _. now exists db1, testStats, db2, db3.
    + intros (db1 & testStats & db2 & db3 & H1 & H2 & H3 & H4).
      rewrite (runTest_until_teardown rt w db db1 db2 df config testStats
                 H1 H2 H3).
      rewrite (teardownLoop_all rt w _ _ _ H4).
      now destruct (0 <? length (Config.Teardown config))%nat.
Qed.

Lemma app_snoc {A : Type} (l : list A) (x y : A) :
  l ++ [x; y] = (l ++ [x]) ++ [y].
Proof. now rewrite <- app_assoc. Qed.

(** X16.  A run logs a fatal error exactly when it exits, and the fatal
    line is the last thing it does: a run that returns logs none, a run
    that exits does so with status 1 and its trace ends with its only
    fatal line. *)
Theorem fatal_ends_the_run {DB JobStats : Type}
    (rt : Runtime) (w : Runner.World DB JobStats) (db : DB)
    (df : DatabaseFlavor) (config : Config.t) :
  match Runner.runTest rt w db df config with
  | (tr, Runner.Returned) => quiet tr = true
  | (tr, Runner.Exited status) =>
    status = 1
    /\ exists tr' msg,
         tr = tr' ++ [Runner.LogFatalf msg] /\ quiet tr' = true
  end.
Proof.
  destruct (runTest_shape rt w db df config)
    as [pre q post db1 db2 err _ _ _
       | db1 testStats db2 tr _ _ _ Hw
       | db1 testStats db2 pre q post db3 db4 err _ _ _ _ _ _
       | db1 testStats db2 db3 _ _ _ _].
  - split; [reflexivity |].
    exists (Runner.LogPrintf "Performing setup"
              :: map (Runner.RunQuery Runner.SetupPhase) pre
              ++ [Runner.RunQuery Runner.SetupPhase q]), (setupFatal rt q err).
    split; [simpl; now rewrite app_snoc |].
    now rewrite quiet_cons, quiet_app, quiet_queries.
  - split; [reflexivity |].
    apply writeStatsToFile_fails in Hw as (tr' & msg & -> & Hquiet & _).
    exists (setupTrace (Config.Setup config)
              ++ Runner.RunJobs :: statsLines testStats ++ tr'), msg.
    split; [now rewrite <- !app_assoc, <- !app_comm_cons, <- app_assoc |].
    rewrite quiet_app, quiet_setupTrace.
    now rewrite quiet_cons, quiet_app, quiet_statsLines, Hquiet.
  - split; [reflexivity |].
    exists (setupTrace (Config.Setup config) ++ statsTrace w testStats
              ++ Runner.LogPrintf "Performing teardown"
              :: map (Runner.RunQuery Runner.TeardownPhase) pre
              ++ [Runner.RunQuery Runner.TeardownPhase q]),
      (teardownFatal rt q err).
    split.
    + rewrite <- !app_assoc. do 2 f_equal. simpl. now rewrite app_snoc.
    + rewrite !quiet_app, quiet_setupTrace, quiet_statsTrace.
      now rewrite quiet_cons, quiet_app, quiet_queries.
  - now rewrite !quiet_app, quiet_setupTrace, quiet_statsTrace,
      quiet_teardownTrace.
Qed.

Lemma runTest_sent {DB JobStats : Type}
    (rt : Runtime) (w : Runner.World DB JobStats) (db : DB)
    (df : DatabaseFlavor) (config : Config.t) :
  exists rest,
    planned config = sent (fst (Runner.runTest rt w db df config)) ++ rest
    /\ (snd (Runner.runTest rt w db df config) = Runner.Returned ->
        rest = []).
Proof.
  unfold planned.
  destruct (runTest_shape rt w db df config)
    as [pre q post db1 db2 err Hs _ _
       | db1 testStats db2 tr _ _ _ Hw
       | db1 testStats db2 pre q post db3 db4 err _ _ _ Ht _ _
       | db1 testStats db2 db3 _ _ _ _]; cbn [fst snd].
  - exists (map (pair Runner.SetupPhase) post
              ++ map (pair Runner.TeardownPhase) (Config.Teardown config)).
    split; [| discriminate].
    cbn [sent]. rewrite sent_app, sent_queries, Hs, map_app. simpl.
    now rewrite <- !app_assoc.
  - exists (map (pair Runner.TeardownPhase) (Config.Teardown config)).
    split; [| discriminate].
    apply writeStatsToFile_fails in Hw as (tr' & msg & -> & _ & Hsent).
    rewrite sent_app, sent_setupTrace. cbn [sent].
    rewrite !sent_app, sent_statsLines, Hsent. simpl.
    now rewrite app_nil_r.
  - exists (map (pair Runner.TeardownPhase) post).
    split; [| discriminate].
    rewrite !sent_app, sent_setupTrace, sent_statsTrace. cbn [sent].
    rewrite sent_app, sent_queries, Ht, map_app. simpl.
    now rewrite <- !app_assoc.
  - exists []. split; [| reflexivity].
    now rewrite !sent_app, sent_setupTrace, sent_statsTrace,
      sent_teardownTrace, app_nil_r.
Qed.

(** X17.  A run sends the setup queries and then the teardown queries of
    the configuration, in order and each once, up to the point where it
    stops, and nothing else; a run that returns has sent them all. *)
Theorem queries_sent_as_planned {DB JobStats : Type}
    (rt : Runtime) (w : Runner.World DB JobStats) (db : DB)
    (df : DatabaseFlavor) (config : Config.t) :
  exists rest,
    planned config = sent (fst (Runner.runTest rt w db df config)) ++ rest
    /\ (snd (Runner.runTest rt w db df config) = Runner.Returned ->
        rest = []).
Proof. exact (runTest_sent rt w db df config). Qed.

(** X18.  When the statistics file cannot be created, or the statistics
    cannot be encoded into it, the run logs that as a fatal error after
    the statistics of each job and exits with status 1: no teardown query
    is sent. *)
Theorem stats_file_error_skips_teardown {DB JobStats : Type}
    (rt : Runtime) (w : Runner.World DB JobStats) (df : DatabaseFlavor)
    (config : Config.t) (db db1 db2 : DB) (testStats : gmap string JobStats)
    (err : error) :
  runAll w db (Config.Setup config) = Some db1 ->
  Runner.drivers w db1 config = (testStats, db2) ->
  (0 <? String.length (Runner.JsonOutputFile w))%nat = true ->
  let name := Runner.JsonOutputFile w +:+ ".json" in
  let run := Runner.runTest rt w db df config in
  (Runner.os_Create w name = Some err ->
   run = (setupTrace (Config.Setup config)
            ++ Runner.RunJobs :: statsLines testStats
            ++ [Runner.Chdir ".."; Runner.CreateFile name;
                Runner.LogFatalf ("creating output file " +:+ Error rt err)],
          Runner.Exited 1)
   /\ forall q, ~ In (Runner.RunQuery Runner.TeardownPhase q) (fst run))
  /\ (Runner.os_Create w name = None ->
      Runner.encoder_Encode w testStats = Some err ->
      run = (setupTrace (Config.Setup config)
               ++ Runner.RunJobs :: statsLines testStats
               ++ [Runner.Chdir ".."; Runner.CreateFile name;
                   Runner.EncodeStats testStats;
                   Runner.LogFatalf
                     ("writting output to file " +:+ Error rt err)],
             Runner.Exited 1)
      /\ forall q, ~ In (Runner.RunQuery Runner.TeardownPhase q) (fst run)).
Proof.
  intros Hsetup Hdrivers Hjson name run.
  assert (Hnone : forall tr,
             Runner.writeStatsToFile rt w testStats = (tr, false) ->
             forall q, ~ In (Runner.RunQuery Runner.TeardownPhase q) (fst run)).
  { intros tr Hw q. unfold run.
    rewrite (runTest_write_fails rt w db df config db1 testStats db2 tr
               Hsetup Hdrivers Hjson Hw).
    apply writeStatsToFile_fails in Hw as (tr' & msg & -> & _ & Hsent).
    rewrite In_sent. cbn [fst].
    rewrite sent_app, sent_setupTrace. cbn [sent].
    rewrite !sent_app, sent_statsLines, Hsent. simpl. rewrite app_nil_r.
    intros Hin. apply in_map_iff in Hin as (q' & [=] & _). }
  split.
  - intros Hcreate.
    assert (Hw : Runner.writeStatsToFile rt w testStats
                 = ([Runner.Chdir ".."; Runner.CreateFile name;
                     Runner.LogFatalf
                       ("creating output file " +:+ Error rt err)], false)).
    { unfold Runner.writeStatsToFile. fold name. now rewrite Hcreate. }
    split; [| exact (Hnone _ Hw)].
    exact (runTest_write_fails rt w db df config db1 testStats db2 _
             Hsetup Hdrivers Hjson Hw).
  - intros Hcreate Hencode.
    assert (Hw : Runner.writeStatsToFile rt w testStats
                 = ([Runner.Chdir ".."; Runner.CreateFile name;
                     Runner.EncodeStats testStats;
                     Runner.LogFatalf
                       ("writting output to file " +:+ Error rt err)], false)).
    { unfold Runner.writeStatsToFile. fold name.
      now rewrite Hcreate, Hencode. }
    split; [| exact (Hnone _ Hw)].
    exact (runTest_write_fails rt w db df config db1 testStats db2 _
             Hsetup Hdrivers Hjson Hw).
Qed.

Lemma stats_file_error_skips_teardown_witness :
  Runner.runTest Sample.runtime readOnlyWorld [] Sample.flavor
    (SampleRun.config ["create table t"] ["drop table t"])
  = ([Runner.LogPrintf "Performing setup";
      Runner.RunQuery Runner.SetupPhase "create table t";
      Runner.RunJobs;
      Runner.LogStats "smoke" 3%N;
      Runner.Chdir "..";
      Runner.CreateFile "out.json";
      Runner.LogFatalf
        "creating output file open out.json: permission denied"],
     Runner.Exited 1).
Proof.
  destruct (stats_file_error_skips_teardown Sample.runtime readOnlyWorld
              Sample.flavor
              (SampleRun.config ["create table t"] ["drop table t"])
              [] ["create table t"] ["create table t"] {[ "smoke" := 3%N ]}
              (New "open out.json: permission denied")
              ltac:(vm_compute; reflexivity) ltac:(vm_compute; reflexivity)
              ltac:(vm_compute; reflexivity)) as [Hcreate _].
  destruct (Hcreate ltac:(vm_compute; reflexivity)) as [Hrun _].
  rewrite Hrun. vm_compute. reflexivity.
Defined.

(** ** [main] *)

Section MainFacts.

Context {DB JobStats ConnectionConfig : Type}.
Variable rt : Runtime.
Variable w : Main.World DB JobStats ConnectionConfig.

Lemma Close_not_Test (tr : list (Runner.event JobStats)) :
  ~ In Main.Close (map Main.Test tr).
Proof.
  intros H. apply in_map_iff in H as (e & [=] & _).
Qed.

Lemma In_Test (tr : list (Runner.event JobStats)) (e : Runner.event JobStats) :
  In (Main.Test e) (map Main.Test tr) <-> In e tr.
Proof.
  rewrite in_map_iff. split.
  - now intros (e' & [= ->] & He).
  - intros He. now exists e.
Qed.

(** What [main] does once it has one argument, a flavor and a
    configuration and the connection is made. *)
Lemma main_runs (flags : Main.Flags ConnectionConfig) (configFile : string)
    (flavor : DatabaseFlavor) (config : Config.t) (db : DB) :
  Main.printVersion flags = false ->
  Main.Args flags = [configFile] ->
  Main.supportedDatabaseFlavors w !! Main.driverName flags = Some flavor ->
  parseConfig rt flavor configFile (Main.baseDirOf w flags) = Ok config ->
  Main.flavor_Connect w flavor (Main.GlobalConfig flags) = Ok db ->
  Main.main rt w flags
  = (Main.Connect :: Main.Chdir (Main.baseDirOf w flags)
       :: map Main.Test (fst (Runner.runTest rt (Main.runner w) db flavor config))
       ++ match snd (Runner.runTest rt (Main.runner w) db flavor config) with
          | Runner.Returned => [Main.Close]
          | Runner.Exited _ => []
          end,
     snd (Runner.runTest rt (Main.runner w) db flavor config)).
Proof.
  intros Hversion Hargs Hflavor Hconfig Hconnect.
  unfold Main.main. rewrite Hversion, Hargs. cbn [length Nat.eqb Nat.ltb Nat.leb nth].
  rewrite Hflavor.
  replace (nth 0 (Main.Args flags) EmptyString) with configFile in Hconfig
    by now rewrite Hargs.
  assert (Hfile : parseConfig rt flavor configFile (Main.baseDirOf w flags)
                  = Ok config) by exact Hconfig.
  rewrite Hfile, Hconnect.
  now destruct (Runner.runTest rt (Main.runner w) db flavor config).
Qed.

(** The ways [main] can go. *)
Lemma main_cases (flags : Main.Flags ConnectionConfig) :
  (exists tr, Main.main rt w flags = (tr, Runner.Returned)
              /\ Main.printVersion flags = true /\ tr = [Main.Println "0.4"])
  \/ (exists tr, Main.main rt w flags = (tr, Runner.Exited 1)
                 /\ ~ In Main.Connect tr /\ ~ In Main.Close tr
                 /\ forall e, ~ In (Main.Test e) tr)
  \/ (exists configFile flavor config err,
         Main.printVersion flags = false
         /\ Main.Args flags = [configFile]
         /\ Main.supportedDatabaseFlavors w !! Main.driverName flags
            = Some flavor
         /\ parseConfig rt flavor configFile (Main.baseDirOf w flags)
            = Ok config
         /\ Main.flavor_Connect w flavor (Main.GlobalConfig flags) = Fail err
         /\ Main.main rt w flags
            = ([Main.Connect;
                Main.LogFatal ("Error connecting to the database: "
                                 +:+ Error rt err)], Runner.Exited 1))
  \/ (exists configFile flavor config db,
         Main.printVersion flags = false
         /\ Main.Args flags = [configFile]
         /\ Main.supportedDatabaseFlavors w !! Main.driverName flags
            = Some flavor
         /\ parseConfig rt flavor configFile (Main.baseDirOf w flags)
            = Ok config
         /\ Main.flavor_Connect w flavor (Main.GlobalConfig flags) = Ok db).
Proof.
  unfold Main.main.
  destruct (Main.printVersion flags) eqn:Hversion; [left; eauto |].
  destruct (Main.Args flags) as [| configFile [| other args]] eqn:Hargs;
    cbn [length Nat.eqb Nat.ltb Nat.leb nth].
  - right. left. eexists. split; [reflexivity |].
    repeat split; simpl; intuition discriminate.
  - destruct (Main.supportedDatabaseFlavors w !! Main.driverName flags)
      as [flavor |] eqn:Hflavor.
    2: { right. left. eexists. split; [reflexivity |].
         repeat split; simpl; intuition discriminate. }
    assert (Hbase : Main.baseDirOf w flags
                    = if String.eqb (Main.baseDir flags) EmptyString
                      then Main.filepath_Dir w configFile
                      else Main.baseDir flags)
      by (unfold Main.baseDirOf; now rewrite Hargs).
    destruct (parseConfig rt flavor configFile (Main.baseDirOf w flags))
      as [config | err] eqn:Hconfig.
    2: { right. left. eexists. split; [reflexivity |].
         repeat split; simpl; intuition discriminate. }
    destruct (Main.flavor_Connect w flavor (Main.GlobalConfig flags))
      as [db | err] eqn:Hconnect.
    + right. right. right. exists configFile, flavor, config, db.
      repeat split; try assumption; reflexivity.
    + right. right. left. exists configFile, flavor, config, err.
      repeat split; try assumption; reflexivity.
  - right. left. eexists. split; [reflexivity |].
    repeat split; simpl; intuition discriminate.
Qed.

End MainFacts.

Example main_run :
  Main.main benchRuntime sampleMainWorld (sampleFlags ["/bench/run.ini"])
  = ([Main.Connect; Main.Chdir "/bench";
      Main.Test (Runner.LogPrintf "Performing setup");
      Main.Test (Runner.RunQuery Runner.SetupPhase "create table t");
      Main.Test Runner.RunJobs;
      Main.Test (Runner.LogStats "smoke" 3%N);
      Main.Test (Runner.LogPrintf "Performing teardown");
      Main.Test (Runner.RunQuery Runner.TeardownPhase "drop table t");
      Main.Close],
     Runner.Returned).
Proof. vm_compute. reflexivity. Qed.

Example main_broken_setup :
  Main.main benchRuntime sampleMainWorld (sampleFlags ["/bench/broken.ini"])
  = ([Main.Connect; Main.Chdir "/bench";
      Main.Test (Runner.LogPrintf "Performing setup");
      Main.Test (Runner.RunQuery Runner.SetupPhase "drop table missing");
      Main.Test
        (Runner.LogFatalf
           (setupFatal benchRuntime "drop table missing"
              (New "table does not exist")))],
     Runner.Exited 1).
Proof. vm_compute. reflexivity. Qed.

Example main_without_run_file :
  Main.main benchRuntime sampleMainWorld (sampleFlags [])
  = ([Main.Usage; Main.LogFatal "No config file to parse"], Runner.Exited 1).
Proof. reflexivity. Qed.

Example main_missing_run_file :
  Main.main benchRuntime sampleMainWorld (sampleFlags ["/bench/none.ini"])
  = ([Main.LogFatal
        "parsing config file open /bench/none.ini: no such file or directory"],
     Runner.Exited 1).
Proof. vm_compute. reflexivity. Qed.

(** X19.  [main] connects to the database only once everything before
    has gone through: the version was not asked for, there is exactly one
    argument, the driver names a supported flavor, and [parseConfig] has
    accepted the file for that flavor, with the directory of the file as
    base directory when none was given. *)
Theorem connects_only_with_a_configuration
    {DB JobStats ConnectionConfig : Type}
    (rt : Runtime) (w : Main.World DB JobStats ConnectionConfig)
    (flags : Main.Flags ConnectionConfig) :
  In Main.Connect (fst (Main.main rt w flags)) ->
  Main.printVersion flags = false
  /\ exists configFile flavor config,
       Main.Args flags = [configFile]
       /\ Main.supportedDatabaseFlavors w !! Main.driverName flags
          = Some flavor
       /\ parseConfig rt flavor configFile
            (if String.eqb (Main.baseDir flags) EmptyString
             then Main.filepath_Dir w configFile
             else Main.baseDir flags) = Ok config.
Proof.
  assert (Hbase : forall configFile,
             Main.Args flags = [configFile] ->
             Main.baseDirOf w flags
             = if String.eqb (Main.baseDir flags) EmptyString
               then Main.filepath_Dir w configFile
               else Main.baseDir flags).
  { intros configFile Hargs. unfold Main.baseDirOf. now rewrite Hargs. }
  destruct (main_cases rt w flags)
    as [(tr & -> & _ & ->)
       | [(tr & -> & Hno & _)
         | [(configFile & flavor & config & err & Hv & Hargs & Hf & Hc & _)
           | (configFile & flavor & config & db & Hv & Hargs & Hf & Hc & _)]]].
  - intros [[=] | []].
  - intros H. now destruct Hno.
  - intros _. split; [exact Hv |]. exists configFile, flavor, config.
    rewrite <- (Hbase _ Hargs). auto.
  - intros _. split; [exact Hv |]. exists configFile, flavor, config.
    rewrite <- (Hbase _ Hargs). auto.
Qed.

Lemma connects_only_with_a_configuration_witness :
  exists configFile flavor config,
    Main.Args (sampleFlags ["/bench/run.ini"]) = [configFile]
    /\ Main.supportedDatabaseFlavors sampleMainWorld !! "mysql" = Some flavor
    /\ parseConfig benchRuntime flavor configFile "/bench" = Ok config.
Proof.
  apply (connects_only_with_a_configuration benchRuntime sampleMainWorld
           (sampleFlags ["/bench/run.ini"])).
  vm_compute. left. reflexivity.
Defined.

(** X20.  [main] ends by returning or by exiting with status 1, and it
    closes the database exactly when it has connected and the test has
    returned: when a setup query, the statistics file or a teardown query
    makes the test exit, the connection is left open. *)
Theorem closes_when_the_test_returns
    {DB JobStats ConnectionConfig : Type}
    (rt : Runtime) (w : Main.World DB JobStats ConnectionConfig)
    (flags : Main.Flags ConnectionConfig) :
  (snd (Main.main rt w flags) = Runner.Returned
   \/ snd (Main.main rt w flags) = Runner.Exited 1)
  /\ (In Main.Close (fst (Main.main rt w flags))
      <-> In Main.Connect (fst (Main.main rt w flags))
          /\ snd (Main.main rt w flags) = Runner.Returned).
Proof.
  destruct (main_cases rt w flags)
    as [(tr & -> & _ & ->)
       | [(tr & -> & Hno & Hnone & _)
         | [(configFile & flavor & config & err & _ & _ & _ & _ & _ & ->)
           | (configFile & flavor & config & db & Hv & Hargs & Hf & Hc & Hdb)]]].
  - split; [now left |]. simpl. intuition discriminate.
  - split; [now right |]. simpl. intuition discriminate.
  - split; [now right |]. simpl. intuition discriminate.
  - rewrite (main_runs rt w flags configFile flavor config db Hv Hargs Hf Hc
               Hdb). cbn [fst snd].
    pose proof (runTest_shape rt (Main.runner w) db flavor config) as Hshape.
    destruct (Runner.runTest rt (Main.runner w) db flavor config)
      as [tr outcome]. cbn [fst snd].
    assert (Houtcome : outcome = Runner.Returned \/ outcome = Runner.Exited 1)
      by (inversion Hshape; auto).
    split; [exact Houtcome |].
    destruct Houtcome as [-> | ->].
    + split; [intros _; split; [now left | reflexivity] |].
      intros _. right. right. apply in_app_iff. right. now left.
    + split; [| intros [_ [=]]].
      rewrite app_nil_r. intros [[=] | [[=] | H]].
      now apply Close_not_Test in H.
Qed.

(** X21.  Every query that [main] sends to the database in the course of
    setup and teardown has passed the [CheckQuery] of the flavor that the
    driver names. *)
Theorem sends_checked_queries
    {DB JobStats ConnectionConfig : Type}
    (rt : Runtime) (w : Main.World DB JobStats ConnectionConfig)
    (flags : Main.Flags ConnectionConfig) (ph : Runner.phase) (q : string) :
  In (Main.Test (Runner.RunQuery ph q)) (fst (Main.main rt w flags)) ->
  exists flavor,
    Main.supportedDatabaseFlavors w !! Main.driverName flags = Some flavor
    /\ passes flavor q.
Proof.
  destruct (main_cases rt w flags)
    as [(tr & -> & _ & ->)
       | [(tr & -> & _ & _ & Hnone)
         | [(configFile & flavor & config & err & _ & _ & _ & _ & _ & ->)
           | (configFile & flavor & config & db & Hv & Hargs & Hf & Hc & Hdb)]]].
  - intros [[=] | []].
  - intros H. now apply Hnone in H.
  - intros [[=] | [[=] | []]].
  - rewrite (main_runs rt w flags configFile flavor config db Hv Hargs Hf Hc
               Hdb). cbn [fst].
    intros [[=] | [[=] | H]].
    apply in_app_iff in H as [H | H].
    2: { destruct (snd _); [destruct H as [[=] | []] | destruct H]. }
    apply In_Test, In_sent in H.
    destruct (runTest_sent rt (Main.runner w) db flavor config)
      as (rest & Hplanned & _).
    assert (Hin : In (ph, q) (planned config))
      by (rewrite Hplanned; apply in_app_iff; now left).
    exists flavor. split; [exact Hf |].
    destruct (parseConfig_accepted rt flavor configFile _ config Hc)
      as (_ & Hsetup & Hteardown & _).
    unfold planned in Hin.
    apply in_app_iff in Hin as [Hin | Hin];
      apply in_map_iff in Hin as (q' & [= _ ->] & Hin).
    + exact (proj1 (List.Forall_forall _ _) Hsetup q Hin).
    + exact (proj1 (List.Forall_forall _ _) Hteardown q Hin).
Qed.

Lemma sends_checked_queries_witness :
  exists flavor,
    Main.supportedDatabaseFlavors sampleMainWorld !! "mysql" = Some flavor
    /\ passes flavor "create table t".
Proof.
  apply (sends_checked_queries benchRuntime sampleMainWorld
           (sampleFlags ["/bench/run.ini"]) Runner.SetupPhase).
  vm_compute. right. right. right. left. reflexivity.
Defined.

(** ** Tests of unlimited duration *)

Lemma checkOffsets_unbounded (rt : Runtime) (config : Config.t) :
  Config.Duration config <= 0 -> checkOffsets rt config = Ok config.
Proof.
  intros Hduration.
  destruct (checkOffsets rt config) as [config' | e] eqn:Hcheck.
  - revert Hcheck. unfold checkOffsets.
    destruct (foldM _ _ tt); simpl; [now intros [= <-] | discriminate].
  - apply checkOffsets_fails in Hcheck as [Hpos _]. lia.
Qed.

(** X22.  A test whose duration is zero, which is what it is when no
    duration is given, or below zero, is not checked against the offsets
    of its jobs: [parseIniConfig] and [parseJSONConfig] accept the
    configuration that the sections give, whatever the start and the stop
    of its jobs. *)
Theorem unlimited_test_accepts_all_offsets
    (rt : Runtime) (df : DatabaseFlavor) (basedir : string) :
  (forall iniConfig config,
      parseIniSections rt df iniConfig basedir = Ok config ->
      Config.Duration config <= 0 ->
      parseIniConfig rt df iniConfig basedir = Ok config)
  /\ (forall jsonConfig config,
         parseJSONSections rt df jsonConfig basedir = Ok config ->
         Config.Duration config <= 0 ->
         parseJSONConfig rt df jsonConfig basedir = Ok config).
Proof.
  split.
  - intros iniConfig config Hconfig Hduration.
    rewrite parseIniConfig_checkOffsets, Hconfig. simpl.
    now apply checkOffsets_unbounded.
  - intros jsonConfig config Hconfig Hduration.
    rewrite parseJSONConfig_checkOffsets, Hconfig. simpl.
    now apply checkOffsets_unbounded.
Qed.

Example late_job_of_an_unlimited_test :
  isOk (parseIniConfig Sample.runtime Sample.flavor unboundedIni "/bench")
  = true.
Proof. vm_compute. reflexivity. Qed.

Example late_job_of_a_negative_duration :
  Config.Duration <$>
    (match parseIniConfig Sample.runtime Sample.flavor negativeIni "/bench" with
     | Ok config => Some config
     | Fail _ => None
     end)
  = Some (- Sample.second).
Proof. vm_compute. reflexivity. Qed.

(** ** Queries in the order of the section *)

Lemma flat_map_snoc {A B : Type} (f : A -> list B) (l : list A) (a : A) :
  flat_map f (l ++ [a]) = flat_map f l ++ f a.
Proof. rewrite flat_map_app. simpl. now rewrite app_nil_r. Qed.

Lemma setupOptions_setupRead (rt : Runtime) (df : DatabaseFlavor)
    (basedir : string) (read : goini.RawSection) (key value : string)
    (o : goini.DecodeOption setupSectionParser) (ssp ssp' : setupSectionParser) :
  goini.lookupOption (setupOptions rt) key = Some o ->
  goini.Parse o value ssp = Ok ssp' ->
  setupRead rt df basedir read ssp ->
  setupRead rt df basedir (read ++ [(key, value)]) ssp'.
Proof.
  unfold setupOptions, setupRead. cbn [goini.lookupOption].
  destruct (String.eqb_spec "query" key) as [<- |].
  - intros [= <-]. cbn [goini.Parse]. intros Hparse (Hdf & Hdir & Hqueries).
    revert Hparse. rewrite Hdf.
    destruct (CheckQuery df value); [discriminate |].
    intros [= <-]. simpl. rewrite flat_map_snoc, Hqueries. auto.
  - destruct (String.eqb_spec "query-file" key) as [<- |]; [| discriminate].
    intros [= <-]. cbn [goini.Parse]. intros Hparse (Hdf & Hdir & Hqueries).
    revert Hparse. rewrite Hdf, Hdir.
    destruct (readQueriesFromFile rt df (inBasedir rt basedir value))
      as [qs |] eqn:Hfile; simpl; [| discriminate].
    intros [= <-]. simpl. rewrite flat_map_snoc, Hqueries.
    unfold queriesOf. simpl. rewrite Hfile. auto.
Qed.

Lemma jobOptions_queriesRead (rt : Runtime) (df : DatabaseFlavor)
    (basedir : string) (read : goini.RawSection) (key value : string)
    (o : goini.DecodeOption jobParser.t) (jp jp' : jobParser.t) :
  goini.lookupOption (jobOptions rt) key = Some o ->
  goini.Parse o value jp = Ok jp' ->
  queriesRead rt df basedir read jp ->
  queriesRead rt df basedir (read ++ [(key, value)]) jp'.
Proof.
  unfold jobOptions, queriesRead. cbn [goini.lookupOption].
  repeat match goal with
         | |- (if String.eqb ?k key then _ else _) = Some _ -> _ =>
           destruct (String.eqb_spec k key) as [<- |]
         end;
    try discriminate;
    intros [= <-]; cbn [goini.Parse];
    intros Hparse (Hdf & Hdir & Hqueries); revert Hparse;
    rewrite ?Hdf, ?Hdir;
    try match goal with
        | |- context [readQueriesFromFile ?rt ?df ?v] =>
          destruct (readQueriesFromFile rt df v) eqn:Hfile; simpl;
          [| discriminate]
        end;
    open_body; intros [= <-]; simpl;
    rewrite flat_map_snoc, <- Hqueries; unfold queriesOf; simpl;
    rewrite ?Hfile, ?app_nil_r; auto.
Qed.

(** X23.  The queries of an INI section are kept in the order in which
    the section lists them, a query file standing for the queries read
    from it: the setup or teardown queries that [decodeSetupSection]
    returns, and the queries of a new job that [decodeJobSection]
    accepts. *)
Theorem queries_in_section_order
    (rt : Runtime) (df : DatabaseFlavor) (basedir : string) :
  (forall section queries,
      decodeSetupSection rt df section basedir = Ok queries ->
      queries = flat_map (queriesOf rt df basedir) section)
  /\ (forall section name job,
         decodeJobSection rt df section basedir (Job.new name) = Ok job ->
         Job.Queries job = flat_map (queriesOf rt df basedir) section).
Proof.
  split.
  - intros section queries. unfold decodeSetupSection. cbv zeta. intros H.
    apply bind_Ok in H as (parser & Hparser & [= <-]).
    apply (Decode_read (setupRead rt df basedir) _ _
             (fun read key o value =>
                setupOptions_setupRead rt df basedir read key value o)
             section _ parser Hparser).
    now repeat split.
  - intros section name job. rewrite decodeJobSection_checkJob. intros H.
    apply bind_Ok in H as (jp & Hjp & Hcheck).
    apply checkJob_Ok in Hcheck as (_ & _ & ->).
    destruct (finishJob_fields jp) as (_ & _ & _ & -> & _).
    apply (Decode_read (queriesRead rt df basedir) _ _
             (fun read key o value =>
                jobOptions_queriesRead rt df basedir read key value o)
             section _ jp Hjp).
    now repeat split.
Qed.

Example file_between_queries :
  decodeSetupSection Sample.runtime Sample.flavor
    [("query", "create table t"); ("query-file", "queries.sql");
     ("query", "select 3")] "/bench"
  = Ok ["create table t"; "select 1"; "select 2"; "select 3"].
Proof. vm_compute. reflexivity. Qed.

(** ** [concurrency] for [queue-depth] *)

Lemma aliased_eqb (a b : string) :
  a <> "concurrency" -> b <> "concurrency" ->
  String.eqb (aliased a) (aliased b) = String.eqb a b.
Proof.
  intros Ha Hb. unfold aliased.
  destruct (String.eqb_spec a "queue-depth") as [-> | Hqa];
    destruct (String.eqb_spec b "queue-depth") as [-> | Hqb];
    try reflexivity.
  - destruct (String.eqb_spec "concurrency" b); [congruence |].
    destruct (String.eqb_spec "queue-depth" b); congruence.
  - destruct (String.eqb_spec a "concurrency"); [congruence |].
    destruct (String.eqb_spec a "queue-depth"); congruence.
Qed.

Lemma seenBefore_aliased (seen : list string) (key : string) :
  ~ In "concurrency" seen -> key <> "concurrency" ->
  goini.seenBefore (map aliased seen) (aliased key) = goini.seenBefore seen key.
Proof.
  intros Hseen Hkey. unfold goini.seenBefore.
  induction seen as [| k seen IH]; [reflexivity |].
  cbn [map existsb]. rewrite aliased_eqb, IH; trivial.
  - intros Hin. apply Hseen. now right.
  - intros ->. apply Hseen. now left.
Qed.

Lemma aliased_option (rt : Runtime) (key : string) :
  goini.lookupOption (jobOptions rt) (aliased key)
  = goini.lookupOption (jobOptions rt) key.
Proof.
  unfold aliased.
  destruct (String.eqb_spec key "queue-depth") as [-> |]; reflexivity.
Qed.

Lemma decodeFrom_aliased (rt : Runtime) (props : goini.RawSection) :
  forall (seen : list string) (dst : jobParser.t),
    ~ In "concurrency" seen ->
    (forall value, ~ In ("concurrency", value) props) ->
    sameButForAlias rt
      (goini.decodeFrom (goini_errors rt) (jobOptions rt) seen props dst)
      (goini.decodeFrom (goini_errors rt) (jobOptions rt) (map aliased seen)
         (asConcurrency props) dst).
Proof.
  induction props as [| [key value] props IH]; intros seen dst Hseen Hprops.
  - reflexivity.
  - assert (Hkey : key <> "concurrency").
    { intros ->. apply (Hprops value). now left. }
    assert (Hrest : forall v, ~ In ("concurrency", v) props).
    { intros v Hin. apply (Hprops v). now right. }
    cbn [asConcurrency map fst snd goini.decodeFrom].
    rewrite aliased_option.
    destruct (goini.lookupOption (jobOptions rt) key) as [o |] eqn:Hoption;
      [| simpl; unfold aliased;
         destruct (String.eqb_spec key "queue-depth") as [-> |];
         [discriminate Hoption | now left]].
    rewrite seenBefore_aliased by assumption.
    destruct (goini.isUnique (goini.Kind o) && goini.seenBefore seen key)
      eqn:Hrepeated.
    + simpl. unfold aliased.
      destruct (String.eqb_spec key "queue-depth") as [-> |];
        [now right | now left].
    + destruct (goini.Parse o value dst) as [dst' |]; simpl; [| now left].
      destruct (goini.isUnique (goini.Kind o)).
      * apply (IH (key :: seen) dst'); [| assumption].
        intros [-> | Hin]; [now apply Hkey | now apply Hseen].
      * now apply IH.
Qed.

(** X24.  In an INI job section, [concurrency] is another name of
    [queue-depth]: writing [concurrency] for [queue-depth] in a section
    that has no [concurrency] of its own changes nothing of what
    [decodeJobSection] makes of it, the same job or the same error, but
    for the key that is named when the option is repeated. *)
Theorem concurrency_stands_for_queue_depth
    (rt : Runtime) (df : DatabaseFlavor) (basedir : string) (job0 : Job.t)
    (section : goini.RawSection) :
  (forall value, ~ In ("concurrency", value) section) ->
  sameButForAlias rt
    (decodeJobSection rt df section basedir job0)
    (decodeJobSection rt df (asConcurrency section) basedir job0).
Proof.
  intros Hsection. rewrite !decodeJobSection_checkJob. unfold goini.Decode.
  pose proof (decodeFrom_aliased rt section [] (jobParser.make job0 df basedir)
                (fun H => H) Hsection) as Hsame.
  cbn [map] in Hsame. unfold sameButForAlias in *.
  destruct (goini.decodeFrom _ _ [] section _) as [jp | e];
    destruct (goini.decodeFrom _ _ [] (asConcurrency section) _) as [jp' | e'];
    simpl; try contradiction.
  - subst jp'. destruct (checkJob iniWording jp); [reflexivity | now left].
  - exact Hsame.
Qed.

Lemma concurrency_stands_for_queue_depth_witness :
  (forall value,
      ~ In ("concurrency", value) [("query", "select 1"); ("queue-depth", "3")])
  /\ sameButForAlias Sample.runtime
       (decodeJobSection Sample.runtime Sample.flavor
          [("query", "select 1"); ("queue-depth", "3")] "/bench" (Job.new "j"))
       (decodeJobSection Sample.runtime Sample.flavor
          (asConcurrency [("query", "select 1"); ("queue-depth", "3")])
          "/bench" (Job.new "j")).
Proof.
  assert (H : forall value,
             ~ In ("concurrency", value)
                 [("query", "select 1"); ("queue-depth", "3")]).
  { intros value [E | [E | []]]; discriminate E. }
  split; [exact H |].
  exact (concurrency_stands_for_queue_depth Sample.runtime Sample.flavor
           "/bench" (Job.new "j") _ H).
Defined.

Example concurrency_accepted_as_queue_depth :
  match decodeJobSection Sample.runtime Sample.flavor
          (asConcurrency [("query", "select 1"); ("queue-depth", "3")])
          "/bench" (Job.new "j") with
  | Ok job => Job.QueueDepth job = 3%N
  | Fail _ => False
  end.
Proof. vm_compute. reflexivity. Qed.

(** ** The modes that a job is given *)

Lemma lastOf_snoc (keys : list string) (read : goini.RawSection)
    (key value : string) :
  lastOf keys (read ++ [(key, value)])
  = if existsb (String.eqb key) keys then Some value else lastOf keys read.
Proof. unfold lastOf. rewrite fold_left_app. reflexivity. Qed.

Lemma jobOptions_modesRead (rt : Runtime) (read : goini.RawSection)
    (key value : string) (o : goini.DecodeOption jobParser.t)
    (jp jp' : jobParser.t) :
  goini.lookupOption (jobOptions rt) key = Some o ->
  goini.Parse o value jp = Ok jp' ->
  modesRead rt read jp -> modesRead rt (read ++ [(key, value)]) jp'.
Proof.
  unfold jobOptions, modesRead, iniRate, iniQueueDepth, iniQueryLog, logReplay.
  cbn [goini.lookupOption].
  repeat match goal with
         | |- (if String.eqb ?k key then _ else _) = Some _ -> _ =>
           destruct (String.eqb_spec k key) as [<- |]
         end;
    try discriminate;
    intros [= <-]; cbn [goini.Parse];
    intros Hparse (Hrate & Hdepth & Hlog); revert Hparse;
    rewrite !lastOf_snoc; simpl existsb; cbv iota;
    repeat match goal with
           | |- context [bind ?m _] => destruct m eqn:?; simpl bind
           | |- context [match CheckQuery ?df ?v with _ => _ end] =>
             destruct (CheckQuery df v)
           | |- (if ?b then _ else _) = Ok _ -> _ => destruct b eqn:?
           end;
    try discriminate;
    intros [= <-]; destruct jp as [[] ? ? ? ? ?]; simpl in *; auto.
Qed.

Lemma Decode_modesRead (rt : Runtime) (df : DatabaseFlavor)
    (section : goini.RawSection) (basedir name : string) (jp : jobParser.t) :
  goini.Decode (goini_errors rt) (jobOptions rt) section
    (jobParser.make (Job.new name) df basedir) = Ok jp ->
  jobTypes (jobParser.j jp) = iniJobTypes rt section.
Proof.
  intros Hjp.
  assert (H : modesRead rt section jp).
  { apply (Decode_read (modesRead rt) _ _
             (fun read key o value => jobOptions_modesRead rt read key value o)
             section _ jp Hjp).
    repeat split. }
  destruct H as (Hrate & Hdepth & Hlog).
  unfold jobTypes, iniJobTypes, queueDepthMode, ratePaced.
  now rewrite Hrate, Hdepth, Hlog.
Qed.

Ltac close_noMode :=
  intros;
  repeat match goal with
         | H : noMode _ |- _ => destruct H as (? & ? & ?)
         end;
  match goal with H : _ = Ok _ |- _ => revert H end;
  open_body; intros [= <-]; unfold noMode; simpl; auto.

Lemma applyJobOptions_modes (rt : Runtime) (df : DatabaseFlavor)
    (jobSpec : JobOptions.t) (basedir name : string) (jp : jobParser.t) :
  applyJobOptions rt df jobSpec basedir (Job.new name) = Ok jp ->
  jobTypes (jobParser.j jp) = jsonJobTypes rt jobSpec.
Proof.
  intros Hjp.
  enough (H : Job.Rate (jobParser.j jp) = jsonRate rt jobSpec
              /\ Job.QueueDepth (jobParser.j jp) = jsonQueueDepth rt jobSpec
              /\ logReplay (jobParser.j jp) = jsonQueryLog rt jobSpec).
  { destruct H as (Hrate & Hdepth & Hlog).
    unfold jobTypes, jsonJobTypes, queueDepthMode, ratePaced.
    now rewrite Hrate, Hdepth, Hlog. }
  revert Hjp. unfold applyJobOptions. cbv zeta.
  assert (H0 : noMode (jobParser.make (Job.new name) df basedir))
    by (repeat split).
  revert H0. generalize (jobParser.make (Job.new name) df basedir) as jp0.
  intros jp0 H0.
  do 7 through_block noMode close_noMode.
  match goal with
  | Hprev : noMode ?prev |- _ =>
    destruct Hprev as (Hrate & Hdepth & Hlog);
    destruct prev as [[] ? ? ? ? ?]; simpl in Hrate, Hdepth, Hlog; subst
  end.
  unfold jsonRate, jsonQueueDepth, jsonQueryLog, logReplay.
  repeat match goal with
         | |- context [if isFieldSet ?rt ?v ?name then _ else _] =>
           destruct (isFieldSet rt v name); simpl
         end;
    repeat match goal with
           | |- context [if SFltb ?a ?b then _ else _] =>
             destruct (SFltb a b); simpl
           end;
    try discriminate;
    try match goal with
        | |- context [os_Open rt ?v] =>
          destruct (os_Open rt v); simpl; [| discriminate]
        end;
    intros [= <-]; simpl; auto.
Qed.

Example rate_and_depth_taken_back :
  iniJobTypes Sample.runtime depthTakenBack = 1.
Proof. vm_compute. reflexivity. Qed.

(** The specification has every job that names more than one of rate,
    queue depth and query log rejected, and every job that names none of
    them run on one thread.  The section [depthTakenBack] holds a rate
    and a queue depth and is accepted as a job paced by its rate, the
    queue depth being the zero of the [concurrency] that follows it; a
    section and a JSON job that give none of the three and no query are
    rejected. *)
Lemma modes_go_by_value :
  (exists job,
      decodeJobSection Sample.runtime Sample.flavor depthTakenBack "/bench"
        (Job.new "paced") = Ok job
      /\ ratePaced job = true /\ Job.QueueDepth job = 0%N)
  /\ decodeJobSection Sample.runtime Sample.flavor [("start", "1s")] "/bench"
       (Job.new "idle")
     = Fail (New "no query provided")
  /\ validateJobSection Sample.runtime Sample.flavor nothingSet "/bench"
       (Job.new "idle")
     = Fail (New "no query provided").
Proof.
  split; [| split].
  - eexists. split; [vm_compute; reflexivity |].
    split; vm_compute; reflexivity.
  - vm_compute. reflexivity.
  - vm_compute. reflexivity.
Qed.

(** C1, as the code has it.  A job accepted by either parser is in
    exactly one of the three modes (rate above zero, queue depth above
    zero, a query log).  For a new job the modes go by the values it is
    given: its rate, its queue depth (in an INI section the later of
    [queue-depth] and [concurrency], in a JSON job [concurrency] when it
    is set and else [queueDepth]) and its query log.  A job that is given
    more than one mode is rejected, with the error of the reading of its
    fields or of the first check it fails and else with "Can only specify
    one of rate, queue-depth, or query-log-file".  A job that is given at
    most one is accepted exactly when its fields are read and the other
    checks pass, and given none it is accepted with queue depth 1. *)
Theorem exactly_one_job_type
    (rt : Runtime) (df : DatabaseFlavor) (basedir : string) :
  (forall job0 section job,
      decodeJobSection rt df section basedir job0 = Ok job ->
      jobTypes job = 1)
  /\ (forall job0 jobSpec job,
         validateJobSection rt df jobSpec basedir job0 = Ok job ->
         jobTypes job = 1)
  /\ (forall name section,
         1 < iniJobTypes rt section ->
         exists err,
           decodeJobSection rt df section basedir (Job.new name) = Fail err
           /\ (goini.Decode (goini_errors rt) (jobOptions rt) section
                 (jobParser.make (Job.new name) df basedir) = Fail err
               \/ exists jp,
                   goini.Decode (goini_errors rt) (jobOptions rt) section
                     (jobParser.make (Job.new name) df basedir) = Ok jp
                   /\ err = default (New oneJobType)
                              (violation iniWording jp)))
  /\ (forall name jobSpec,
         1 < jsonJobTypes rt jobSpec ->
         exists err,
           validateJobSection rt df jobSpec basedir (Job.new name) = Fail err
           /\ (applyJobOptions rt df jobSpec basedir (Job.new name) = Fail err
               \/ exists jp,
                   applyJobOptions rt df jobSpec basedir (Job.new name)
                   = Ok jp
                   /\ err = default (New oneJobType)
                              (violation jsonWording jp)))
  /\ (forall name section,
         iniJobTypes rt section <= 1 ->
         decodeJobSection rt df section basedir (Job.new name)
         = attempt jp := goini.Decode (goini_errors rt) (jobOptions rt)
                           section (jobParser.make (Job.new name) df basedir) in
           match violation iniWording jp with
           | Some err => Fail err
           | None => Ok (finishJob jp)
           end)
  /\ (forall name jobSpec,
         jsonJobTypes rt jobSpec <= 1 ->
         validateJobSection rt df jobSpec basedir (Job.new name)
         = attempt jp := applyJobOptions rt df jobSpec basedir (Job.new name) in
           match violation jsonWording jp with
           | Some err => Fail err
           | None => Ok (finishJob jp)
           end)
  /\ (forall name section job,
         iniJobTypes rt section = 0 ->
         decodeJobSection rt df section basedir (Job.new name) = Ok job ->
         Job.QueueDepth job = 1%N)
  /\ (forall name jobSpec job,
         jsonJobTypes rt jobSpec = 0 ->
         validateJobSection rt df jobSpec basedir (Job.new name) = Ok job ->
         Job.QueueDepth job = 1%N).
Proof.
  assert (Hmany : forall w jp,
             1 < jobTypes (jobParser.j jp) ->
             checkJob w jp
             = Fail (default (New oneJobType) (violation w jp)))
    by (intros w jp; apply checkJob_many).
  assert (Hfew : forall w jp,
             jobTypes (jobParser.j jp) <= 1 ->
             checkJob w jp
             = match violation w jp with
               | Some err => Fail err
               | None => Ok (finishJob jp)
               end).
  { intros w jp Hle. unfold checkJob.
    destruct (violation w jp); [reflexivity |].
    apply Z.ltb_ge in Hle. now rewrite Hle. }
  assert (Hnone : forall w jp job,
             jobTypes (jobParser.j jp) = 0 ->
             checkJob w jp = Ok job -> Job.QueueDepth job = 1%N).
  { intros w jp job Hn H. apply checkJob_Ok in H as (_ & _ & ->).
    destruct (finishJob_fields jp) as (_ & _ & _ & _ & _ & _ & _ & Hd & _).
    rewrite Hd, Hn. reflexivity. }
  split; [| split; [| split; [| split; [| split; [| split; [| split]]]]]].
  - intros job0 section job. rewrite decodeJobSection_checkJob.
    destruct (goini.Decode _ _ _ _) as [jp |]; [simpl | discriminate].
    intros H. apply checkJob_Ok in H as (_ & Hle & ->).
    now apply finishJob_one_type.
  - intros job0 jobSpec job. rewrite validateJobSection_checkJob.
    destruct (applyJobOptions _ _ _ _ _) as [jp |]; [simpl | discriminate].
    intros H. apply checkJob_Ok in H as (_ & Hle & ->).
    now apply finishJob_one_type.
  - intros name section Hgiven. rewrite decodeJobSection_checkJob.
    destruct (goini.Decode _ _ _ _) as [jp | e] eqn:Hjp; simpl.
    + apply Decode_modesRead in Hjp. rewrite <- Hjp in Hgiven.
      rewrite (Hmany _ _ Hgiven). eauto 6.
    + eauto.
  - intros name jobSpec Hgiven. rewrite validateJobSection_checkJob.
    destruct (applyJobOptions _ _ _ _ _) as [jp | e] eqn:Hjp; simpl.
    + apply applyJobOptions_modes in Hjp. rewrite <- Hjp in Hgiven.
      rewrite (Hmany _ _ Hgiven). eauto 6.
    + eauto.
  - intros name section Hgiven. rewrite decodeJobSection_checkJob.
    destruct (goini.Decode _ _ _ _) as [jp | e] eqn:Hjp; simpl;
      [| reflexivity].
    apply Decode_modesRead in Hjp. rewrite <- Hjp in Hgiven. now apply Hfew.
  - intros name jobSpec Hgiven. rewrite validateJobSection_checkJob.
    destruct (applyJobOptions _ _ _ _ _) as [jp | e] eqn:Hjp; simpl;
      [| reflexivity].
    apply applyJobOptions_modes in Hjp. rewrite <- Hjp in Hgiven.
    now apply Hfew.
  - intros name section job Hgiven. rewrite decodeJobSection_checkJob.
    destruct (goini.Decode _ _ _ _) as [jp | e] eqn:Hjp; simpl;
      [| discriminate].
    apply Decode_modesRead in Hjp. rewrite <- Hjp in Hgiven.
    now apply Hnone.
  - intros name jobSpec job Hgiven. rewrite validateJobSection_checkJob.
    destruct (applyJobOptions _ _ _ _ _) as [jp | e] eqn:Hjp; simpl;
      [| discriminate].
    apply applyJobOptions_modes in Hjp. rewrite <- Hjp in Hgiven.
    now apply Hnone.
Qed.

(** Scenario 7 of the specification, in both syntaxes: [rate=10] with
    [queue-depth=2]. *)
Lemma exactly_one_job_type_witness :
  (1 < iniJobTypes Sample.runtime
         [("query", "select 1"); ("rate", "10"); ("queue-depth", "2")]
   /\ exists err,
       decodeJobSection Sample.runtime Sample.flavor
         [("query", "select 1"); ("rate", "10"); ("queue-depth", "2")]
         "/bench" (Job.new "both") = Fail err)
  /\ (1 < jsonJobTypes Sample.runtime rateAndDepth
      /\ exists err,
          validateJobSection Sample.runtime Sample.flavor rateAndDepth
            "/bench" (Job.new "both") = Fail err).
Proof.
  destruct (exactly_one_job_type Sample.runtime Sample.flavor "/bench")
    as (_ & _ & Hini & Hjson & _).
  assert (H1 : 1 < iniJobTypes Sample.runtime
                     [("query", "select 1"); ("rate", "10");
                      ("queue-depth", "2")])
    by (vm_compute; reflexivity).
  assert (H2 : 1 < jsonJobTypes Sample.runtime rateAndDepth)
    by (vm_compute; reflexivity).
  split; (split; [assumption |]).
  - destruct (Hini "both" _ H1) as (err & Herr & _). now exists err.
  - destruct (Hjson "both" _ H2) as (err & Herr & _). now exists err.
Defined.

Example both_modes_message :
  decodeJobSection Sample.runtime Sample.flavor
    [("query", "select 1"); ("rate", "10"); ("queue-depth", "2")]
    "/bench" (Job.new "both")
  = Fail (New oneJobType)
  /\ validateJobSection Sample.runtime Sample.flavor rateAndDepth "/bench"
       (Job.new "both")
     = Fail (New oneJobType).
Proof. split; vm_compute; reflexivity. Qed.
